(** * repo_analyzer: a shallow embedding of the repository client and the analyzer

    The development follows the two source modules:
    - [repo_analyzer/repo.py]     (class [Repository]: the paged HTTP client)
    - [repo_analyzer/analyzer.py] (class [Analyzer]: URL and date parsing,
      the open/closed/stale summary and the contributor ranking)

    Python values are modelled as follows.  A [str] is a [string] (the
    characters of the model are the 8-bit ones), an [int] is a [Z], a raised
    exception is the [Raise] branch of [result], a [dict] of request
    parameters is a [gmap], the insertion-ordered [defaultdict(int)] of the
    ranking is an association list, and the remote API is a transition
    function on an abstract server state. *)

From Stdlib Require Import ZArith Ascii String List Bool Lia Sorted Permutation.
From Stdlib Require Import DecimalString.
From stdpp Require Import base option list gmap strings.

Open Scope string_scope.
Open Scope list_scope.
Open Scope Z_scope.

(** ** Python preliminaries *)
Module Py.

(** Modelled from the spec: [AnalyzerError], the input error, is declared in
    [repo_analyzer/errors.py], which is not among the sources; it is taken
    to be an exception that carries its message, like [RepositoryError] of
    repo.py.  The other constructors are the built-in exceptions that the
    modelled code lets escape. *)
Inductive exn : Type :=
| AnalyzerError (msg : string)      (* repo_analyzer.errors.AnalyzerError *)
| RepositoryError (msg : string)    (* repo_analyzer.repo.RepositoryError *)
| TypeError                         (* e.g. [None < datetime] *)
| OverflowError.                    (* datetime arithmetic out of range *)

Inductive result (A : Type) : Type :=
| Ok (a : A)
| Raise (e : exn).
Arguments Ok {A} a.
Arguments Raise {A} e.

Definition bind {A B} (r : result A) (f : A -> result B) : result B :=
  match r with
  | Ok a => f a
  | Raise e => Raise e
  end.

(** [l[:n]] for a Python list [l] and an int [n]: the first [n] elements for
    [n >= 0], all but the last [-n] for [n < 0]. *)
Definition slice_to {A} (l : list A) (n : Z) : list A :=
  if 0 <=? n then firstn (Z.to_nat n) l
  else firstn (length l - Z.to_nat (- n))%nat l.

(** [len(l)] *)
Definition len {A} (l : list A) : Z := Z.of_nat (length l).

Definition is_digit (c : ascii) : bool :=
  let n := N_of_ascii c in (48 <=? n)%N && (n <=? 57)%N.

Definition is_space (c : ascii) : bool :=
  let n := N_of_ascii c in ((9 <=? n)%N && (n <=? 13)%N) || (n =? 32)%N.

Definition digit_val (c : ascii) : Z := Z.of_N (N_of_ascii c) - 48.

Fixpoint digits_val (acc : Z) (s : string) : option Z :=
  match s with
  | EmptyString => Some acc
  | String c s' =>
      if is_digit c then digits_val (10 * acc + digit_val c) s' else None
  end.

Fixpoint lstrip (s : string) : string :=
  match s with
  | String c s' => if is_space c then lstrip s' else s
  | EmptyString => s
  end.

(** [int(s)] on the strings that the date patterns capture: optional leading
    blanks followed by at least one decimal digit.  [None] is [ValueError]. *)
Definition int (s : string) : option Z :=
  match lstrip s with
  | EmptyString => None
  | s' => digits_val 0 s'
  end.

(** [str.lower] and [str.upper] on one ASCII character; a byte of a
    character outside ASCII is left as it is. *)
Definition lower (c : ascii) : ascii :=
  let n := N_of_ascii c in
  if (65 <=? n)%N && (n <=? 90)%N then ascii_of_N (n + 32) else c.

Definition upper (c : ascii) : ascii :=
  let n := N_of_ascii c in
  if (97 <=? n)%N && (n <=? 122)%N then ascii_of_N (n - 32) else c.

End Py.
Export Py.

Declare Scope py_scope.
Notation "'let*' x ':=' c1 'in' c2" := (Py.bind c1 (fun x => c2))
  (at level 10, x pattern, c1 at level 100, c2 at level 200) : py_scope.
Open Scope py_scope.

(** ** The fragment of Python's [re] used by the program

    Backtracking matching in priority order, written in continuation-passing
    style: [rmatch r s g k] tries the ways [r] can match a prefix of [s], in
    the order in which Python's engine tries them, and returns the first one
    that the continuation [k] accepts. *)
Module Re.

Inductive regex : Type :=
| Eps
| Lit (c : ascii)                                  (* a literal character *)
| Cls (neg : bool) (ranges : list (ascii * ascii)) (* [a-b...] and [^a-b...] *)
| Cat (r1 r2 : regex)
| Alt (r1 r2 : regex)                              (* r1|r2, r1 tried first *)
| PlusCls (neg : bool) (ranges : list (ascii * ascii)) (* greedy [...]+ *)
| Group (name : string) (r : regex).               (* a capturing group *)

Definition groups : Type := list (string * string).

Definition in_range (c : ascii) (r : ascii * ascii) : bool :=
  (N_of_ascii (fst r) <=? N_of_ascii c)%N && (N_of_ascii c <=? N_of_ascii (snd r))%N.

Definition in_ranges (c : ascii) (ranges : list (ascii * ascii)) : bool :=
  existsb (in_range c) ranges.

(** Membership of a character in a class; under IGNORECASE both the lower
    and the upper case of the character are looked up.  The classes of the
    patterns of the program hold no letter. *)
Definition cls_match (icase neg : bool) (ranges : list (ascii * ascii))
    (c : ascii) : bool :=
  let hit :=
    if icase then in_ranges (lower c) ranges || in_ranges (upper c) ranges
    else in_ranges c ranges in
  if neg then negb hit else hit.

Definition lit_match (icase : bool) (p c : ascii) : bool :=
  if icase then Ascii.eqb (lower p) (lower c) else Ascii.eqb p c.

(** In a text, a character outside ASCII stands as the bytes of its UTF-8
    form.  Under IGNORECASE a literal ASCII letter also matches the
    characters outside ASCII that have it as a case: U+0130 and U+0131 for
    "i", U+212A for "k", U+017F for "s"; no other ASCII character has
    any. *)
Definition other_cases (p : ascii) : list string :=
  let l := lower p in
  if Ascii.eqb l "i" then
    [String "196" (String "176" EmptyString);
     String "196" (String "177" EmptyString)]
  else if Ascii.eqb l "k" then
    [String "226" (String "132" (String "170" EmptyString))]
  else if Ascii.eqb l "s" then
    [String "197" (String "191" EmptyString)]
  else [].

(** The rest of [s] after its prefix [p]. *)
Fixpoint strip_prefix (p s : string) : option string :=
  match p with
  | EmptyString => Some s
  | String a p' =>
      match s with
      | String c s' => if Ascii.eqb a c then strip_prefix p' s' else None
      | EmptyString => None
      end
  end.

(** The first of the texts [ps] that [s] starts with, and the rest. *)
Fixpoint strip_any (ps : list string) (s : string) : option (string * string) :=
  match ps with
  | [] => None
  | p :: ps' =>
      match strip_prefix p s with
      | Some rest => Some (p, rest)
      | None => strip_any ps' s
      end
  end.

(** The character that a literal [p] matches at the start of [s], and the
    rest. *)
Definition lit_strip (icase : bool) (p : ascii) (s : string)
    : option (string * string) :=
  match s with
  | String c s' =>
      if lit_match icase p c then Some (String c EmptyString, s')
      else if icase then strip_any (other_cases p) s
      else None
  | EmptyString => None
  end.

(** Greedy [+] over a character class: the longest run first, then shorter
    ones.  The continuation receives the text consumed and the rest. *)
Fixpoint plus_cls {T} (p : ascii -> bool) (s : string)
    (k : string -> string -> option T) : option T :=
  match s with
  | String c s' =>
      if p c then
        match plus_cls p s' (fun m rest => k (String c m) rest) with
        | Some t => Some t
        | None => k (String c EmptyString) s'
        end
      else None
  | EmptyString => None
  end.

(** [rmatch icase r s g k]: the continuation receives the text that [r]
    consumed, the rest of the input and the groups captured so far. *)
Fixpoint rmatch {T} (icase : bool) (r : regex) (s : string) (g : groups)
    (k : string -> string -> groups -> option T) : option T :=
  match r with
  | Eps => k EmptyString s g
  | Lit p =>
      match lit_strip icase p s with
      | Some (m, s') => k m s' g
      | None => None
      end
  | Cls neg ranges =>
      match s with
      | String c s' =>
          if cls_match icase neg ranges c then k (String c EmptyString) s' g
          else None
      | EmptyString => None
      end
  | Cat r1 r2 =>
      rmatch icase r1 s g (fun m1 s1 g1 =>
        rmatch icase r2 s1 g1 (fun m2 s2 g2 => k (m1 +:+ m2) s2 g2))
  | Alt r1 r2 =>
      match rmatch icase r1 s g k with
      | Some t => Some t
      | None => rmatch icase r2 s g k
      end
  | PlusCls neg ranges =>
      plus_cls (cls_match icase neg ranges) s (fun m rest => k m rest g)
  | Group name r1 =>
      rmatch icase r1 s g (fun m rest g' => k m rest ((name, m) :: g'))
  end.

(** A run of literal characters. *)
Fixpoint lits (s : string) : regex :=
  match s with
  | EmptyString => Eps
  | String c s' => Cat (Lit c) (lits s')
  end.

(** The result of a match: the text matched, the rest of the input and the
    captured groups. *)
Record match_result : Type := {
  matched : string;
  remaining : string;
  captured : groups
}.

(** [re.match]: a match anchored at the start of the input. *)
Definition match_ (icase : bool) (r : regex) (s : string) : option match_result :=
  rmatch icase r s []
    (fun m rest g => Some {| matched := m; remaining := rest; captured := g |}).

(** [re.findall]: the non-overlapping matches from left to right.  [skip]
    counts the characters of the previous match that are still to be
    stepped over. *)
Fixpoint findall_from (icase : bool) (r : regex) (s : string) (skip : nat)
    {struct s} : list match_result :=
  match skip with
  | S n =>
      match s with
      | String _ s' => findall_from icase r s' n
      | EmptyString => []
      end
  | O =>
      match match_ icase r s with
      | Some m =>
          m :: match s with
               | String _ s' =>
                   findall_from icase r s' (String.length (matched m) - 1)%nat
               | EmptyString => []
               end
      | None =>
          match s with
          | String _ s' => findall_from icase r s' 0%nat
          | EmptyString => []
          end
      end
  end.

Definition findall (icase : bool) (r : regex) (s : string) : list match_result :=
  findall_from icase r s 0%nat.

(** The value of a group; a group that took no part in the match is absent. *)
Fixpoint group (name : string) (g : groups) : option string :=
  match g with
  | [] => None
  | (n, v) :: g' => if String.eqb n name then Some v else group name g'
  end.

End Re.

(** ** The fragment of Python's [datetime] used by the program

    A naive [datetime.datetime] is the record of its fields.  The calendar
    arithmetic follows the functions of the standard library's datetime
    module that bear the same names. *)
Module Datetime.

Record datetime : Type := mkDatetime {
  year : Z; month : Z; day : Z;
  hour : Z; minute : Z; second : Z; microsecond : Z
}.

Definition MAXORDINAL : Z := 3652059.   (* date.max.toordinal() *)

Definition _is_leap (y : Z) : bool :=
  (y mod 4 =? 0) && (negb (y mod 100 =? 0) || (y mod 400 =? 0)).

Definition _days_before_year (y : Z) : Z :=
  let y := y - 1 in y * 365 + y / 4 - y / 100 + y / 400.

Definition _DAYS_IN_MONTH (m : Z) : Z :=
  match m with
  | 1 => 31 | 2 => 28 | 3 => 31 | 4 => 30 | 5 => 31 | 6 => 30
  | 7 => 31 | 8 => 31 | 9 => 30 | 10 => 31 | 11 => 30 | 12 => 31
  | _ => -1
  end.

Definition _DAYS_BEFORE_MONTH (m : Z) : Z :=
  match m with
  | 1 => 0 | 2 => 31 | 3 => 59 | 4 => 90 | 5 => 120 | 6 => 151
  | 7 => 181 | 8 => 212 | 9 => 243 | 10 => 273 | 11 => 304 | 12 => 334
  | _ => -1
  end.

Definition _days_in_month (y m : Z) : Z :=
  if (m =? 2) && _is_leap y then 29 else _DAYS_IN_MONTH m.

Definition _days_before_month (y m : Z) : Z :=
  _DAYS_BEFORE_MONTH m + (if (2 <? m) && _is_leap y then 1 else 0).

Definition _ymd2ord (y m d : Z) : Z :=
  _days_before_year y + _days_before_month y m + d.

Definition _DI400Y : Z := _days_before_year 401.
Definition _DI100Y : Z := _days_before_year 101.
Definition _DI4Y : Z := _days_before_year 5.

Definition _ord2ymd (n : Z) : Z * Z * Z :=
  let n := n - 1 in
  let n400 := n / _DI400Y in let n := n mod _DI400Y in
  let y := n400 * 400 + 1 in
  let n100 := n / _DI100Y in let n := n mod _DI100Y in
  let n4 := n / _DI4Y in let n := n mod _DI4Y in
  let n1 := n / 365 in let n := n mod 365 in
  let y := y + n100 * 100 + n4 * 4 + n1 in
  if (n1 =? 4) || (n100 =? 4) then (y - 1, 12, 31)
  else
    let leapyear := (n1 =? 3) && (negb (n4 =? 24) || (n100 =? 3)) in
    let m := Z.shiftr (n + 50) 5 in
    let preceding :=
      _DAYS_BEFORE_MONTH m + (if (2 <? m) && leapyear then 1 else 0) in
    if n <? preceding then
      let m := m - 1 in
      let preceding :=
        preceding
        - (_DAYS_IN_MONTH m + (if (m =? 2) && leapyear then 1 else 0)) in
      (y, m, n - preceding + 1)
    else (y, m, n - preceding + 1).

(** The constructor [datetime(y, m, d, hh, mm, ss)]; [None] is the [ValueError]
    of [_check_date_fields] and [_check_time_fields]. *)
Definition make (y m d hh mm ss : Z) : option datetime :=
  if (1 <=? y) && (y <=? 9999) && (1 <=? m) && (m <=? 12)
     && (1 <=? d) && (d <=? _days_in_month y m)
     && (0 <=? hh) && (hh <=? 23) && (0 <=? mm) && (mm <=? 59)
     && (0 <=? ss) && (ss <=? 59)
  then Some (mkDatetime y m d hh mm ss 0)
  else None.

Definition toordinal (t : datetime) : Z := _ymd2ord (year t) (month t) (day t).

(** Comparison of two datetimes: the comparison of the tuples of their
    fields. *)
Definition fields (t : datetime) : list Z :=
  [year t; month t; day t; hour t; minute t; second t; microsecond t].

Fixpoint cmp_fields (a b : list Z) : comparison :=
  match a, b with
  | x :: a', y :: b' =>
      match x ?= y with
      | Eq => cmp_fields a' b'
      | c => c
      end
  | [], [] => Eq
  | [], _ :: _ => Lt
  | _ :: _, [] => Gt
  end.

Definition cmp (a b : datetime) : comparison := cmp_fields (fields a) (fields b).

Definition lt (a b : datetime) : bool :=
  match cmp a b with Lt => true | _ => false end.
Definition gt (a b : datetime) : bool :=
  match cmp a b with Gt => true | _ => false end.
Definition le (a b : datetime) : bool := negb (gt a b).
Definition ge (a b : datetime) : bool := negb (lt a b).

(** [t - datetime.timedelta(days=n)].  The timedelta constructor and the
    subtraction raise [OverflowError] outside their ranges. *)
Definition sub_days (t : datetime) (n : Z) : result datetime :=
  if 999999999 <? Z.abs n then Raise OverflowError
  else
    let o := toordinal t - n in
    if (0 <? o) && (o <=? MAXORDINAL) then
      let '(y, m, d) := _ord2ymd o in
      Ok (mkDatetime y m d (hour t) (minute t) (second t) (microsecond t))
    else Raise OverflowError.

(** *** [datetime.strptime]

    The format is turned into a regular expression, directive by directive
    (the table of [_strptime.TimeRE]); the expression is matched at the start
    of the text, ignoring case; the text must be consumed entirely; the
    captured fields are converted and handed to the constructor.  [None]
    stands for [ValueError].  The digits are the ASCII digits; the decimal
    digits of other scripts, which [\d] and [int] take as well, are left
    out. *)
Import Re.

Definition digit : regex := Cls false [("0", "9")]%char.
Definition rng (a b : ascii) : regex := Cls false [(a, b)].

Definition directive (c : ascii) : option regex :=
  match c with
  | "Y"%char => Some (Cat digit (Cat digit (Cat digit digit)))
  | "m"%char =>
      Some (Alt (Cat (Lit "1") (rng "0" "2"))
           (Alt (Cat (Lit "0") (rng "1" "9"))
                (rng "1" "9")))
  | "d"%char =>
      Some (Alt (Cat (Lit "3") (rng "0" "1"))
           (Alt (Cat (rng "1" "2") digit)
           (Alt (Cat (Lit "0") (rng "1" "9"))
           (Alt (rng "1" "9")
                (Cat (Lit " ") (rng "1" "9"))))))
  | "H"%char =>
      Some (Alt (Cat (Lit "2") (rng "0" "3"))
           (Alt (Cat (rng "0" "1") digit)
                digit))
  | "M"%char => Some (Alt (Cat (rng "0" "5") digit) digit)
  | "S"%char =>
      Some (Alt (Cat (Lit "6") (rng "0" "1"))
           (Alt (Cat (rng "0" "5") digit)
                digit))
  | _ => None
  end.

Fixpoint pattern (fmt : string) : option regex :=
  match fmt with
  | EmptyString => Some Eps
  | String "%" (String c rest) =>
      match directive c, pattern rest with
      | Some r, Some p => Some (Cat (Group (String c EmptyString) r) p)
      | _, _ => None
      end
  | String c rest =>
      match pattern rest with
      | Some p => Some (Cat (Lit c) p)
      | None => None
      end
  end.

(** The converted value of a field of the match, or its default. *)
Definition field (name : string) (default : Z) (g : groups) : option Z :=
  match group name g with
  | Some v => Py.int v
  | None => Some default
  end.

Definition strptime (data_string fmt : string) : option datetime :=
  match pattern fmt with
  | None => None
  | Some r =>
      match match_ true r data_string with
      | None => None
      | Some found =>
          match remaining found with
          | String _ _ => None          (* unconverted data remains *)
          | EmptyString =>
              let g := captured found in
              match field "Y" 1900 g, field "m" 1 g, field "d" 1 g,
                    field "H" 0 g, field "M" 0 g, field "S" 0 g with
              | Some y, Some m, Some d, Some hh, Some mm, Some ss =>
                  make y m d hh mm ss
              | _, _, _, _, _, _ => None
              end
          end
      end
  end.

(** Decimal fields padded with zeros, as ["%04d"] and ["%02d"] print them. *)
Definition digit_char (n : Z) : ascii := ascii_of_N (Z.to_N (48 + n mod 10)).

Definition pad2 (n : Z) : string :=
  String (digit_char (n / 10)) (String (digit_char n) EmptyString).

Definition pad4 (n : Z) : string :=
  String (digit_char (n / 1000)) (String (digit_char (n / 100)) (pad2 n)).

Definition pad6 (n : Z) : string :=
  String (digit_char (n / 100000)) (String (digit_char (n / 10000)) (pad4 n)).

(** [t.isoformat()] *)
Definition isoformat (t : datetime) : string :=
  pad4 (year t) +:+ "-" +:+ pad2 (month t) +:+ "-" +:+ pad2 (day t) +:+ "T"
  +:+ pad2 (hour t) +:+ ":" +:+ pad2 (minute t) +:+ ":" +:+ pad2 (second t)
  +:+ (if microsecond t =? 0 then "" else "." +:+ pad6 (microsecond t)).

End Datetime.


(** ** The records of the API

    A raw record is the JSON object of a commit, a pull request or an issue,
    restricted to the keys that the analyzer reads, which the API always
    sends; [None] is JSON's null. *)
Record Author : Type := { login : string }.

Record RawRecord : Type := {
  created_at : option string;
  state : string;
  author : option Author
}.

(** ** repo.py: the repository client *)
Module Repository.

(** The values of the query parameters. *)
Inductive pval : Type :=
| PNone
| PStr (s : string)
| PInt (n : Z).

Record request : Type := {
  req_url : string;
  req_headers : gmap string string;
  req_params : gmap string pval;
  req_auth : option (string * string)
}.

(** The response of [requests.get]: the status code, the body as text, and
    the body decoded by [r.json()]. *)
Record response : Type := {
  status_code : Z;
  text : string;
  json : list RawRecord
}.

Record Repository : Type := {
  _username : string;
  _project : string;
  _branch : string;
  _auth : option (string * string);
  _base_url : string
}.

Definition __headers : gmap string string :=
  {[ "Accept" := "application/vnd.github.v3+json" ]}.
Definition __page_size : Z := 100.

Definition __init__ (username project branch : string)
    (auth : option (string * string)) : Repository :=
  {| _username := username; _project := project; _branch := branch;
     _auth := auth;
     _base_url := "https://api.github.com/repos/" +:+ username +:+ "/" +:+ project |}.

Section Client.

(** The remote API: a server state and the effect of one GET request. *)
Context {St : Type}.
Variable http_get : St -> request -> response * St.

Definition _query (self : Repository) (endpoint : string)
    (params : gmap string pval) (st : St) : result (list RawRecord) * St :=
  let url := _base_url self +:+ "/" +:+ endpoint in
  let '(r, st') :=
    http_get st {| req_url := url; req_headers := __headers;
                   req_params := params; req_auth := _auth self |} in
  if negb (status_code r =? 200)
  then (Raise (RepositoryError ("API request error: " +:+ text r)), st')
  else (Ok (json r), st').

(** The body of [while True] in [_get_all_pages]; the loop is unbounded in
    the source, so the model counts the iterations it may still run:
    [None] means that [fuel] requests were not enough to leave the loop. *)
Fixpoint pages_loop (fuel : nat) (self : Repository) (endpoint : string)
    (page_size max_results : Z) (params : gmap string pval) (page : Z)
    (data : list RawRecord) (st : St)
    : option (result (list RawRecord) * St) :=
  match fuel with
  | O => None
  | S fuel' =>
      let params := <[ "page" := PInt page ]> params in
      match _query self endpoint params st with
      | (Raise e, st') => Some (Raise e, st')
      | (Ok data_page, st') =>
          let data := data ++ data_page in
          if (len data_page <? page_size)
             || (negb (max_results =? 0) && (max_results <=? len data))
          then Some (Ok data, st')
          else pages_loop fuel' self endpoint page_size max_results params
                 (page + 1) data st'
      end
  end.

Definition page_size_for (max_results : Z) : Z :=
  if negb (max_results =? 0) && (max_results <? __page_size)
  then max_results else __page_size.

Definition _get_all_pages (fuel : nat) (self : Repository)
    (endpoint : string) (params : option (gmap string pval))
    (max_results : Z) (st : St) : option (result (list RawRecord) * St) :=
  let page_size := page_size_for max_results in
  let params :=
    match params with
    | Some p =>
        if decide (p = ∅) then {[ "per_page" := PInt page_size ]}
        else <[ "per_page" := PInt page_size ]> p
    | None => {[ "per_page" := PInt page_size ]}
    end in
  match pages_loop fuel self endpoint page_size max_results params 1 [] st with
  | None => None
  | Some (Raise e, st') => Some (Raise e, st')
  | Some (Ok data, st') =>
      if negb (max_results =? 0) then Some (Ok (slice_to data max_results), st')
      else Some (Ok data, st')
  end.

Definition opt_str (o : option string) : pval :=
  match o with
  | Some s => PStr s
  | None => PNone
  end.

Definition get_commits (fuel : nat) (self : Repository)
    (date_from date_to : option string) (st : St) :=
  _get_all_pages fuel self "commits"
    (Some (<[ "until" := opt_str date_to ]>
             {[ "since" := opt_str date_from ]})) 0 st.

Definition get_contributors (fuel : nat) (self : Repository)
    (count : Z) (anon : bool) (st : St) :=
  _get_all_pages fuel self "contributors"
    (Some {[ "anon" := PInt (if anon then 1 else 0) ]}) count st.

Definition get_pull_requests (fuel : nat) (self : Repository)
    (state sort_by : string) (st : St) :=
  _get_all_pages fuel self "pulls"
    (Some (<[ "sort" := PStr sort_by ]>
            (<[ "base" := PStr (_branch self) ]>
              {[ "state" := PStr state ]}))) 0 st.

Definition get_issues (fuel : nat) (self : Repository)
    (state sort_by : string) (st : St) :=
  _get_all_pages fuel self "issues"
    (Some (<[ "sort" := PStr sort_by ]> {[ "state" := PStr state ]})) 0 st.

(** The four collection operations of the client, and a call of one. *)
Inductive collection : Type :=
| Commits (date_from date_to : option string)
| Contributors (count : Z) (anon : bool)
| PullRequests (state sort_by : string)
| Issues (state sort_by : string).

Definition fetch (fuel : nat) (self : Repository) (c : collection) (st : St)
    : option (result (list RawRecord) * St) :=
  match c with
  | Commits date_from date_to => get_commits fuel self date_from date_to st
  | Contributors count anon => get_contributors fuel self count anon st
  | PullRequests state sort_by => get_pull_requests fuel self state sort_by st
  | Issues state sort_by => get_issues fuel self state sort_by st
  end.

End Client.

(** The defaults of the keyword arguments. *)
Definition State_ALL : string := "all".
Definition Sorting_CREATE : string := "created".

(** A server instrumented with the log of the requests it received and the
    responses it gave, used to state what the client sends and when. *)
Definition logged {St : Type} (http_get : St -> request -> response * St)
    (st : St * list (request * response)) (rq : request)
    : response * (St * list (request * response)) :=
  let '(r, st') := http_get (fst st) rq in (r, (st', snd st ++ [(rq, r)])).

(** The outcome of a fetch without the log. *)
Definition forget {A St : Type}
    (x : option (A * (St * list (request * response)))) : option (A * St) :=
  match x with
  | Some (a, (st, _)) => Some (a, st)
  | None => None
  end.

(** The request for one page, as [_query] builds it. *)
Definition page_request (self : Repository) (endpoint : string)
    (params : gmap string pval) (page : Z) : request :=
  {| req_url := _base_url self +:+ "/" +:+ endpoint;
     req_headers := __headers;
     req_params := <[ "page" := PInt page ]> params;
     req_auth := _auth self |}.

(** The parameters after [_get_all_pages] has added [per_page]. *)
Definition with_per_page (params : option (gmap string pval))
    (page_size : Z) : gmap string pval :=
  match params with
  | Some p => <[ "per_page" := PInt page_size ]> p
  | None => {[ "per_page" := PInt page_size ]}
  end.

(** Simulated endpoints. *)
Definition dummy : RawRecord :=
  {| created_at := None; state := ""; author := None |}.

Definition ok_page (n : nat) : response :=
  {| status_code := 200; text := ""; json := repeat dummy n |}.

(** An endpoint that serves the given responses in order, then empty pages. *)
Definition scripted (st : list response) (rq : request)
    : response * list response :=
  match st with
  | r :: rest => (r, rest)
  | [] => (ok_page 0, [])
  end.

Definition error_page (code : Z) (body : string) : response :=
  {| status_code := code; text := body; json := [] |}.

Definition example_repo : Repository :=
  __init__ "octocat" "Hello-World" "master" None.

(** An endpoint whose every page is full. *)
Definition full_pages (st : unit) (rq : request) : response * unit :=
  (ok_page 100, tt).

End Repository.

(** ** analyzer.py: the analyzer *)
Module Analyzer.

Import Re Datetime.

Definition __STALE_PULL_REQUESTS_DAYS : Z := 30.
Definition __STALE_ISSUES_DAYS : Z := 14.

Record Analyzer : Type := {
  __repo_url : string;
  __date_from : option datetime;
  __date_to : option datetime;
  __repo_owner : string;
  _repo_name : string;
  __branch : string;
  __repo : Repository.Repository
}.

(** The pattern [github\.com/([^/]+)/([^\/?]+)]. *)
Definition url_pattern : regex :=
  Cat (lits "github.com/")
 (Cat (Group "1" (PlusCls true [("/", "/")]%char))
 (Cat (Lit "/")
      (Group "2" (PlusCls true [("/", "/"); ("?", "?")]%char)))).

(** A group of a match as [findall] reports it: the empty string when the
    group took no part in the match. *)
Definition group_or_empty (name : string) (g : groups) : string :=
  match group name g with
  | Some v => v
  | None => ""
  end.

Definition _parse_url (repo_url : string) : result (string * string) :=
  match findall true url_pattern repo_url with
  | m :: _ => Ok (group_or_empty "1" (captured m), group_or_empty "2" (captured m))
  | [] => Raise (AnalyzerError "Incorrect repository URL")
  end.

Definition _parse_time (time_string : option string) (source : string)
    : result (option datetime) :=
  match time_string with
  | None | Some EmptyString => Ok None
  | Some s =>
      let format_string :=
        if String.eqb source "input" then "%Y-%m-%d"
        else "%Y-%m-%dT%H:%M:%SZ" in
      match strptime s format_string with
      | Some t => Ok (Some t)
      | None => Raise (AnalyzerError "Incorrect date format")
      end
  end.

Definition __init__ (auth : option (string * string)) (repo_url branch : string)
    (date_from date_to : option string) : result Analyzer :=
  let* df := _parse_time date_from "input" in
  let* dt := _parse_time date_to "input" in
  let* (owner, name) := _parse_url repo_url in
  Ok {| __repo_url := repo_url; __date_from := df; __date_to := dt;
        __repo_owner := owner; _repo_name := name; __branch := branch;
        __repo := Repository.__init__ owner name branch auth |}.

(** [a < b] and [a > b] where [a] may be [None]: comparing [None] with a
    datetime raises [TypeError]. *)
Definition py_lt (a : option datetime) (b : datetime) : result bool :=
  match a with
  | Some a => Ok (lt a b)
  | None => Raise TypeError
  end.

Definition py_gt (a : option datetime) (b : datetime) : result bool :=
  match a with
  | Some a => Ok (gt a b)
  | None => Raise TypeError
  end.

(** [x and date < x]: the comparison is evaluated only when [x] is set. *)
Definition __filter_by_date (self : Analyzer) (date : option datetime)
    : result bool :=
  let* before :=
    match __date_from self with
    | Some f => py_lt date f
    | None => Ok false
    end in
  if before then Ok false
  else
    let* after :=
      match __date_to self with
      | Some t => py_gt date t
      | None => Ok false
      end in
    if after then Ok false else Ok true.

(** The [for] loop of [_summarize] with its three counters. *)
Fixpoint summarize_loop (self : Analyzer) (deadline : datetime)
    (elements : list RawRecord) (opened closed stale : Z)
    : result (Z * Z * Z) :=
  match elements with
  | [] => Ok (opened, closed, stale)
  | element :: rest =>
      let* created := _parse_time (created_at element) "api" in
      let* keep := __filter_by_date self created in
      if negb keep then summarize_loop self deadline rest opened closed stale
      else if String.eqb (state element) "open" then
        let opened := opened + 1 in
        let* old := py_lt created deadline in
        if old then summarize_loop self deadline rest opened closed (stale + 1)
        else summarize_loop self deadline rest opened closed stale
      else summarize_loop self deadline rest opened (closed + 1) stale
  end.

(** [now] is the value of [datetime.datetime.now()]. *)
Definition _summarize (self : Analyzer) (now : datetime)
    (elements : list RawRecord) (stale_days : Z) : result (Z * Z * Z) :=
  let* deadline := sub_days now stale_days in
  summarize_loop self deadline elements 0 0 0.

(** [rating[key] += 1] on the [defaultdict(int)]: a present key keeps its
    place, a new key goes to the end. *)
Fixpoint incr (rating : list (string * Z)) (key : string) : list (string * Z) :=
  match rating with
  | [] => [(key, 0 + 1)]
  | (k, v) :: rest =>
      if String.eqb k key then (k, v + 1) :: rest
      else (k, v) :: incr rest key
  end.

Fixpoint tally (commits : list RawRecord) (rating : list (string * Z))
    : list (string * Z) :=
  match commits with
  | [] => rating
  | commit :: rest =>
      match author commit with
      | None => tally rest rating
      | Some a => tally rest (incr rating (login a))
      end
  end.

(** [rating.sort(key=lambda x: x[1], reverse=True)]: Python's sort is
    stable, also with [reverse=True]; items with equal counts keep their
    order.  An item is inserted after the items that precede it with a
    count at least as large. *)
Fixpoint insert_desc (x : string * Z) (l : list (string * Z))
    : list (string * Z) :=
  match l with
  | [] => [x]
  | y :: l' => if snd x <? snd y then y :: insert_desc x l' else x :: l
  end.

Fixpoint sort_desc (l : list (string * Z)) : list (string * Z) :=
  match l with
  | [] => []
  | x :: l' => insert_desc x (sort_desc l')
  end.

(** Lines 132-149 of [get_contributors]: from the commits to the ranking. *)
Definition rank (commits : list RawRecord) (count : Z) : list (string * Z) :=
  let rating := tally commits [] in
  let rating := sort_desc rating in
  if negb (count =? 0) then slice_to rating count else rating.

Section Client.

Context {St : Type}.
Variable http_get : St -> Repository.request -> Repository.response * St.

Definition get_contributors (fuel : nat) (self : Analyzer) (count : Z)
    (st : St) : option (result (list (string * Z)) * St) :=
  let date_from := option_map (fun t => isoformat t +:+ "Z") (__date_from self) in
  let date_to := option_map (fun t => isoformat t +:+ "Z") (__date_to self) in
  match Repository.get_commits http_get fuel (__repo self) date_from date_to st with
  | None => None
  | Some (Raise e, st') => Some (Raise e, st')
  | Some (Ok commits, st') => Some (Ok (rank commits count), st')
  end.

Definition get_pull_requests_stat (fuel : nat) (self : Analyzer)
    (now : datetime) (st : St) : option (result (Z * Z * Z) * St) :=
  match Repository.get_pull_requests http_get fuel (__repo self)
          Repository.State_ALL Repository.Sorting_CREATE st with
  | None => None
  | Some (Raise e, st') => Some (Raise e, st')
  | Some (Ok elements, st') =>
      Some (_summarize self now elements __STALE_PULL_REQUESTS_DAYS, st')
  end.

Definition get_issues_stat (fuel : nat) (self : Analyzer)
    (now : datetime) (st : St) : option (result (Z * Z * Z) * St) :=
  match Repository.get_issues http_get fuel (__repo self)
          Repository.State_ALL Repository.Sorting_CREATE st with
  | None => None
  | Some (Raise e, st') => Some (Raise e, st')
  | Some (Ok elements, st') =>
      Some (_summarize self now elements __STALE_ISSUES_DAYS, st')
  end.

End Client.

End Analyzer.

(** ** analyzer.py: the credentials, the printing and the entry point

    What [print] writes is kept as the list of the texts of the calls, in
    order; a text may hold line breaks of its own. *)
Module Program.

Import Datetime Analyzer.

(** [str(n)] for an int. *)
Definition str (n : Z) : string := NilZero.string_of_int (Z.to_int n).

Fixpoint fill_with (c : ascii) (n : nat) : string :=
  match n with
  | O => EmptyString
  | S n' => String c (fill_with c n')
  end.

(** [s.ljust(width, fill)]: [s] followed by as many [fill] as it lacks to
    be [width] long. *)
Definition ljust (s : string) (width : Z) (fill : ascii) : string :=
  s +:+ fill_with fill (Z.to_nat (width - Z.of_nat (String.length s))).

Definition just (s : string) : string := ljust s 50 "_".

(** [pprint_contributors]: the texts it prints. *)
Definition pprint_contributors (contributors : list (string * Z))
    : list string :=
  match contributors with
  | [] => []
  | _ => map (fun c => ljust (fst c) 50 "_" +:+ " " +:+ str (snd c)) contributors
  end.

(** The values of the command line that [parse_args] returns. *)
Record Namespace : Type := {
  url : string;
  date_from : option string;
  date_to : option string;
  branch : string
}.

(** The check made when the module is loaded: [GITHUB_AUTH] is the pair of
    the environment variables GITHUB_LOGIN and GITHUB_TOKEN, and [all]
    wants both present and not empty. *)
Definition GITHUB_AUTH (login token : option string)
    : result (option (string * string)) :=
  match login, token with
  | Some (String a l), Some (String b t) =>
      Ok (Some (String a l, String b t))
  | _, _ => Raise (AnalyzerError "Bad credentials")
  end.

Definition newline : string := String (ascii_of_nat 10) EmptyString.

Definition banner : string :=
  "RepoAnalyzer v1.0" +:+ newline +:+ "By @cyberego" +:+ newline.

(** [print(just(label), n)] *)
Definition stat_line (label : string) (n : Z) : string :=
  just label +:+ " " +:+ str n.

Section Main.

Context {St : Type}.
Variable http_get : St -> Repository.request -> Repository.response * St.

(** [main]: the texts printed, how the run ended, and the state of the
    server.  [now_pulls] and [now_issues] are the two readings of the clock
    made by the two summaries.  [None]: a fetch ran out of fuel. *)
Definition main (fuel : nat) (auth : option (string * string))
    (args : Namespace) (now_pulls now_issues : datetime) (st : St)
    : option (list string * result unit * St) :=
  let out := [banner] in
  match __init__ auth (url args) (branch args) (date_from args) (date_to args) with
  | Raise e => Some (out, Raise e, st)
  | Ok analyzer =>
      match get_contributors http_get fuel analyzer 30 st with
      | None => None
      | Some (Raise e, st1) => Some (out, Raise e, st1)
      | Some (Ok contributors, st1) =>
          let out :=
            out ++
            match contributors with
            | [] => ["No contributors"]
            | _ =>
                ("Top " +:+ str (len contributors) +:+ " contributors")
                :: pprint_contributors contributors
            end in
          match get_pull_requests_stat http_get fuel analyzer now_pulls st1 with
          | None => None
          | Some (Raise e, st2) => Some (out, Raise e, st2)
          | Some (Ok (opened, closed, stale), st2) =>
              let out :=
                out ++ [""; stat_line "Number of open pull requests:" opened;
                        stat_line "Number of closed pull requests:" closed;
                        stat_line "Number of stale pull requests:" stale] in
              match get_issues_stat http_get fuel analyzer now_issues st2 with
              | None => None
              | Some (Raise e, st3) => Some (out, Raise e, st3)
              | Some (Ok (opened, closed, stale), st3) =>
                  Some (out ++ [""; stat_line "Number of open issues:" opened;
                                stat_line "Number of closed issues:" closed;
                                stat_line "Number of stale issues:" stale],
                        Ok tt, st3)
              end
          end
      end
  end.

(** The program: the module is loaded, then [main] runs. *)
Definition program (fuel : nat) (login token : option string)
    (args : Namespace) (now_pulls now_issues : datetime) (st : St)
    : option (list string * result unit * St) :=
  match GITHUB_AUTH login token with
  | Raise e => Some ([], Raise e, st)
  | Ok auth => main fuel auth args now_pulls now_issues st
  end.

End Main.

End Program.

(** ** The vocabulary of the statements *)
Module Spec.

Import Datetime Analyzer.

(** The creation time of a record: its [created_at] read in the API's
    format, absent when the field is null or empty. *)
Definition timestamp (e : RawRecord) : option datetime :=
  match _parse_time (created_at e) "api" with
  | Ok t => t
  | Raise _ => None
  end.

(** A time is in the window when ([from] is absent or the time is at or
    after it) and ([to] is absent or the time is at or before it). *)
Definition in_window (date_from date_to : option datetime)
    (ts : option datetime) : bool :=
  match date_from with
  | None => true
  | Some f => match ts with Some t => ge t f | None => false end
  end
  &&
  match date_to with
  | None => true
  | Some u => match ts with Some t => le t u | None => false end
  end.

Definition counted (self : Analyzer) (e : RawRecord) : bool :=
  in_window (__date_from self) (__date_to self) (timestamp e).

Definition is_open (e : RawRecord) : bool := String.eqb (state e) "open".

Definition older (deadline : datetime) (e : RawRecord) : bool :=
  match timestamp e with
  | Some t => lt t deadline
  | None => false
  end.

Definition counted_open (self : Analyzer) (e : RawRecord) : bool :=
  counted self e && is_open e.

Definition counted_closed (self : Analyzer) (e : RawRecord) : bool :=
  counted self e && negb (is_open e).

Definition counted_stale (self : Analyzer) (deadline : datetime)
    (e : RawRecord) : bool :=
  counted_open self e && older deadline e.

(** A record whose [created_at] is a non-empty string that [strptime]
    reads in the API's format. *)
Definition well_dated (e : RawRecord) : Prop :=
  exists t, _parse_time (created_at e) "api" = Ok (Some t).

(** A record whose [created_at] is a non-empty string. *)
Definition dated (e : RawRecord) : Prop :=
  exists c s, created_at e = Some (String c s).

(** A record whose [created_at] is a non-empty string that [strptime]
    rejects in the API's format. *)
Definition ill_dated (e : RawRecord) : Prop :=
  exists c s, created_at e = Some (String c s)
    /\ strptime (String c s) "%Y-%m-%dT%H:%M:%SZ" = None.

(** An analyzer for the examples. *)
Definition example_analyzer (date_from date_to : option datetime) : Analyzer :=
  {| __repo_url := "https://github.com/octocat/Hello-World";
     __date_from := date_from; __date_to := date_to;
     __repo_owner := "octocat"; _repo_name := "Hello-World";
     __branch := "master"; __repo := Repository.example_repo |}.

Definition example_now : datetime := mkDatetime 2023 3 1 12 0 0 123456.

Definition record (created : option string) (st : string) : RawRecord :=
  {| created_at := created; state := st; author := None |}.

(** The text [YYYY-MM-DD] of a date and the text [YYYY-MM-DDTHH:MM:SSZ] of
    a date and time, every field padded with zeros. *)
Definition ymd_text (y m d : Z) : string :=
  pad4 y +:+ "-" +:+ pad2 m +:+ "-" +:+ pad2 d.

Definition api_text (y m d hh mm ss : Z) : string :=
  ymd_text y m d +:+ "T" +:+ pad2 hh +:+ ":" +:+ pad2 mm +:+ ":" +:+ pad2 ss
  +:+ "Z".

Definition valid_date (y m d : Z) : Prop :=
  1 <= y <= 9999 /\ 1 <= m <= 12 /\ 1 <= d <= _days_in_month y m.

Definition valid_time (hh mm ss : Z) : Prop :=
  0 <= hh <= 23 /\ 0 <= mm <= 59 /\ 0 <= ss <= 59.

(** The shapes [YYYY-MM-DD] and [YYYY-MM-DDTHH:MM:SSZ]: digits at the
    places of the letters, the other characters as written. *)
Fixpoint has_shape (shape s : string) : bool :=
  match shape, s with
  | EmptyString, EmptyString => true
  | String p shape', String c s' =>
      (if Ascii.eqb p "-" || Ascii.eqb p ":" || Ascii.eqb p "T"
          || Ascii.eqb p "Z"
       then Ascii.eqb p c else is_digit c)
      && has_shape shape' s'
  | _, _ => false
  end.

Definition ymd_shape (s : string) : bool := has_shape "YYYY-MM-DD" s.
Definition api_shape (s : string) : bool := has_shape "YYYY-MM-DDTHH:MM:SSZ" s.

(** Strings whose characters all satisfy a test. *)
Fixpoint all_chars (p : ascii -> bool) (s : string) : bool :=
  match s with
  | EmptyString => true
  | String c s' => p c && all_chars p s'
  end.

Fixpoint lower_str (s : string) : string :=
  match s with
  | EmptyString => EmptyString
  | String c s' => String (lower c) (lower_str s')
  end.

Definition not_slash (c : ascii) : bool := negb (Ascii.eqb c "/").

Definition not_slash_query (c : ascii) : bool :=
  negb (Ascii.eqb c "/") && negb (Ascii.eqb c "?").

Definition not_g (c : ascii) : bool := negb (Ascii.eqb (lower c) "g").

(** The text after the project name: nothing, or a text that starts with
    "/" or "?". *)
Definition ends_project (rest : string) : Prop :=
  rest = "" \/ exists c r, rest = String c r /\ not_slash_query c = false.

Definition is_ascii (c : ascii) : bool := (N_of_ascii c <? 128)%N.

Definition byte_is (c : ascii) (n : N) : bool := (N_of_ascii c =? n)%N.

(** A text with case ignored: every ASCII letter in lower case, and the
    characters outside ASCII that are a case of an ASCII letter read as
    that letter: U+0130 and U+0131 (bytes 196 176 and 196 177) as "i",
    U+017F (197 191) as "s", U+212A (226 132 170) as "k". *)
Fixpoint fold_ci (s : string) : string :=
  match s with
  | EmptyString => EmptyString
  | String c t =>
      match t with
      | EmptyString => String (lower c) EmptyString
      | String d u =>
          if byte_is c 196 && (byte_is d 176 || byte_is d 177)
          then String "i" (fold_ci u)
          else if byte_is c 197 && byte_is d 191
          then String "s" (fold_ci u)
          else
            match u with
            | String e v =>
                if byte_is c 226 && byte_is d 132 && byte_is e 170
                then String "k" (fold_ci v)
                else String (lower c) (fold_ci t)
            | EmptyString => String (lower c) (fold_ci t)
            end
      end
  end.

(** A URL of the shape [<pre>github.com/<owner>/<project><rest>], the host
    with case ignored. *)
Definition repo_url (url pre host owner project rest : string) : Prop :=
  url = pre +:+ host +:+ owner +:+ "/" +:+ project +:+ rest
  /\ fold_ci host = "github.com/"
  /\ owner <> "" /\ all_chars not_slash owner = true
  /\ project <> "" /\ all_chars not_slash_query project = true
  /\ ends_project rest.

(** The longest prefix of characters that satisfy a test, and the rest. *)
Fixpoint span (p : ascii -> bool) (s : string) : string * string :=
  match s with
  | String c s' =>
      if p c then let '(m, rest) := span p s' in (String c m, rest)
      else (EmptyString, s)
  | EmptyString => (EmptyString, EmptyString)
  end.

(** A prefix equal to [p] up to case, and the rest. *)
Fixpoint strip_ci (p s : string) : option (string * string) :=
  match p with
  | EmptyString => Some (EmptyString, s)
  | String a p' =>
      match Re.lit_strip true a s with
      | Some (m, s') =>
          match strip_ci p' s' with
          | Some (h, rest) => Some (m +:+ h, rest)
          | None => None
          end
      | None => None
      end
  end.

(** The match at the leftmost position at which the pattern matches. *)
Fixpoint first_match (r : Re.regex) (s : string) : option Re.match_result :=
  match Re.match_ true r s with
  | Some m => Some m
  | None =>
      match s with
      | String _ s' => first_match r s'
      | EmptyString => None
      end
  end.

(** Every character that the pattern [r] can take from a text satisfies
    [P]. *)
Fixpoint within (icase : bool) (P : ascii -> bool) (r : Re.regex) : Prop :=
  match r with
  | Re.Eps => True
  | Re.Lit p =>
      forall s m s', Re.lit_strip icase p s = Some (m, s') ->
                     all_chars P m = true
  | Re.Cls neg ranges | Re.PlusCls neg ranges =>
      forall c, Re.cls_match icase neg ranges c = true -> P c = true
  | Re.Cat r1 r2 | Re.Alt r1 r2 => within icase P r1 /\ within icase P r2
  | Re.Group _ r1 => within icase P r1
  end.

Definition not_dot (c : ascii) : bool := negb (Ascii.eqb c ".").

(** The logins of the commits that have an author, in the order of the
    commits. *)
Definition logins (commits : list RawRecord) : list string :=
  flat_map (fun c => match author c with
                     | Some a => [login a]
                     | None => []
                     end) commits.

Definition has_author (c : RawRecord) : bool :=
  match author c with
  | Some _ => true
  | None => false
  end.

Definition mem (l : string) (ls : list string) : bool :=
  existsb (String.eqb l) ls.

(** The number of occurrences of a login in a list. *)
Definition count (l : string) (ls : list string) : Z :=
  len (List.filter (String.eqb l) ls).

(** The number of commits of an author. *)
Definition count_login (l : string) (commits : list RawRecord) : Z :=
  count l (logins commits).

(** The items of a ranking with a given count. *)
Definition has_count (v : Z) (p : string * Z) : bool := snd p =? v.

(** An item comes before the items whose count is not larger. *)
Definition desc (a b : string * Z) : Prop := snd b <= snd a.

(** The elements of a list without their later repetitions: the order in
    which the elements are first met. *)
Fixpoint distinct (ls : list string) : list string :=
  match ls with
  | [] => []
  | l :: rest => l :: List.filter (fun x => negb (String.eqb x l)) (distinct rest)
  end.

(** The authors in the order of their first commit, each with the number
    of their commits. *)
Definition by_first_commit (commits : list RawRecord) : list (string * Z) :=
  map (fun l => (l, count_login l commits)) (distinct (logins commits)).

(** The sum of the counts of a ranking. *)
Definition total (ranking : list (string * Z)) : Z :=
  fold_right (fun p acc => snd p + acc) 0 ranking.

Definition commit_by (l : string) : RawRecord :=
  {| created_at := None; state := ""; author := Some {| login := l |} |}.

Definition commit_without_author : RawRecord :=
  {| created_at := None; state := ""; author := None |}.

(** The exchanges of a log that all got the status 200, the records of
    their pages, and the query error for a response. *)
Definition all_ok (log : list (Repository.request * Repository.response)) : Prop :=
  Forall (fun e => Repository.status_code (snd e) = 200) log.

Definition records (log : list (Repository.request * Repository.response))
    : list RawRecord :=
  concat (map (fun e => Repository.json (snd e)) log).

Definition query_error (e : Repository.request * Repository.response) : exn :=
  RepositoryError ("API request error: " +:+ Repository.text (snd e)).

(** The requests of a log all go to one endpoint of a client. *)
Definition sent_to (self : Repository.Repository) (endpoint : string)
    (log : list (Repository.request * Repository.response)) : Prop :=
  Forall (fun e => Repository.req_url (fst e)
                   = Repository._base_url self +:+ "/" +:+ endpoint) log.

(** The time 00:00:00. *)
Definition midnight (hh mm ss : Z) : bool := (hh =? 0) && (mm =? 0) && (ss =? 0).

(** The sum of two summaries, counter by counter. *)
Definition add_counts (a b : Z * Z * Z) : Z * Z * Z :=
  let '(o1, c1, s1) := a in
  let '(o2, c2, s2) := b in
  (o1 + o2, c1 + c2, s1 + s2).

End Spec.

(** * Properties of the repository client *)
Module RepositoryFacts.

Import Repository.

Section Run.

Context {St : Type}.
Variable http_get : St -> request -> response * St.
Variables (self : Repository) (endpoint : string).
Variables (page_size max_results : Z).

(** The shape of the exchanges of one run of the loop, from the records
    accumulated so far. *)
Inductive run : list RawRecord -> list response -> result (list RawRecord) -> Prop :=
| run_error data r :
    status_code r <> 200 ->
    run data [r] (Raise (RepositoryError ("API request error: " +:+ text r)))
| run_last data r :
    status_code r = 200 ->
    len (json r) < page_size \/ (max_results <> 0 /\ max_results <= len (data ++ json r)) ->
    run data [r] (Ok (data ++ json r))
| run_more data r rs res :
    status_code r = 200 ->
    page_size <= len (json r) ->
    max_results = 0 \/ len (data ++ json r) < max_results ->
    run (data ++ json r) rs res ->
    run data (r :: rs) res.

Lemma query_logged params st log :
  _query (logged http_get) self endpoint params (st, log)
  = let rq := {| req_url := _base_url self +:+ "/" +:+ endpoint;
                 req_headers := __headers; req_params := params;
                 req_auth := _auth self |} in
    let r := fst (http_get st rq) in
    (if negb (status_code r =? 200)
     then Raise (RepositoryError ("API request error: " +:+ text r))
     else Ok (json r),
     (snd (http_get st rq), log ++ [(rq, r)])).
Proof.
  unfold _query, logged; simpl.
  destruct (http_get st _) as [r st']; simpl.
  destruct (negb (status_code r =? 200)); reflexivity.
Qed.

Lemma pages_loop_run fuel : forall params page data st log res st' log',
  pages_loop (logged http_get) fuel self endpoint page_size max_results
    params page data (st, log) = Some (res, (st', log')) ->
  exists entries,
    log' = log ++ entries
    /\ (length entries <= fuel)%nat
    /\ map fst entries
       = map (fun i => page_request self endpoint params (page + Z.of_nat i))
           (seq 0 (length entries))
    /\ run data (map snd entries) res.
Proof.
  induction fuel as [|fuel IH]; intros params page data st log res st' log' H.
  - discriminate.
  - cbn [pages_loop] in H. rewrite query_logged in H. cbv zeta in H.
    set (rq := {| req_url := _ |}) in H.
    destruct (http_get st rq) as [r st1] eqn:Hget. cbn [fst snd] in H.
    destruct (status_code r =? 200) eqn:Hst; cbn [negb] in H.
    + apply Z.eqb_eq in Hst.
      destruct ((len (json r) <? page_size)
                || (negb (max_results =? 0) && (max_results <=? len (data ++ json r)))) eqn:Hstop.
      * injection H as <- <- <-. exists [(rq, r)].
        split; [reflexivity|]. split; [simpl; lia|].
        split; [simpl; rewrite Z.add_0_r; reflexivity|].
        apply run_last; [assumption|].
        apply orb_true_iff in Hstop as [Hs|Hs];
          [left; apply Z.ltb_lt; assumption|right].
        apply andb_true_iff in Hs as [Hs1 Hs2].
        apply negb_true_iff, Z.eqb_neq in Hs1. apply Z.leb_le in Hs2.
        split; assumption.
      * apply IH in H as (entries & -> & Hlen & Hreq & Hrun).
        exists ((rq, r) :: entries).
        apply orb_false_iff in Hstop as [Hs1 Hs2]. apply Z.ltb_ge in Hs1.
        split; [|split; [|split]].
        -- rewrite <- app_assoc. reflexivity.
        -- simpl; lia.
        -- cbn [map length seq]. rewrite Z.add_0_r. f_equal.
           rewrite Hreq, <- seq_shift, map_map.
           apply map_ext; intros i. unfold page_request. f_equal.
           ++ rewrite insert_insert_eq. f_equal. f_equal. lia.
        -- cbn [map snd]. apply run_more; [assumption | assumption | | assumption].
           apply andb_false_iff in Hs2 as [Hs2|Hs2].
           ++ left. apply negb_false_iff, Z.eqb_eq in Hs2. assumption.
           ++ right. apply Z.leb_gt; assumption.
    + apply Z.eqb_neq in Hst. injection H as <- <- <-.
      exists [(rq, r)].
      split; [reflexivity|]. split; [simpl; lia|].
      split; [simpl; rewrite Z.add_0_r; reflexivity|].
      apply run_error; assumption.
Qed.

(** The log does not change the fetch: forgetting it gives the run against
    the endpoint itself. *)
Lemma pages_loop_forget fuel : forall params page data st log,
  forget (pages_loop (logged http_get) fuel self endpoint page_size max_results
            params page data (st, log))
  = pages_loop http_get fuel self endpoint page_size max_results
      params page data st.
Proof.
  induction fuel as [|fuel IH]; intros params page data st log; [reflexivity|].
  cbn [pages_loop]. rewrite query_logged. cbv zeta. unfold _query.
  destruct (http_get st _) as [r st1]. cbn [fst snd].
  destruct (negb (status_code r =? 200)); [reflexivity|].
  destruct (_ || _); [reflexivity|]. apply IH.
Qed.

(** What a run says about its responses. *)
Lemma run_nonempty data rs res : run data rs res -> rs <> [].
Proof. destruct 1; discriminate. Qed.

Lemma run_ok data rs res out :
  run data rs res -> res = Ok out ->
  Forall (fun r => status_code r = 200) rs
  /\ out = data ++ concat (map json rs).
Proof.
  induction 1 as [data r Hr|data r Hr Hstop|data r rs res Hr Hfull Hcap Hrun IH];
    intros Hres.
  - discriminate.
  - injection Hres as <-. split; [repeat constructor; assumption|].
    simpl. rewrite app_nil_r. reflexivity.
  - destruct (IH Hres) as [Hall ->]. split; [constructor; assumption|].
    simpl. rewrite app_assoc. reflexivity.
Qed.

Lemma run_continue data rs res :
  run data rs res ->
  forall pre r post, rs = pre ++ r :: post -> post <> [] ->
    status_code r = 200
    /\ page_size <= len (json r)
    /\ (max_results = 0
        \/ len (data ++ concat (map json (pre ++ [r]))) < max_results).
Proof.
  induction 1 as [data r Hr|data r Hr Hstop|data r rs res Hr Hfull Hcap Hrun IH];
    intros pre r' post Heq Hpost.
  - destruct pre as [|? [|? ?]]; simpl in Heq; simplify_eq; congruence.
  - destruct pre as [|? [|? ?]]; simpl in Heq; simplify_eq; congruence.
  - destruct pre as [|r0 pre]; simpl in Heq; simplify_eq.
    + simpl. rewrite app_nil_r. auto.
    + destruct (IH pre r' post eq_refl Hpost) as (H1 & H2 & H3).
      split; [assumption|]. split; [assumption|].
      simpl. rewrite app_assoc. assumption.
Qed.

Lemma run_stop data rs res out :
  run data rs res -> res = Ok out ->
  forall pre r, rs = pre ++ [r] ->
    len (json r) < page_size \/ (max_results <> 0 /\ max_results <= len out).
Proof.
  induction 1 as [data r Hr|data r Hr Hstop|data r rs res Hr Hfull Hcap Hrun IH];
    intros Hres pre r' Heq.
  - discriminate.
  - injection Hres as <-.
    destruct pre as [|? [|? ?]]; simpl in Heq; simplify_eq. assumption.
  - destruct pre as [|r0 pre]; simpl in Heq.
    + simplify_eq. apply run_nonempty in Hrun. congruence.
    + simplify_eq. eapply IH; eauto.
Qed.

Lemma run_error_last data rs res :
  run data rs res ->
  forall r, In r rs -> status_code r <> 200 ->
    res = Raise (RepositoryError ("API request error: " +:+ text r))
    /\ exists pre, rs = pre ++ [r].
Proof.
  induction 1 as [data r Hr|data r Hr Hstop|data r rs res Hr Hfull Hcap Hrun IH];
    intros r' Hin Hne.
  - destruct Hin as [<-|[]]. split; [reflexivity|]. exists []. reflexivity.
  - destruct Hin as [<-|[]]. contradiction.
  - destruct Hin as [<-|Hin]; [contradiction|].
    destruct (IH r' Hin Hne) as [-> [pre ->]].
    split; [reflexivity|]. exists (r :: pre). reflexivity.
Qed.

Lemma run_raise data rs res e :
  run data rs res -> res = Raise e ->
  exists pre r, rs = pre ++ [r] /\ status_code r <> 200
    /\ e = RepositoryError ("API request error: " +:+ text r).
Proof.
  induction 1 as [data r Hr|data r Hr Hstop|data r rs res Hr Hfull Hcap Hrun IH];
    intros Hres.
  - injection Hres as <-. exists [], r. auto.
  - discriminate.
  - destruct (IH Hres) as (pre & r' & -> & Hne & ->).
    exists (r :: pre), r'. auto.
Qed.

(** One iteration of the loop, by the response to its request. *)
Lemma query_page params page st :
  _query http_get self endpoint (<[ "page" := PInt page ]> params) st
  = let '(r, st1) := http_get st (page_request self endpoint params page) in
    if negb (status_code r =? 200)
    then (Raise (RepositoryError ("API request error: " +:+ text r)), st1)
    else (Ok (json r), st1).
Proof. reflexivity. Qed.

Lemma loop_error fuel params page data st r st1 :
  http_get st (page_request self endpoint params page) = (r, st1) ->
  status_code r <> 200 ->
  pages_loop http_get (S fuel) self endpoint page_size max_results
    params page data st
  = Some (Raise (RepositoryError ("API request error: " +:+ text r)), st1).
Proof.
  intros Hget Hne. cbn [pages_loop]. rewrite query_page, Hget.
  apply Z.eqb_neq in Hne. rewrite Hne. reflexivity.
Qed.

Lemma loop_last fuel params page data st r st1 :
  http_get st (page_request self endpoint params page) = (r, st1) ->
  status_code r = 200 ->
  len (json r) < page_size
  \/ (max_results <> 0 /\ max_results <= len (data ++ json r)) ->
  pages_loop http_get (S fuel) self endpoint page_size max_results
    params page data st
  = Some (Ok (data ++ json r), st1).
Proof.
  intros Hget Hok Hstop. cbn [pages_loop]. rewrite query_page, Hget.
  apply Z.eqb_eq in Hok. rewrite Hok. cbn [negb].
  replace (_ || _) with true; [reflexivity|].
  symmetry. apply orb_true_iff. destruct Hstop as [Hs|[Hs1 Hs2]].
  - left. apply Z.ltb_lt. assumption.
  - right. apply andb_true_iff. split.
    + apply negb_true_iff, Z.eqb_neq. assumption.
    + apply Z.leb_le. assumption.
Qed.

Lemma loop_more fuel params page data st r st1 :
  http_get st (page_request self endpoint params page) = (r, st1) ->
  status_code r = 200 ->
  page_size <= len (json r) ->
  max_results = 0 \/ len (data ++ json r) < max_results ->
  pages_loop http_get (S fuel) self endpoint page_size max_results
    params page data st
  = pages_loop http_get fuel self endpoint page_size max_results
      (<[ "page" := PInt page ]> params) (page + 1) (data ++ json r) st1.
Proof.
  intros Hget Hok Hfull Hcap. cbn [pages_loop]. rewrite query_page, Hget.
  apply Z.eqb_eq in Hok. rewrite Hok. cbn [negb].
  replace (_ || _) with false; [reflexivity|].
  symmetry. apply orb_false_iff. split.
  - apply Z.ltb_ge. assumption.
  - apply andb_false_iff. destruct Hcap as [Hc|Hc].
    + left. apply negb_false_iff, Z.eqb_eq. assumption.
    + right. apply Z.leb_gt. assumption.
Qed.

(** More fuel does not change the outcome of a loop that ended. *)
Lemma pages_loop_fuel fuel : forall extra params page data st x,
  pages_loop http_get fuel self endpoint page_size max_results
    params page data st = Some x ->
  pages_loop http_get (fuel + extra) self endpoint page_size max_results
    params page data st = Some x.
Proof.
  induction fuel as [|fuel IH]; intros extra params page data st x H.
  - discriminate.
  - cbn [pages_loop Nat.add] in *.
    destruct (_query http_get self endpoint _ st) as [[data_page|e] st1];
      [|assumption].
    destruct (_ || _); [assumption|]. apply IH. assumption.
Qed.

End Run.

Lemma per_page_params (params : option (gmap string pval)) (page_size : Z) :
  match params with
  | Some p =>
      if decide (p = ∅) then {[ "per_page" := PInt page_size ]}
      else <[ "per_page" := PInt page_size ]> p
  | None => {[ "per_page" := PInt page_size ]}
  end = with_per_page params page_size.
Proof.
  destruct params as [p|]; [|reflexivity]. simpl.
  destruct (decide (p = ∅)) as [->|]; [|reflexivity].
  symmetry. apply insert_empty.
Qed.

Section GetAllPages.

Context {St : Type}.
Variable http_get : St -> request -> response * St.

Lemma get_all_pages_unfold fuel self endpoint params max_results st :
  _get_all_pages http_get fuel self endpoint params max_results st
  = match pages_loop http_get fuel self endpoint (page_size_for max_results)
            max_results (with_per_page params (page_size_for max_results))
            1 [] st with
    | None => None
    | Some (Raise e, st') => Some (Raise e, st')
    | Some (Ok data, st') =>
        if negb (max_results =? 0)
        then Some (Ok (slice_to data max_results), st')
        else Some (Ok data, st')
    end.
Proof. unfold _get_all_pages. rewrite per_page_params. reflexivity. Qed.

(** The exchanges of a call of [_get_all_pages] that returned. *)
Lemma get_all_pages_run fuel self endpoint params max_results st res st' log :
  _get_all_pages (logged http_get) fuel self endpoint params max_results
    (st, []) = Some (res, (st', log)) ->
  let page_size := page_size_for max_results in
  (length log <= fuel)%nat
  /\ map fst log
     = map (fun i => page_request self endpoint
                       (with_per_page params page_size) (1 + Z.of_nat i))
         (seq 0 (length log))
  /\ exists res0,
       run page_size max_results [] (map snd log) res0
       /\ res = match res0 with
                | Ok data =>
                    Ok (if max_results =? 0 then data
                        else slice_to data max_results)
                | Raise e => Raise e
                end.
Proof.
  unfold _get_all_pages. rewrite per_page_params. cbv zeta.
  destruct (pages_loop _ _ _ _ _ _ _ _ _ _) as [[res0 [st0 log0]]|] eqn:Hloop;
    [|discriminate].
  intros H.
  apply pages_loop_run in Hloop as (entries & Hlog & Hlen & Hreq & Hrun).
  simpl in Hlog. subst log0.
  assert (res = match res0 with
                | Ok data => Ok (if max_results =? 0 then data
                                 else slice_to data max_results)
                | Raise e => Raise e
                end /\ st' = st0 /\ log = entries) as (-> & -> & ->).
  { destruct res0 as [data|e]; [|simplify_eq; auto].
    destruct (max_results =? 0); simpl in H; simplify_eq; auto. }
  split; [assumption|]. split; [assumption|]. eauto.
Qed.

Lemma get_all_pages_fuel fuel extra self endpoint params max_results st x :
  _get_all_pages http_get fuel self endpoint params max_results st = Some x ->
  _get_all_pages http_get (fuel + extra) self endpoint params max_results st
  = Some x.
Proof.
  unfold _get_all_pages. cbv zeta.
  destruct (pages_loop http_get fuel _ _ _ _ _ _ _ _) as [y|] eqn:Hloop;
    [|discriminate].
  rewrite (pages_loop_fuel _ _ _ _ _ _ extra _ _ _ _ _ Hloop). auto.
Qed.

End GetAllPages.

Lemma get_all_pages_forget {St : Type} (http_get : St -> request -> response * St)
    fuel self endpoint params max_results st :
  forget (_get_all_pages (logged http_get) fuel self endpoint params
            max_results (st, []))
  = _get_all_pages http_get fuel self endpoint params max_results st.
Proof.
  rewrite !get_all_pages_unfold.
  rewrite <- (pages_loop_forget http_get _ _ _ _ fuel _ _ _ st []).
  destruct (pages_loop (logged http_get) _ _ _ _ _ _ _ _ _)
    as [[[data|e] [st' log]]|]; cbn [forget]; [|reflexivity|reflexivity].
  destruct (negb (max_results =? 0)); reflexivity.
Qed.


(** The exchanges of a call that returned, in full. *)
Lemma get_all_pages_log :
  forall (St : Type) (http_get : St -> request -> response * St)
      fuel self endpoint params max_results st res st' log,
    _get_all_pages (logged http_get) fuel self endpoint params max_results
      (st, []) = Some (res, (st', log)) ->
    let page_size := page_size_for max_results in
    let pages := map (fun e => json (snd e)) log in
    log <> []
    /\ map fst log
       = map (fun i => page_request self endpoint
                         (with_per_page params page_size) (1 + Z.of_nat i))
           (seq 0 (length log))
    /\ (forall out, res = Ok out ->
          out = if max_results =? 0 then concat pages
                else slice_to (concat pages) max_results)
    /\ (forall pre e post, log = pre ++ e :: post -> post <> [] ->
          status_code (snd e) = 200
          /\ page_size <= len (json (snd e))
          /\ (max_results = 0
              \/ len (concat (map (fun e => json (snd e)) (pre ++ [e])))
                 < max_results))
    /\ (forall out pre e, res = Ok out -> log = pre ++ [e] ->
          len (json (snd e)) < page_size
          \/ (max_results <> 0 /\ max_results <= len (concat pages))).
Proof.
  intros St http_get fuel self endpoint params max_results st res st' log H.
    apply get_all_pages_run in H as (Hlen & Hreq & res0 & Hrun & ->).
    cbv zeta.
    assert (Hmap : map (fun e : request * response => json (snd e)) log
                   = map json (map snd log)) by (rewrite map_map; reflexivity).
    split; [intros ->; apply run_nonempty in Hrun; apply Hrun; reflexivity|].
    split; [assumption|]. split; [|split].
    + intros out Hout. destruct res0 as [data|e]; [|discriminate].
      injection Hout as <-.
      destruct (run_ok _ _ _ _ _ _ Hrun eq_refl) as [_ ->].
      rewrite Hmap. reflexivity.
    + intros pre e post -> Hpost.
      rewrite map_app in Hrun. cbn [map] in Hrun.
      edestruct (run_continue _ _ _ _ _ Hrun) as (H1 & H2 & H3);
        [reflexivity| |].
      { destruct post; [congruence|discriminate]. }
      split; [assumption|]. split; [assumption|].
      rewrite <- map_map, map_app. exact H3.
    + intros out pre e Hout ->.
      destruct res0 as [data|e0]; [|discriminate].
      rewrite map_app in Hrun. cbn [map] in Hrun.
      destruct (run_ok _ _ _ _ _ _ Hrun eq_refl) as [_ Hdata].
      destruct (run_stop _ _ _ _ _ _ Hrun eq_refl _ _ eq_refl) as [Hs|Hs];
        [left; assumption|right].
      rewrite Hmap, map_app. cbn [map]. simpl in Hdata. rewrite <- Hdata.
      assumption.
Qed.



Lemma page_size_min max_results :
  max_results <> 0 -> page_size_for max_results = Z.min __page_size max_results.
Proof.
  intros Hne. unfold page_size_for, __page_size.
  apply Z.eqb_neq in Hne. rewrite Hne. cbn [negb andb].
  destruct (max_results <? 100) eqn:Hlt.
  - apply Z.ltb_lt in Hlt. lia.
  - apply Z.ltb_ge in Hlt. lia.
Qed.

Lemma with_per_page_lookup params page_size :
  with_per_page params page_size !! "per_page" = Some (PInt page_size).
Proof.
  destruct params as [p|].
  - apply lookup_insert_eq.
  - apply lookup_singleton_eq.
Qed.

Lemma per_page_lookup self endpoint params page_size page :
  req_params (page_request self endpoint (with_per_page params page_size) page)
    !! "per_page" = Some (PInt page_size).
Proof.
  unfold page_request. cbn [req_params].
  rewrite lookup_insert_ne by discriminate.
  apply with_per_page_lookup.
Qed.

Lemma page_lookup self endpoint params page :
  req_params (page_request self endpoint params page) !! "page"
  = Some (PInt page).
Proof. apply lookup_insert_eq. Qed.

Lemma slice_to_length {A} (l : list A) (n : Z) :
  0 < n -> len (slice_to l n) = Z.min n (len l).
Proof.
  intros Hn. unfold slice_to, len.
  destruct (0 <=? n) eqn:H0; [|apply Z.leb_gt in H0; lia].
  rewrite length_firstn. lia.
Qed.

(** C4.  The paged fetch under a nonzero cap [max_results]: every request
    asks for [min(100, max_results)] records per page; a further page is
    requested only while the records accumulated are fewer than
    [max_results]; the result is the accumulated list cut by
    [data[:max_results]], which for a positive cap has [max_results] records
    as soon as that many were accumulated.  With [max_results = 150] against
    an endpoint whose pages are all full, the fetch returns 150 records
    after 2 requests. *)
Theorem capped_fetch :
  (forall (St : Type) (http_get : St -> request -> response * St)
      fuel self endpoint params max_results st res st' log,
    max_results <> 0 ->
    _get_all_pages (logged http_get) fuel self endpoint params max_results
      (st, []) = Some (res, (st', log)) ->
    let pages := map (fun e => json (snd e)) log in
    page_size_for max_results = Z.min __page_size max_results
    /\ Forall (fun e => req_params (fst e) !! "per_page"
                        = Some (PInt (Z.min __page_size max_results))) log
    /\ (forall pre e post, log = pre ++ e :: post -> post <> [] ->
          len (concat (map (fun e => json (snd e)) (pre ++ [e])))
          < max_results)
    /\ (forall out, res = Ok out ->
          out = slice_to (concat pages) max_results
          /\ (0 < max_results ->
                len out = Z.min max_results (len (concat pages))
                /\ (max_results <= len (concat pages) ->
                      len out = max_results))))
  /\ (forall fuel self endpoint params, (2 <= fuel)%nat ->
        exists data log,
          _get_all_pages (logged full_pages) fuel self endpoint params 150
            (tt, []) = Some (Ok data, (tt, log))
          /\ length data = 150%nat /\ length log = 2%nat
          /\ Forall (fun e => req_params (fst e) !! "per_page"
                              = Some (PInt 100)) log).
Proof.
  split.
  - intros St http_get fuel self endpoint params max_results st res st' log
      Hne H.
    pose proof (get_all_pages_log _ _ _ _ _ _ _ _ _ _ _ H)
      as (_ & Hreq & Hout & Hcont & _).
    cbv zeta in *. rewrite <- (page_size_min _ Hne).
    split; [reflexivity|]. split; [|split].
    + apply List.Forall_forall. intros e He.
      assert (Hin : In (fst e) (map fst log)) by (apply List.in_map; assumption).
      rewrite Hreq in Hin. apply in_map_iff in Hin as (i & <- & _).
      apply per_page_lookup.
    + intros pre e post Hlog Hpost.
      destruct (Hcont pre e post Hlog Hpost) as (_ & _ & [Hz|Hlt]);
        [contradiction|assumption].
    + intros out Hres. specialize (Hout out Hres).
      apply Z.eqb_neq in Hne. rewrite Hne in Hout.
      split; [assumption|]. intros Hpos. subst out.
      rewrite slice_to_length by assumption. split; [reflexivity|lia].
  - intros fuel self endpoint params Hfuel.
    replace fuel with (2 + (fuel - 2))%nat by lia.
    eexists; eexists. split.
    + apply get_all_pages_fuel. rewrite get_all_pages_unfold.
      erewrite loop_more;
        [|reflexivity|reflexivity|vm_compute; discriminate
         |right; reflexivity].
      erewrite loop_last;
        [|reflexivity|reflexivity
         |right; split; [discriminate|vm_compute; discriminate]].
      reflexivity.
    + split; [reflexivity|]. split; [reflexivity|].
      cbn [app snd]. constructor; [|constructor; [|constructor]]; cbn [fst].
      * apply per_page_lookup.
      * unfold page_request. cbn [req_params].
        rewrite !lookup_insert_ne by discriminate.
        exact (with_per_page_lookup params (page_size_for 150)).
Qed.

Lemma capped_fetch_witness :
  let log := [(page_request example_repo "contributors"
                 (with_per_page None 1) 1, ok_page 1)] in
  (1 <> 0
   /\ _get_all_pages (logged scripted) 1 example_repo "contributors" None 1
        ([ok_page 1], []) = Some (Ok [dummy], ([], log)))
  /\ page_size_for 1 = Z.min __page_size 1.
Proof.
  assert (H : _get_all_pages (logged scripted) 1 example_repo "contributors"
                None 1 ([ok_page 1], [])
              = Some (Ok [dummy],
                      ([], [(page_request example_repo "contributors"
                               (with_per_page None 1) 1, ok_page 1)])))
    by (vm_compute; reflexivity).
  assert (Hne : 1 <> 0) by lia.
  split; [split; [exact Hne|exact H]|].
  exact (proj1 (proj1 capped_fetch _ _ _ _ _ _ _ _ _ _ _ Hne H)).
Defined.

Section Fetch.

Context {St : Type}.
Variable http_get : St -> request -> response * St.

(** Each collection operation is a paged fetch. *)
Lemma fetch_get_all_pages self c :
  exists endpoint params max_results, forall fuel st,
    fetch http_get fuel self c st
    = _get_all_pages http_get fuel self endpoint params max_results st.
Proof. destruct c; do 3 eexists; intros; reflexivity. Qed.

End Fetch.

(** C8.  A response with a status code other than 200 ends the fetch of any
    of the four collections with the query error that carries the body of
    that response: it is the last exchange of the fetch, the records of the
    earlier pages are not returned, and a fetch that returns records saw
    only 200 responses.  The loop raises at the failing request whatever it
    had accumulated. *)
Theorem non_200_aborts_fetch :
  (forall (St : Type) (http_get : St -> request -> response * St)
      fuel self c st,
    fetch http_get fuel self c st
    = forget (fetch (logged http_get) fuel self c (st, [])))
  /\ (forall (St : Type) (http_get : St -> request -> response * St)
      fuel self c st res st' log,
    fetch (logged http_get) fuel self c (st, []) = Some (res, (st', log)) ->
    (forall e, In e log -> status_code (snd e) <> 200 ->
      res = Raise (RepositoryError ("API request error: " +:+ text (snd e)))
      /\ exists pre, log = pre ++ [e])
    /\ (forall out, res = Ok out ->
          Forall (fun e => status_code (snd e) = 200) log))
  /\ (forall (St : Type) (http_get : St -> request -> response * St)
        fuel self endpoint page_size max_results params page data st,
      let rq := page_request self endpoint params page in
      status_code (fst (http_get st rq)) <> 200 ->
      pages_loop http_get (S fuel) self endpoint page_size max_results
        params page data st
      = Some (Raise (RepositoryError
                       ("API request error: " +:+ text (fst (http_get st rq)))),
              snd (http_get st rq)))
  /\ (forall fuel self c body, (3 <= fuel)%nat ->
        (forall n a, c <> Contributors n a) ->
        exists log,
          fetch (logged scripted) fuel self c
            ([ok_page 100; ok_page 100; error_page 500 body], [])
          = Some (Raise (RepositoryError ("API request error: " +:+ body)),
                  ([], log))
          /\ length log = 3%nat).
Proof.
  split; [|split; [|split]].
  - intros St http_get fuel self c st.
    destruct c; symmetry; apply get_all_pages_forget.
  - intros St http_get fuel self c st res st' log H.
    destruct (fetch_get_all_pages (logged http_get) self c)
      as (endpoint & params & max_results & Hfetch).
    rewrite Hfetch in H.
    apply get_all_pages_run in H as (_ & _ & res0 & Hrun & ->).
    split.
    + intros e He Hne.
      destruct (run_error_last _ _ _ _ _ Hrun (snd e)) as [-> [pre Hpre]];
        [apply in_map; assumption|assumption|].
      split; [reflexivity|].
      destruct (exists_last (l := log)) as (pre' & e' & ->);
        [intros ->; destruct He|].
      rewrite map_app in Hpre. cbn [map] in Hpre.
      apply app_inj_tail in Hpre as [_ Hsnd].
      apply in_app_or in He as [He|[<-|[]]]; [|eauto].
      exfalso. apply in_split in He as (l1 & l2 & ->).
      rewrite map_app, map_app in Hrun. cbn [map] in Hrun.
      rewrite <- app_assoc in Hrun. cbn [app] in Hrun.
      edestruct (run_continue _ _ _ _ _ Hrun) as (H200 & _);
        [reflexivity| |contradiction].
      destruct (map snd l2); discriminate.
    + intros out Hout. destruct res0 as [data|e]; [|discriminate].
      destruct (run_ok _ _ _ _ _ _ Hrun eq_refl) as [Hall _].
      apply Forall_map in Hall. exact Hall.
  - intros St http_get fuel self endpoint page_size max_results params page
      data st rq Hne.
    apply loop_error; [|assumption]. subst rq.
    destruct (http_get st _); reflexivity.
  - intros fuel self c body Hfuel Hc.
    replace fuel with (3 + (fuel - 3))%nat by lia.
    destruct c as [f t|n a|s o|s o]; [|exfalso; eapply Hc; reflexivity| |];
      (eexists; split;
       [unfold fetch, get_commits, get_pull_requests, get_issues;
        apply get_all_pages_fuel; rewrite get_all_pages_unfold;
        erewrite loop_more;
          [|reflexivity|reflexivity|vm_compute; discriminate|auto];
        erewrite loop_more;
          [|reflexivity|reflexivity|vm_compute; discriminate|auto];
        erewrite loop_error; [|reflexivity|discriminate];
        reflexivity
       |reflexivity]).
Qed.

Lemma non_200_aborts_fetch_witness :
  let e := (page_request example_repo "issues"
              (with_per_page (Some (<[ "sort" := PStr "created" ]>
                                      {[ "state" := PStr "all" ]})) 100) 1,
            error_page 500 "boom") in
  fetch (logged scripted) 1 example_repo (Issues "all" "created")
    ([error_page 500 "boom"], [])
  = Some (Raise (RepositoryError "API request error: boom"), ([], [e]))
  /\ forall e', In e' [e] -> status_code (snd e') <> 200 ->
       @Raise (list RawRecord) (RepositoryError "API request error: boom")
       = Raise (RepositoryError ("API request error: " +:+ text (snd e')))
       /\ exists pre, [e] = pre ++ [e'].
Proof.
  assert (H : fetch (logged scripted) 1 example_repo (Issues "all" "created")
                ([error_page 500 "boom"], [])
              = Some (Raise (RepositoryError "API request error: boom"),
                      ([], [(page_request example_repo "issues"
                               (with_per_page
                                  (Some (<[ "sort" := PStr "created" ]>
                                           {[ "state" := PStr "all" ]})) 100) 1,
                             error_page 500 "boom")])))
    by (vm_compute; reflexivity).
  split; [exact H|].
  exact (proj1 (proj1 (proj2 non_200_aborts_fetch) _ _ _ _ _ _ _ _ _ H)).
Defined.


End RepositoryFacts.

(** * Properties of the analyzer: the summary *)
Module SummaryFacts.

Import Datetime Analyzer Spec.

Lemma len_cons {A} (x : A) (l : list A) : len (x :: l) = 1 + len l.
Proof. unfold len. cbn [length]. lia. Qed.

Ltac counters := repeat (f_equal; try lia).

Lemma len_nonneg {A} (l : list A) : 0 <= len l.
Proof. unfold len. lia. Qed.

Lemma filter_by_date_window self ts b :
  __filter_by_date self ts = Ok b ->
  b = in_window (__date_from self) (__date_to self) ts.
Proof.
  unfold __filter_by_date, in_window, py_lt, py_gt, ge, le.
  destruct (__date_from self) as [f|], (__date_to self) as [u|],
    ts as [t|]; cbn [bind]; try discriminate;
    repeat match goal with
           | |- context [lt ?a ?b] => destruct (lt a b); cbn [bind negb andb]
           | |- context [gt ?a ?b] => destruct (gt a b); cbn [bind negb andb]
           end;
    intros H; try discriminate; injection H as <-; reflexivity.
Qed.

(** The window test does not fail on a record that has a creation time. *)
Lemma filter_by_date_total self t :
  __filter_by_date self (Some t)
  = Ok (in_window (__date_from self) (__date_to self) (Some t)).
Proof.
  destruct (__filter_by_date self (Some t)) as [b|e] eqn:H.
  - apply filter_by_date_window in H. congruence.
  - unfold __filter_by_date, py_lt, py_gt in H.
    destruct (__date_from self), (__date_to self); cbn [bind] in H;
      repeat match type of H with
             | context [lt ?a ?b] => destruct (lt a b); cbn [bind] in H
             | context [gt ?a ?b] => destruct (gt a b); cbn [bind] in H
             end; discriminate.
Qed.

Lemma parse_time_dated x :
  dated x ->
  (exists t, _parse_time (created_at x) "api" = Ok (Some t))
  \/ _parse_time (created_at x) "api"
     = Raise (AnalyzerError "Incorrect date format").
Proof.
  intros (c & s & Hc). unfold _parse_time. rewrite Hc.
  destruct (strptime _ _) as [t|]; eauto.
Qed.

Lemma parse_time_ill_dated e :
  ill_dated e ->
  _parse_time (created_at e) "api"
  = Raise (AnalyzerError "Incorrect date format").
Proof.
  intros (c & s & Hc & Hs). unfold _parse_time. rewrite Hc.
  change (if ("api" =? "input")%string then _ else _)
    with "%Y-%m-%dT%H:%M:%SZ".
  rewrite Hs. reflexivity.
Qed.

Section Loop.

Variables (self : Analyzer) (deadline : datetime).

(** The counters after the loop, whenever the loop ends normally. *)
Lemma summarize_loop_counts : forall elements opened closed stale r,
  summarize_loop self deadline elements opened closed stale = Ok r ->
  r = (opened + len (List.filter (counted_open self) elements),
       closed + len (List.filter (counted_closed self) elements),
       stale + len (List.filter (counted_stale self deadline) elements)).
Proof.
  induction elements as [|e rest IH]; intros opened closed stale r H.
  - cbn in *. injection H as <-. unfold len; cbn [length]. counters.
  - cbn [summarize_loop] in H.
    unfold counted_stale, counted_open, counted_closed, counted, older,
      is_open, timestamp in *.
    cbn [List.filter].
    destruct (_parse_time (created_at e) "api") as [created|] eqn:Hp;
      cbn [bind] in H; [|discriminate].
    destruct (__filter_by_date self created) as [keep|] eqn:Hf;
      cbn [bind] in H; [|discriminate].
    apply filter_by_date_window in Hf. subst keep.
    destruct (in_window _ _ created); cbn [negb andb] in *.
    + destruct (String.eqb (state e) "open"); cbn [negb andb] in *.
      * destruct created as [t|]; cbn [py_lt bind] in H; [|discriminate].
        destruct (lt t deadline); apply IH in H; subst r;
          rewrite ?len_cons; counters.
      * apply IH in H; subst r; rewrite ?len_cons; counters.
    + apply IH in H. exact H.
Qed.

(** Records outside the window can be dropped without changing the
    summary. *)
Lemma summarize_loop_filter : forall elements opened closed stale r,
  summarize_loop self deadline elements opened closed stale = Ok r ->
  summarize_loop self deadline (List.filter (counted self) elements)
    opened closed stale = Ok r.
Proof.
  induction elements as [|e rest IH]; intros opened closed stale r H.
  - exact H.
  - cbn [summarize_loop List.filter] in *. unfold counted, timestamp in *.
    destruct (_parse_time (created_at e) "api") as [created|] eqn:Hp;
      cbn [bind] in H; [|discriminate].
    destruct (__filter_by_date self created) as [keep|] eqn:Hf;
      cbn [bind] in H; [|discriminate].
    pose proof (filter_by_date_window _ _ _ Hf) as Hk. rewrite <- Hk.
    destruct keep; cbn [negb] in H.
    + cbn [summarize_loop]. rewrite Hp. cbn [bind]. rewrite Hf. cbn [bind negb].
      destruct (String.eqb (state e) "open").
      * destruct (py_lt created deadline) as [old|]; cbn [bind] in *;
          [|discriminate].
        destruct old; apply IH; exact H.
      * apply IH; exact H.
    + apply IH; exact H.
Qed.

(** The loop ends normally when every record has a well-formed creation
    time. *)
Lemma summarize_loop_total : forall elements opened closed stale,
  Forall well_dated elements ->
  exists r, summarize_loop self deadline elements opened closed stale = Ok r.
Proof.
  induction elements as [|e rest IH]; intros opened closed stale Hall.
  - eexists; reflexivity.
  - apply Forall_cons_1 in Hall as [[t Ht] Hrest].
    cbn [summarize_loop]. rewrite Ht. cbn [bind].
    rewrite filter_by_date_total. cbn [bind].
    destruct (in_window _ _ _); cbn [negb]; [|apply IH; assumption].
    destruct (String.eqb (state e) "open"); [|apply IH; assumption].
    cbn [py_lt bind]. destruct (lt t deadline); apply IH; assumption.
Qed.

(** No summary is returned from a list with an ill-dated record. *)
Lemma summarize_loop_ill_dated e post : forall pre opened closed stale r,
  ill_dated e ->
  summarize_loop self deadline (pre ++ e :: post) opened closed stale <> Ok r.
Proof.
  induction pre as [|x pre IH]; intros opened closed stale r He H.
  - cbn [app summarize_loop] in H.
    rewrite (parse_time_ill_dated _ He) in H. discriminate.
  - cbn [app summarize_loop] in H.
    destruct (_parse_time (created_at x) "api") as [created|];
      cbn [bind] in H; [|discriminate].
    destruct (__filter_by_date self created) as [keep|];
      cbn [bind] in H; [|discriminate].
    destruct keep; cbn [negb] in H; [|eapply IH; eauto].
    destruct (String.eqb (state x) "open"); [|eapply IH; eauto].
    destruct (py_lt created deadline) as [old|]; cbn [bind] in H;
      [|discriminate].
    destruct old; eapply IH; eauto.
Qed.

(** The input error reaches the caller when the records before the
    ill-dated one have a non-empty [created_at]. *)
Lemma summarize_loop_input_error e post : forall pre opened closed stale,
  ill_dated e -> Forall dated pre ->
  summarize_loop self deadline (pre ++ e :: post) opened closed stale
  = Raise (AnalyzerError "Incorrect date format").
Proof.
  induction pre as [|x pre IH]; intros opened closed stale He Hpre.
  - cbn [app summarize_loop]. rewrite (parse_time_ill_dated _ He). reflexivity.
  - apply Forall_cons_1 in Hpre as [Hx Hpre].
    cbn [app summarize_loop].
    destruct (parse_time_dated _ Hx) as [[t Ht]|Ht]; rewrite Ht; cbn [bind];
      [|reflexivity].
    rewrite filter_by_date_total. cbn [bind].
    destruct (in_window _ _ _); cbn [negb]; [|apply IH; assumption].
    destruct (String.eqb (state x) "open"); [|apply IH; assumption].
    cbn [py_lt bind]. destruct (lt t deadline); apply IH; assumption.
Qed.

End Loop.

Lemma cmp_fields_refl l : cmp_fields l l = Eq.
Proof.
  induction l as [|x l IH]; [reflexivity|].
  cbn [cmp_fields]. rewrite Z.compare_refl. exact IH.
Qed.

(** The bounds of the window are in the window. *)
Lemma in_window_bounds t : in_window (Some t) (Some t) (Some t) = true.
Proof.
  unfold in_window, ge, le, lt, gt, cmp. rewrite cmp_fields_refl. reflexivity.
Qed.

Lemma filter_partition self elements :
  len (List.filter (counted self) elements)
  = len (List.filter (counted_open self) elements)
    + len (List.filter (counted_closed self) elements).
Proof.
  induction elements as [|e rest IH]; [reflexivity|].
  unfold counted_open, counted_closed in *. cbn [List.filter].
  destruct (counted self e), (is_open e); cbn [andb negb];
    rewrite ?len_cons; lia.
Qed.

Lemma filter_sub {A} (p q : A -> bool) (l : list A) :
  (forall x, p x = true -> q x = true) ->
  len (List.filter p l) <= len (List.filter q l).
Proof.
  intros Hpq. induction l as [|x l IH]; [reflexivity|].
  cbn [List.filter]. destruct (p x) eqn:Hp.
  - rewrite (Hpq _ Hp), !len_cons. lia.
  - destruct (q x); rewrite ?len_cons; lia.
Qed.

Lemma summarize_counts self now elements stale_days opened closed stale :
  _summarize self now elements stale_days = Ok (opened, closed, stale) ->
  exists deadline,
    sub_days now stale_days = Ok deadline
    /\ opened = len (List.filter (counted_open self) elements)
    /\ closed = len (List.filter (counted_closed self) elements)
    /\ stale = len (List.filter (counted_stale self deadline) elements).
Proof.
  unfold _summarize. destruct (sub_days now stale_days) as [deadline|];
    cbn [bind]; [|discriminate].
  intros H. apply summarize_loop_counts in H. injection H as -> -> ->.
  exists deadline. auto.
Qed.

(** C1.  When [_summarize] returns, [opened] is the number of records in
    the window whose state is "open" and [closed] the number of records in
    the window with another state; a record in the window is in exactly one
    of the two classes and a record outside is in neither, so that
    [opened + closed] is the number of records in the window, and the
    records outside the window can be removed without changing the summary.
    The bounds of the window belong to it.  [_summarize] does return when
    every [created_at] is well-formed and the deadline can be computed. *)
Theorem summarize_window :
  forall self now elements stale_days,
    (forall opened closed stale,
      _summarize self now elements stale_days = Ok (opened, closed, stale) ->
      opened = len (List.filter (counted_open self) elements)
      /\ closed = len (List.filter (counted_closed self) elements)
      /\ opened + closed = len (List.filter (counted self) elements)
      /\ _summarize self now (List.filter (counted self) elements) stale_days
         = Ok (opened, closed, stale))
    /\ (forall e,
          (counted self e = true ->
            counted_open self e = negb (counted_closed self e))
          /\ (counted self e = false ->
                counted_open self e = false /\ counted_closed self e = false))
    /\ (forall t, in_window (Some t) (Some t) (Some t) = true)
    /\ (Forall well_dated elements ->
        (exists deadline, sub_days now stale_days = Ok deadline) ->
        exists r, _summarize self now elements stale_days = Ok r).
Proof.
  intros self now elements stale_days. split; [|split; [|split]].
  - intros opened closed stale H.
    destruct (summarize_counts _ _ _ _ _ _ _ H) as (deadline & Hd & Ho & Hc & _).
    split; [assumption|]. split; [assumption|].
    split; [rewrite filter_partition; lia|].
    unfold _summarize in *. rewrite Hd in *. cbn [bind] in *.
    apply summarize_loop_filter. assumption.
  - intros e. unfold counted_open, counted_closed.
    split; intros ->; destruct (is_open e); auto.
  - exact in_window_bounds.
  - intros Hall [deadline Hd]. unfold _summarize. rewrite Hd. cbn [bind].
    apply summarize_loop_total. assumption.
Qed.

Lemma summarize_window_witness :
  let self := example_analyzer (Some (mkDatetime 2023 1 1 0 0 0 0)) None in
  let elements := [record (Some "2023-01-15T10:00:00Z") "open";
                   record (Some "2022-12-31T23:59:59Z") "open";
                   record (Some "2023-02-20T08:30:00Z") "closed"] in
  _summarize self example_now elements 30 = Ok (1, 1, 1)
  /\ 1 + 1 = len (List.filter (counted self) elements).
Proof.
  assert (H : _summarize
                (example_analyzer (Some (mkDatetime 2023 1 1 0 0 0 0)) None)
                example_now
                [record (Some "2023-01-15T10:00:00Z") "open";
                 record (Some "2022-12-31T23:59:59Z") "open";
                 record (Some "2023-02-20T08:30:00Z") "closed"] 30
              = Ok (1, 1, 1)) by (vm_compute; reflexivity).
  split; [exact H|].
  exact (proj1 (proj2 (proj2 (proj1 (summarize_window _ _ _ _) _ _ _ H)))).
Defined.

(** C2.  When [_summarize] returns, [stale] is at most [opened]: with the
    deadline [now - stale_days] computed once, before the loop, [stale] is
    the number of records that are counted in [opened] and are older than
    the deadline, so a stale record is counted as opened, has the state
    "open" and a creation time before the deadline.  The deadline is
    computed before any record is read.  The comparison with the deadline
    is not made for a record that is not open: records without a creation
    time and with another state are summarized as closed, where an open one
    raises. *)
Theorem summarize_stale :
  forall self now elements stale_days,
    (forall opened closed stale,
      _summarize self now elements stale_days = Ok (opened, closed, stale) ->
      0 <= stale <= opened
      /\ exists deadline,
           sub_days now stale_days = Ok deadline
           /\ opened = len (List.filter (counted_open self) elements)
           /\ closed = len (List.filter (counted_closed self) elements)
           /\ stale = len (List.filter (counted_stale self deadline) elements)
           /\ forall e, counted_stale self deadline e = true ->
                counted_open self e = true
                /\ counted_closed self e = false
                /\ state e = "open"
                /\ exists t, timestamp e = Some t /\ lt t deadline = true)
    /\ (forall err, sub_days now stale_days = Raise err ->
          _summarize self now elements stale_days = Raise err)
    /\ (forall deadline, sub_days now stale_days = Ok deadline ->
          __date_from self = None -> __date_to self = None ->
          Forall (fun e => created_at e = None /\ state e <> "open") elements ->
          _summarize self now elements stale_days = Ok (0, len elements, 0))
    /\ (forall deadline, sub_days now stale_days = Ok deadline ->
          __date_from self = None -> __date_to self = None ->
          _summarize self now [record None "open"] stale_days = Raise TypeError).
Proof.
  intros self now elements stale_days. split; [|split; [|split]].
  - intros opened closed stale H.
    destruct (summarize_counts _ _ _ _ _ _ _ H) as (deadline & Hd & Ho & Hc & Hs).
    split.
    + subst. split; [apply len_nonneg|]. apply filter_sub.
      unfold counted_stale. intros x Hx.
      apply andb_true_iff in Hx as [Hx _]. exact Hx.
    + exists deadline. do 4 (split; [assumption|]).
      intros e He. unfold counted_stale, counted_open, counted_closed, older in *.
      apply andb_true_iff in He as [Hopen Hold].
      apply andb_true_iff in Hopen as [Hcnt Hopen].
      rewrite Hcnt, Hopen. do 2 (split; [reflexivity|]).
      split; [apply String.eqb_eq; exact Hopen|].
      destruct (timestamp e) as [t|]; [eauto|discriminate].
  - intros err Herr. unfold _summarize. rewrite Herr. reflexivity.
  - intros deadline Hd Hfrom Hto Hall. unfold _summarize. rewrite Hd.
    cbn [bind].
    enough (Hgen : forall opened closed stale,
               summarize_loop self deadline elements opened closed stale
               = Ok (opened, closed + len elements, stale))
      by (rewrite Hgen; reflexivity).
    induction Hall as [|e rest [Hc Hst] Hrest IH]; intros opened closed stale.
    + cbn. do 3 f_equal. unfold len; cbn; lia.
    + cbn [summarize_loop]. rewrite Hc. cbn [_parse_time bind].
      unfold __filter_by_date. rewrite Hfrom, Hto. cbn [bind negb].
      apply String.eqb_neq in Hst. rewrite Hst.
      rewrite IH, len_cons. counters.
  - intros deadline Hd Hfrom Hto. unfold _summarize. rewrite Hd. cbn [bind].
    cbn [summarize_loop record created_at _parse_time bind].
    unfold __filter_by_date. rewrite Hfrom, Hto. reflexivity.
Qed.

Lemma summarize_stale_witness :
  let self := example_analyzer None None in
  let elements := [record (Some "2023-01-15T10:00:00Z") "open";
                   record (Some "2023-02-28T23:59:59Z") "open";
                   record (Some "2022-02-20T08:30:00Z") "closed"] in
  _summarize self example_now elements 30 = Ok (2, 1, 1)
  /\ 0 <= 1 <= 2.
Proof.
  assert (H : _summarize (example_analyzer None None) example_now
                [record (Some "2023-01-15T10:00:00Z") "open";
                 record (Some "2023-02-28T23:59:59Z") "open";
                 record (Some "2022-02-20T08:30:00Z") "closed"] 30
              = Ok (2, 1, 1)) by (vm_compute; reflexivity).
  split; [exact H|].
  exact (proj1 (proj1 (summarize_stale _ _ _ _) _ _ _ H)).
Defined.

(** C9, as stated, fails.  An earlier record with an empty [created_at]
    makes the summary raise [TypeError] before the ill-dated record is
    read; and a [created_at] that is not of the shape YYYY-MM-DDTHH:MM:SSZ
    but that [strptime] reads is summarized. *)
Lemma summarize_ill_dated_counterexample :
  let elements := [record (Some "") "open"; record (Some "not-a-date") "open"] in
  (ill_dated (record (Some "not-a-date") "open")
   /\ In (record (Some "not-a-date") "open") elements
   /\ _summarize (example_analyzer None None) example_now elements 30
      = Raise TypeError
   /\ _summarize (example_analyzer None None) example_now elements 30
      <> Raise (AnalyzerError "Incorrect date format"))
  /\ (api_shape "2023-1-5T1:2:3Z" = false
      /\ _summarize (example_analyzer None None) example_now
           [record (Some "2023-1-5T1:2:3Z") "open"] 30
         = Ok (1, 0, 1)).
Proof.
  cbv zeta. split; [split; [|split; [|split]]|split].
  - exists "n"%char, "ot-a-date". split; reflexivity.
  - right; left; reflexivity.
  - reflexivity.
  - discriminate.
  - reflexivity.
  - reflexivity.
Qed.

(** C9, amended.  A list with a record whose non-empty [created_at] is
    rejected by [strptime] in the API's format is never summarized; the
    input error "Incorrect date format" is what [_summarize], and with it
    the two statistics, raise when the deadline can be computed and every
    record before that one has a non-empty [created_at]. *)
Theorem summarize_ill_dated :
  forall self now pre e post,
    ill_dated e ->
    (forall stale_days r,
      _summarize self now (pre ++ e :: post) stale_days <> Ok r)
    /\ (forall stale_days,
          Forall dated pre ->
          (exists deadline, sub_days now stale_days = Ok deadline) ->
          _summarize self now (pre ++ e :: post) stale_days
          = Raise (AnalyzerError "Incorrect date format"))
    /\ (forall (St : Type) http_get fuel (st st' : St),
          Forall dated pre ->
          (exists deadline,
             sub_days now __STALE_PULL_REQUESTS_DAYS = Ok deadline) ->
          Repository.get_pull_requests http_get fuel (__repo self)
            Repository.State_ALL Repository.Sorting_CREATE st
          = Some (Ok (pre ++ e :: post), st') ->
          get_pull_requests_stat http_get fuel self now st
          = Some (Raise (AnalyzerError "Incorrect date format"), st'))
    /\ (forall (St : Type) http_get fuel (st st' : St),
          Forall dated pre ->
          (exists deadline, sub_days now __STALE_ISSUES_DAYS = Ok deadline) ->
          Repository.get_issues http_get fuel (__repo self)
            Repository.State_ALL Repository.Sorting_CREATE st
          = Some (Ok (pre ++ e :: post), st') ->
          get_issues_stat http_get fuel self now st
          = Some (Raise (AnalyzerError "Incorrect date format"), st')).
Proof.
  intros self now pre e post He.
  assert (Herr : forall stale_days,
             Forall dated pre ->
             (exists deadline, sub_days now stale_days = Ok deadline) ->
             _summarize self now (pre ++ e :: post) stale_days
             = Raise (AnalyzerError "Incorrect date format")).
  { intros stale_days Hpre [deadline Hd]. unfold _summarize. rewrite Hd.
    cbn [bind]. apply summarize_loop_input_error; assumption. }
  split; [|split; [|split]].
  - intros stale_days r. unfold _summarize.
    destruct (sub_days now stale_days) as [deadline|]; cbn [bind];
      [|discriminate].
    apply summarize_loop_ill_dated. assumption.
  - exact Herr.
  - intros St http_get fuel st st' Hpre Hd Hget.
    unfold get_pull_requests_stat. rewrite Hget, Herr by assumption.
    reflexivity.
  - intros St http_get fuel st st' Hpre Hd Hget.
    unfold get_issues_stat. rewrite Hget, Herr by assumption.
    reflexivity.
Qed.

Lemma summarize_ill_dated_witness :
  ill_dated (record (Some "2023-13-01T00:00:00Z") "closed")
  /\ _summarize (example_analyzer None None) example_now
       ([record (Some "2023-01-15T10:00:00Z") "open"]
        ++ record (Some "2023-13-01T00:00:00Z") "closed" :: []) 14
     = Raise (AnalyzerError "Incorrect date format").
Proof.
  assert (He : ill_dated (record (Some "2023-13-01T00:00:00Z") "closed")).
  { exists "2"%char, "023-13-01T00:00:00Z". split; reflexivity. }
  split; [exact He|].
  apply (proj1 (proj2 (summarize_ill_dated (example_analyzer None None)
                         example_now _ _ [] He))).
  - repeat constructor. exists "2"%char, "023-01-15T10:00:00Z". reflexivity.
  - exists (mkDatetime 2023 2 15 12 0 0 123456). reflexivity.
Defined.

End SummaryFacts.

(** * Properties of the analyzer: the ranking of the contributors *)
Module RankingFacts.

Import Analyzer Spec.
Import SummaryFacts.

(** ** The tally *)

Lemma tally_fold : forall commits rating,
  tally commits rating = fold_left incr (logins commits) rating.
Proof.
  induction commits as [|c rest IH]; intros rating; [reflexivity|].
  cbn [tally logins flat_map]. destruct (author c) as [a|]; cbn [app];
    fold (logins rest); [cbn [fold_left]|]; apply IH.
Qed.

Lemma mem_In l ls : mem l ls = true <-> In l ls.
Proof.
  unfold mem. rewrite existsb_exists. split.
  - intros (x & Hx & Heq). apply String.eqb_eq in Heq. subst. assumption.
  - intros H. exists l. split; [assumption|apply String.eqb_refl].
Qed.

Lemma distinct_In l ls : In l (distinct ls) <-> In l ls.
Proof.
  induction ls as [|a ls IH]; [reflexivity|]. cbn [distinct]. split.
  - intros [->|H]; [left; reflexivity|].
    apply List.filter_In in H as [H _]. right. apply IH. assumption.
  - intros [->|H]; [left; reflexivity|].
    destruct (String.eqb_spec l a) as [->|Hne]; [left; reflexivity|].
    right. apply List.filter_In. split; [apply IH; assumption|].
    destruct (String.eqb_spec l a); [contradiction|reflexivity].
Qed.

Lemma distinct_NoDup ls : List.NoDup (distinct ls).
Proof.
  induction ls as [|a ls IH]; [constructor|]. cbn [distinct]. constructor.
  - intros H. apply List.filter_In in H as [_ H].
    rewrite String.eqb_refl in H. discriminate.
  - apply List.NoDup_filter. assumption.
Qed.

Lemma distinct_snoc ls l :
  distinct (ls ++ [l]) = if mem l ls then distinct ls else distinct ls ++ [l].
Proof.
  induction ls as [|a ls IH]; [reflexivity|].
  cbn [app distinct mem existsb]. fold (mem l ls). rewrite IH.
  destruct (String.eqb_spec l a) as [->|Hne]; cbn [orb].
  - destruct (mem a ls); [reflexivity|].
    rewrite List.filter_app. cbn [List.filter]. rewrite String.eqb_refl.
    cbn [negb]. rewrite app_nil_r. reflexivity.
  - destruct (mem l ls); [reflexivity|].
    rewrite List.filter_app. cbn [List.filter].
    destruct (String.eqb_spec l a); [contradiction|]. reflexivity.
Qed.

Lemma count_snoc k ls l :
  count k (ls ++ [l]) = count k ls + if String.eqb k l then 1 else 0.
Proof.
  unfold count, len. rewrite List.filter_app, length_app. cbn [List.filter].
  destruct (String.eqb k l); cbn [length]; lia.
Qed.

Lemma count_not_In l ls : ~ In l ls -> count l ls = 0.
Proof.
  intros H. unfold count. induction ls as [|a ls IH]; [reflexivity|].
  cbn [List.filter]. destruct (String.eqb_spec l a) as [->|Hne].
  - exfalso. apply H. left. reflexivity.
  - apply IH. intros Hin. apply H. right. assumption.
Qed.

Lemma count_In l ls : In l ls -> 1 <= count l ls.
Proof.
  intros H. unfold count. induction ls as [|a ls IH]; [destruct H|].
  cbn [List.filter]. destruct (String.eqb_spec l a) as [->|Hne].
  - rewrite len_cons. pose proof (len_nonneg (List.filter (String.eqb a) ls)). lia.
  - destruct H as [->|H]; [contradiction|]. apply IH. assumption.
Qed.

(** Incrementing a key of a table that lists distinct keys. *)
Lemma incr_map (f : string -> Z) l : forall keys,
  List.NoDup keys ->
  incr (map (fun k => (k, f k)) keys) l
  = if mem l keys
    then map (fun k => (k, f k + if String.eqb k l then 1 else 0)) keys
    else map (fun k => (k, f k + if String.eqb k l then 1 else 0)) keys
         ++ [(l, 0 + 1)].
Proof.
  induction keys as [|k keys IH]; intros Hnd; [reflexivity|].
  apply List.NoDup_cons_iff in Hnd as [Hk Hnd].
  cbn [map incr mem existsb]. fold (mem l keys).
  rewrite (String.eqb_sym l k).
  destruct (String.eqb_spec k l) as [->|Hne]; cbn [orb].
  - f_equal. apply map_ext_in. intros x Hx.
    destruct (String.eqb_spec x l) as [->|]; [contradiction|].
    rewrite Z.add_0_r. reflexivity.
  - rewrite IH by assumption. rewrite Z.add_0_r.
    destruct (mem l keys); reflexivity.
Qed.

Lemma fold_incr ls :
  fold_left incr ls [] = map (fun l => (l, count l ls)) (distinct ls).
Proof.
  induction ls as [|l ls IH] using rev_ind; [reflexivity|].
  rewrite fold_left_app, IH. cbn [fold_left].
  rewrite incr_map by apply distinct_NoDup.
  rewrite distinct_snoc.
  assert (Hmem : mem l (distinct ls) = mem l ls).
  { destruct (mem l ls) eqn:H.
    - apply mem_In, distinct_In, mem_In. assumption.
    - destruct (mem l (distinct ls)) eqn:H'; [|reflexivity].
      apply (proj1 (mem_In _ _)) in H'. apply (proj1 (distinct_In _ _)) in H'.
      apply (proj2 (mem_In _ _)) in H'. congruence. }
  rewrite Hmem.
  assert (Hmap : map (fun k => (k, count k ls + if String.eqb k l then 1 else 0))
                   (distinct ls)
                 = map (fun k => (k, count k (ls ++ [l]))) (distinct ls)).
  { apply map_ext. intros k. rewrite count_snoc. reflexivity. }
  rewrite Hmap. destruct (mem l ls) eqn:H; [reflexivity|].
  rewrite map_app. cbn [map]. rewrite count_snoc, String.eqb_refl.
  rewrite count_not_In; [reflexivity|].
  intros Hin. apply mem_In in Hin. congruence.
Qed.

Lemma tally_by_first_commit commits :
  tally commits [] = by_first_commit commits.
Proof. rewrite tally_fold. apply fold_incr. Qed.

(** ** The sort *)

Lemma insert_desc_perm x l : Permutation (insert_desc x l) (x :: l).
Proof.
  induction l as [|y l IH]; [reflexivity|]. cbn [insert_desc].
  destruct (snd x <? snd y); [|reflexivity].
  rewrite IH. apply perm_swap.
Qed.

Lemma sort_desc_perm l : Permutation (sort_desc l) l.
Proof.
  induction l as [|x l IH]; [reflexivity|]. cbn [sort_desc].
  rewrite insert_desc_perm, IH. reflexivity.
Qed.

Lemma insert_desc_sorted x l :
  StronglySorted desc l -> StronglySorted desc (insert_desc x l).
Proof.
  induction 1 as [|y l Hl IH Hy]; [repeat constructor|].
  cbn [insert_desc]. destruct (snd x <? snd y) eqn:Hxy.
  - apply Z.ltb_lt in Hxy. constructor; [assumption|].
    apply List.Forall_forall. intros z Hz.
    apply (Permutation_in _ (insert_desc_perm x l)) in Hz.
    destruct Hz as [<-|Hz]; [unfold desc; lia|].
    rewrite List.Forall_forall in Hy. apply Hy. assumption.
  - apply Z.ltb_ge in Hxy. constructor; [constructor; assumption|].
    constructor; [exact Hxy|].
    apply List.Forall_forall. intros z Hz.
    rewrite List.Forall_forall in Hy. specialize (Hy z Hz).
    unfold desc in *. lia.
Qed.

Lemma sort_desc_sorted l : StronglySorted desc (sort_desc l).
Proof.
  induction l as [|x l IH]; [constructor|].
  cbn [sort_desc]. apply insert_desc_sorted. assumption.
Qed.

Lemma insert_desc_stable v x l :
  List.filter (has_count v) (insert_desc x l)
  = List.filter (has_count v) (x :: l).
Proof.
  induction l as [|y l IH]; [reflexivity|]. cbn [insert_desc].
  destruct (snd x <? snd y) eqn:Hxy; [|reflexivity].
  apply Z.ltb_lt in Hxy.
  cbn [List.filter] in *. rewrite IH. unfold has_count.
  destruct (snd x =? v) eqn:Hx, (snd y =? v) eqn:Hy; try reflexivity.
  apply Z.eqb_eq in Hx, Hy. lia.
Qed.

Lemma sort_desc_stable v l :
  List.filter (has_count v) (sort_desc l) = List.filter (has_count v) l.
Proof.
  induction l as [|x l IH]; [reflexivity|]. cbn [sort_desc].
  rewrite insert_desc_stable. cbn [List.filter]. rewrite IH. reflexivity.
Qed.

Lemma total_perm l l' : Permutation l l' -> total l = total l'.
Proof.
  unfold total.
  induction 1 as [|x l l' Hp IH|x y l|l l' l'' H1 IH1 H2 IH2];
    cbn [fold_right] in *; lia.
Qed.

Lemma total_incr l : forall rating, total (incr rating l) = total rating + 1.
Proof.
  unfold total.
  induction rating as [|[k v] rating IH]; [reflexivity|].
  cbn [incr]. destruct (String.eqb k l); cbn [fold_right snd] in *; lia.
Qed.

Lemma total_fold_incr ls : forall rating,
  total (fold_left incr ls rating) = total rating + len ls.
Proof.
  induction ls as [|l ls IH]; intros rating.
  - cbn [fold_left]. unfold len. cbn [length]. lia.
  - cbn [fold_left]. rewrite IH, total_incr, len_cons. lia.
Qed.

Lemma logins_cons c rest :
  logins (c :: rest)
  = match author c with
    | Some a => [login a]
    | None => []
    end ++ logins rest.
Proof. reflexivity. Qed.

Lemma logins_with_author commits :
  logins (List.filter has_author commits) = logins commits.
Proof.
  induction commits as [|c rest IH]; [reflexivity|].
  cbn [List.filter]. rewrite logins_cons.
  destruct (has_author c) eqn:H; unfold has_author in H;
    destruct (author c) as [a|] eqn:Ha; try discriminate.
  - rewrite logins_cons, Ha, IH. reflexivity.
  - exact IH.
Qed.

Lemma logins_len commits :
  len (logins commits) = len (List.filter has_author commits).
Proof.
  induction commits as [|c rest IH]; [reflexivity|].
  cbn [List.filter]. rewrite logins_cons. unfold has_author.
  destruct (author c); cbn [app]; rewrite ?len_cons, IH; reflexivity.
Qed.

Lemma logins_In l commits :
  In l (logins commits)
  <-> exists c, In c commits /\ author c = Some {| login := l |}.
Proof.
  unfold logins. rewrite in_flat_map. split.
  - intros (c & Hc & Hl). exists c. split; [assumption|].
    destruct (author c) as [[l']|]; [|destruct Hl].
    destruct Hl as [<-|[]]. reflexivity.
  - intros (c & Hc & Ha). exists c. split; [assumption|].
    rewrite Ha. left. reflexivity.
Qed.

Lemma rank_all commits : rank commits 0 = sort_desc (by_first_commit commits).
Proof. unfold rank. rewrite tally_by_first_commit. reflexivity. Qed.

Lemma rank_limit commits limit :
  limit <> 0 -> rank commits limit = slice_to (rank commits 0) limit.
Proof.
  intros Hne. unfold rank. apply Z.eqb_neq in Hne. rewrite Hne. reflexivity.
Qed.

(** C5.  The ranking of the contributors: the authors of the commits, each
    with the number of their commits, the commits without an author left
    out; sorted by decreasing count; authors with equal counts in the order
    of their first commit; cut by [rating[:limit]] when [limit] is not
    zero, that is, to its first [limit] pairs for a positive [limit]. *)
Theorem contributors_ranking :
  forall commits limit,
    Permutation (rank commits 0) (by_first_commit commits)
    /\ (forall l, In l (map fst (rank commits 0))
          <-> exists c, In c commits /\ author c = Some {| login := l |})
    /\ rank commits limit = rank (List.filter has_author commits) limit
    /\ StronglySorted desc (rank commits 0)
    /\ (forall v, List.filter (has_count v) (rank commits 0)
                  = List.filter (has_count v) (by_first_commit commits))
    /\ (limit <> 0 -> rank commits limit = slice_to (rank commits 0) limit)
    /\ (0 < limit ->
          rank commits limit = firstn (Z.to_nat limit) (rank commits 0))
    /\ rank [commit_by "A"; commit_by "B"; commit_by "A"; commit_by "C";
             commit_by "B"; commit_by "A"] 0
       = [("A", 3); ("B", 2); ("C", 1)]
    /\ rank [commit_without_author; commit_by "A"] 0 = [("A", 1)]
    /\ (forall (St : Type) http_get fuel self (st st' : St),
          Repository.get_commits http_get fuel (__repo self)
            (option_map (fun t => Datetime.isoformat t +:+ "Z") (__date_from self))
            (option_map (fun t => Datetime.isoformat t +:+ "Z") (__date_to self))
            st = Some (Ok commits, st') ->
          get_contributors http_get fuel self limit st
          = Some (Ok (rank commits limit), st')).
Proof.
  intros commits limit.
  split; [rewrite rank_all; apply sort_desc_perm|].
  split.
  { intros l. rewrite rank_all.
    assert (Hk : map fst (by_first_commit commits) = distinct (logins commits)).
    { unfold by_first_commit. rewrite map_map. apply map_id. }
    split; intros H.
    - apply (proj1 (logins_In _ _)), (proj1 (distinct_In _ _)).
      rewrite <- Hk. eapply Permutation_in; [|exact H].
      apply Permutation_map, sort_desc_perm.
    - apply (proj2 (logins_In _ _)), (proj2 (distinct_In _ _)) in H.
      rewrite <- Hk in H. eapply Permutation_in; [|exact H].
      apply Permutation_map, Permutation_sym, sort_desc_perm. }
  split.
  { unfold rank. rewrite !tally_fold, logins_with_author. reflexivity. }
  split; [rewrite rank_all; apply sort_desc_sorted|].
  split; [intros v; rewrite rank_all; apply sort_desc_stable|].
  split; [apply rank_limit|].
  split.
  { intros Hpos. rewrite rank_limit by lia. unfold slice_to.
    destruct (0 <=? limit) eqn:H0; [reflexivity|]. apply Z.leb_gt in H0. lia. }
  split; [reflexivity|]. split; [reflexivity|].
  intros St http_get fuel self st st' Hget.
  unfold get_contributors. rewrite Hget. reflexivity.
Qed.

Lemma contributors_ranking_witness :
  3 <> 0
  /\ rank [commit_by "B"; commit_by "A"; commit_by "A"; commit_by "B";
           commit_by "C"; commit_by "D"] 3
     = slice_to [("B", 2); ("A", 2); ("C", 1); ("D", 1)] 3.
Proof.
  assert (Hne : 3 <> 0) by lia.
  split; [exact Hne|].
  exact (proj1 (proj2 (proj2 (proj2 (proj2 (proj2
    (contributors_ranking
       [commit_by "B"; commit_by "A"; commit_by "A"; commit_by "B";
        commit_by "C"; commit_by "D"] 3)))))) Hne).
Defined.

(** C10.  In the full ranking every login occurs once, every count is at
    least one, and the counts add up to the number of commits that have an
    author. *)
Theorem contributors_ranking_invariants :
  forall commits,
    List.NoDup (map fst (rank commits 0))
    /\ Forall (fun p => 1 <= snd p) (rank commits 0)
    /\ total (rank commits 0) = len (List.filter has_author commits).
Proof.
  intros commits. rewrite rank_all.
  pose proof (sort_desc_perm (by_first_commit commits)) as Hperm.
  assert (Hk : map fst (by_first_commit commits) = distinct (logins commits)).
  { unfold by_first_commit. rewrite map_map. apply map_id. }
  split; [|split].
  - eapply Permutation_NoDup.
    + apply Permutation_map, Permutation_sym, Hperm.
    + rewrite Hk. apply distinct_NoDup.
  - eapply Permutation_Forall; [apply Permutation_sym, Hperm|].
    unfold by_first_commit. apply List.Forall_forall. intros p Hp.
    apply in_map_iff in Hp as (l & <- & Hl). cbn [snd].
    apply count_In, distinct_In. assumption.
  - rewrite (total_perm _ _ Hperm), <- tally_by_first_commit, tally_fold.
    rewrite total_fold_incr, logins_len. reflexivity.
Qed.

End RankingFacts.

(** * Properties of the analyzer: the URL of the repository *)
Module UrlFacts.

Import Re Analyzer Spec.

#[local] Arguments String.append _ _ : simpl nomatch.

Lemma findall_first r : forall s,
  hd_error (findall true r s) = first_match r s.
Proof.
  unfold findall. induction s as [|c s IH]; cbn [findall_from first_match].
  - destruct (match_ true r ""); reflexivity.
  - destruct (match_ true r (String c s)); [reflexivity|]. exact IH.
Qed.

Lemma first_match_suffix r : forall s m,
  first_match r s = Some m ->
  exists pre s', s = pre +:+ s' /\ match_ true r s' = Some m.
Proof.
  induction s as [|c s IH]; intros m H; cbn [first_match] in H.
  - destruct (match_ true r "") eqn:Hm; [|discriminate].
    injection H as ->. exists "", "". auto.
  - destruct (match_ true r (String c s)) eqn:Hm.
    + injection H as ->. exists "", (String c s). auto.
    + destruct (IH _ H) as (pre & s' & -> & Hs').
      exists (String c pre), s'. auto.
Qed.

Lemma first_match_skip r pre s :
  (forall c t, match_ true r (String c t) = None \/ not_g c = false) ->
  all_chars not_g pre = true ->
  first_match r (pre +:+ s) = first_match r s.
Proof.
  intros Hr. induction pre as [|c pre IH]; intros Hpre; [reflexivity|].
  cbn [all_chars] in Hpre. apply andb_true_iff in Hpre as [Hc Hpre].
  cbn [String.append first_match].
  destruct (Hr c (pre +:+ s)) as [->|Hg]; [|congruence].
  apply IH. assumption.
Qed.

(** ** The pieces of the pattern *)

Lemma rmatch_lits {T} p : forall s g (k : string -> string -> groups -> option T),
  rmatch true (lits p) s g k
  = match strip_ci p s with
    | Some (h, rest) => k h rest g
    | None => None
    end.
Proof.
  induction p as [|a p IH]; intros s g k; [reflexivity|].
  cbn [lits rmatch strip_ci].
  destruct (lit_strip true a s) as [[m s']|]; [|reflexivity].
  rewrite IH. destruct (strip_ci p s') as [[h rest]|]; reflexivity.
Qed.

Lemma span_empty p s : fst (span p s) = "" -> snd (span p s) = s.
Proof.
  destruct s as [|c s]; [reflexivity|]. cbn [span].
  destruct (p c); [|reflexivity]. destruct (span p s). discriminate.
Qed.

(** Greedy repetition before a continuation that fails on the characters
    of the class cannot give back what it took. *)
Lemma plus_cls_committed {T} p : forall s (k : string -> string -> option T),
  (forall m c r, p c = true -> k m (String c r) = None) ->
  plus_cls p s k
  = match span p s with
    | (EmptyString, _) => None
    | (m, rest) => k m rest
    end.
Proof.
  induction s as [|c s IH]; intros k Hk; [reflexivity|].
  cbn [plus_cls span]. destruct (p c) eqn:Hc; [|reflexivity].
  rewrite IH by (intros; apply Hk; assumption).
  destruct (span p s) as [m rest] eqn:Hs. destruct m as [|c' m].
  - assert (Hrest : snd (span p s) = s) by (apply span_empty; rewrite Hs; reflexivity).
    rewrite Hs in Hrest. cbn [snd] in Hrest. subst rest. reflexivity.
  - destruct (k (String c (String c' m)) rest) eqn:Hk'; [reflexivity|].
    destruct s as [|c0 s]; [discriminate|]. cbn [span] in Hs.
    destruct (p c0) eqn:Hc0; [|discriminate].
    apply Hk. assumption.
Qed.

(** Greedy repetition before a continuation that always succeeds takes the
    longest run. *)
Lemma plus_cls_longest {T} p : forall s (k : string -> string -> option T),
  (forall m r, k m r <> None) ->
  plus_cls p s k
  = match span p s with
    | (EmptyString, _) => None
    | (m, rest) => k m rest
    end.
Proof.
  induction s as [|c s IH]; intros k Hk; [reflexivity|].
  cbn [plus_cls span]. destruct (p c) eqn:Hc; [|reflexivity].
  rewrite IH by (intros; apply Hk).
  destruct (span p s) as [m rest] eqn:Hs. destruct m as [|c' m].
  - assert (Hrest : snd (span p s) = s) by (apply span_empty; rewrite Hs; reflexivity).
    rewrite Hs in Hrest. cbn [snd] in Hrest. subst rest. reflexivity.
  - destruct (k (String c (String c' m)) rest) eqn:Hk'; [reflexivity|].
    exfalso. eapply Hk. exact Hk'.
Qed.

Lemma span_spec p : forall s m rest,
  span p s = (m, rest) ->
  s = m +:+ rest /\ all_chars p m = true
  /\ (rest = "" \/ exists c r, rest = String c r /\ p c = false).
Proof.
  induction s as [|c s IH]; intros m rest H; cbn [span] in H.
  - injection H as <- <-. auto.
  - destruct (p c) eqn:Hc.
    + destruct (span p s) as [m' rest'] eqn:Hs. injection H as <- <-.
      destruct (IH _ _ eq_refl) as (-> & Hall & Hrest).
      cbn [all_chars String.append]. rewrite Hc, Hall. auto.
    + injection H as <- <-. split; [reflexivity|]. split; [reflexivity|].
      right. eauto.
Qed.

Lemma span_app p : forall m rest,
  all_chars p m = true ->
  (rest = "" \/ exists c r, rest = String c r /\ p c = false) ->
  span p (m +:+ rest) = (m, rest).
Proof.
  induction m as [|c m IH]; intros rest Hall Hrest.
  - cbn [String.append]. destruct Hrest as [->|(c & r & -> & Hc)];
      [reflexivity|]. cbn [span]. rewrite Hc. reflexivity.
  - cbn [all_chars] in Hall. apply andb_true_iff in Hall as [Hc Hall].
    cbn [String.append span]. rewrite Hc, IH by assumption. reflexivity.
Qed.

(** ** Case in a literal *)

Lemma append_assoc (a b c : string) : (a +:+ b) +:+ c = a +:+ b +:+ c.
Proof.
  induction a as [|x a IH]; [reflexivity|].
  cbn [String.append]. rewrite IH. reflexivity.
Qed.

Lemma lower_ascii c : is_ascii (lower c) = is_ascii c.
Proof. destruct c as [[] [] [] [] [] [] [] []]; reflexivity. Qed.

Lemma lower_lower c : lower (lower c) = lower c.
Proof. destruct c as [[] [] [] [] [] [] [] []]; reflexivity. Qed.

Lemma lower_not_ascii c : is_ascii c = false -> lower c = c.
Proof. destruct c as [[] [] [] [] [] [] [] []]; try reflexivity; discriminate. Qed.

Lemma byte_is_eq c n : byte_is c n = true -> c = ascii_of_N n.
Proof.
  unfold byte_is. intros H. apply N.eqb_eq in H. rewrite <- H.
  symmetry. apply ascii_N_embedding.
Qed.

Lemma ascii_not_byte c n :
  is_ascii c = true -> (128 <= n)%N -> byte_is c n = false.
Proof.
  unfold is_ascii, byte_is. intros H Hn. apply N.ltb_lt in H.
  apply N.eqb_neq. lia.
Qed.

(** [fold_ci] on a text of two characters or more. *)
Lemma fold_ci_cons c d u :
  fold_ci (String c (String d u))
  = if byte_is c 196 && (byte_is d 176 || byte_is d 177)
    then String "i" (fold_ci u)
    else if byte_is c 197 && byte_is d 191
    then String "s" (fold_ci u)
    else
      match u with
      | String e v =>
          if byte_is c 226 && byte_is d 132 && byte_is e 170
          then String "k" (fold_ci v)
          else String (lower c) (fold_ci (String d u))
      | EmptyString => String (lower c) (fold_ci (String d u))
      end.
Proof. destruct u; reflexivity. Qed.

Lemma fold_ci_plain c t :
  is_ascii c = true -> fold_ci (String c t) = String (lower c) (fold_ci t).
Proof.
  intros Hc. destruct t as [|d u]; [reflexivity|]. rewrite fold_ci_cons.
  rewrite !(ascii_not_byte c) by (assumption || lia).
  cbn [andb]. destruct u; reflexivity.
Qed.

Lemma other_cases_letter a x :
  In x (other_cases a) ->
  (lower a = "i"%char
   /\ (x = String "196" (String "176" "") \/ x = String "196" (String "177" "")))
  \/ (lower a = "k"%char /\ x = String "226" (String "132" (String "170" "")))
  \/ (lower a = "s"%char /\ x = String "197" (String "191" "")).
Proof.
  unfold other_cases.
  destruct (Ascii.eqb (lower a) "i") eqn:Ei.
  { apply Ascii.eqb_eq in Ei. intros [<-|[<-|[]]]; auto. }
  destruct (Ascii.eqb (lower a) "k") eqn:Ek.
  { apply Ascii.eqb_eq in Ek. intros [<-|[]]; auto. }
  destruct (Ascii.eqb (lower a) "s") eqn:Es.
  { apply Ascii.eqb_eq in Es. intros [<-|[]]; auto. }
  intros [].
Qed.

Lemma fold_ci_other a x t :
  In x (other_cases a) -> fold_ci (x +:+ t) = String (lower a) (fold_ci t).
Proof.
  intros Hx.
  destruct (other_cases_letter _ _ Hx) as [[-> [->| ->]]|[[-> ->]|[-> ->]]];
    cbn [String.append]; rewrite fold_ci_cons; reflexivity.
Qed.

Lemma fold_ci_empty h : fold_ci h = "" -> h = "".
Proof.
  destruct h as [|c [|d u]]; [reflexivity|discriminate|].
  rewrite fold_ci_cons.
  repeat match goal with
         | |- context [if ?b then _ else _] => destruct b
         | |- context [match ?u with EmptyString => _ | String _ _ => _ end] =>
             destruct u
         end; discriminate.
Qed.

(** A text that reads, with case ignored, as an ASCII character followed
    by more begins with that character in one of its cases. *)
Lemma fold_ci_inv s a q :
  is_ascii a = true -> fold_ci s = String a q ->
  (exists c t, s = String c t /\ is_ascii c = true /\ lower c = a
               /\ fold_ci t = q)
  \/ (exists x t, s = x +:+ t /\ In x (other_cases a) /\ fold_ci t = q).
Proof.
  intros Ha H.
  assert (Hplain : forall c t,
            String (lower c) (fold_ci t) = String a q ->
            exists c' t', String c t = String c' t' /\ is_ascii c' = true
                          /\ lower c' = a /\ fold_ci t' = q).
  { intros c t E. injection E as E1 E2. exists c, t.
    split; [reflexivity|]. split; [|auto].
    rewrite <- (lower_ascii c), E1. exact Ha. }
  destruct s as [|c [|d u]]; [discriminate| |].
  - left. apply (Hplain c ""). exact H.
  - rewrite fold_ci_cons in H.
    destruct (byte_is c 196 && (byte_is d 176 || byte_is d 177)) eqn:E1.
    { right. injection H as <- <-.
      apply andb_true_iff in E1 as [Ec Ed]. apply byte_is_eq in Ec as ->.
      exists (String (ascii_of_N 196) (String d "")), u.
      split; [reflexivity|]. split; [|reflexivity].
      apply orb_true_iff in Ed as [Ed|Ed]; apply byte_is_eq in Ed as ->;
        [left|right; left]; reflexivity. }
    destruct (byte_is c 197 && byte_is d 191) eqn:E2.
    { right. injection H as <- <-.
      apply andb_true_iff in E2 as [Ec Ed].
      apply byte_is_eq in Ec as ->. apply byte_is_eq in Ed as ->.
      exists (String (ascii_of_N 197) (String (ascii_of_N 191) "")), u.
      split; [reflexivity|]. split; [left|]; reflexivity. }
    destruct u as [|e v]; [left; apply (Hplain c (String d "")); exact H|].
    destruct (byte_is c 226 && byte_is d 132 && byte_is e 170) eqn:E3.
    { right. injection H as <- <-.
      apply andb_true_iff in E3 as [E3 Ee].
      apply andb_true_iff in E3 as [Ec Ed].
      apply byte_is_eq in Ec as ->. apply byte_is_eq in Ed as ->.
      apply byte_is_eq in Ee as ->.
      exists (String (ascii_of_N 226)
                (String (ascii_of_N 132) (String (ascii_of_N 170) ""))), v.
      split; [reflexivity|]. split; [left|]; reflexivity. }
    left. apply (Hplain c (String d (String e v))). exact H.
Qed.

Lemma strip_prefix_spec p : forall s rest,
  strip_prefix p s = Some rest -> s = p +:+ rest.
Proof.
  induction p as [|a p IH]; intros s rest H; cbn [strip_prefix] in H.
  - injection H as ->. reflexivity.
  - destruct s as [|c s]; [discriminate|].
    destruct (Ascii.eqb a c) eqn:E; [|discriminate].
    apply Ascii.eqb_eq in E as ->. rewrite (IH _ _ H). reflexivity.
Qed.

Lemma strip_any_spec ps : forall s m rest,
  strip_any ps s = Some (m, rest) -> s = m +:+ rest /\ In m ps.
Proof.
  induction ps as [|p ps IH]; intros s m rest H; cbn [strip_any] in H;
    [discriminate|].
  destruct (strip_prefix p s) as [r|] eqn:E.
  - injection H as <- <-. apply strip_prefix_spec in E. split; [exact E|].
    left. reflexivity.
  - destruct (IH _ _ _ H) as [Hs Hin]. split; [exact Hs|]. right. exact Hin.
Qed.

(** What a literal ASCII character takes from a text under IGNORECASE. *)
Lemma lit_strip_inv a s m s' :
  is_ascii a = true -> lit_strip true a s = Some (m, s') ->
  s = m +:+ s'
  /\ ((exists c, m = String c "" /\ is_ascii c = true /\ lower c = lower a)
      \/ In m (other_cases a)).
Proof.
  intros Ha H. destruct s as [|c s]; [discriminate|].
  unfold lit_strip in H. destruct (lit_match true a c) eqn:E.
  - injection H as <- <-. split; [reflexivity|]. left. exists c.
    unfold lit_match in E. apply Ascii.eqb_eq in E.
    split; [reflexivity|]. split; [|auto].
    rewrite <- (lower_ascii c), <- E, lower_ascii. exact Ha.
  - apply strip_any_spec in H as [Hs Hin]. auto.
Qed.

Lemma lit_strip_plain a c t :
  lower c = lower a -> lit_strip true a (String c t) = Some (String c "", t).
Proof.
  intros E. unfold lit_strip, lit_match. rewrite E, Ascii.eqb_refl.
  reflexivity.
Qed.

Lemma lit_strip_other a x t :
  In x (other_cases a) -> lit_strip true a (x +:+ t) = Some (x, t).
Proof.
  intros Hx.
  destruct (other_cases_letter _ _ Hx) as [[E [->| ->]]|[[E ->]|[E ->]]];
    cbn [String.append]; unfold lit_strip, lit_match, other_cases;
    rewrite E; cbn; rewrite ?Ascii.eqb_refl; reflexivity.
Qed.

Lemma strip_ci_spec p : forall s h rest,
  all_chars is_ascii p = true ->
  strip_ci p s = Some (h, rest) -> s = h +:+ rest /\ fold_ci h = lower_str p.
Proof.
  induction p as [|a p IH]; intros s h rest Hp H; cbn [strip_ci] in H.
  - injection H as <- <-. auto.
  - cbn [all_chars] in Hp. apply andb_true_iff in Hp as [Ha Hp].
    destruct (lit_strip true a s) as [[m s']|] eqn:Hm; [|discriminate].
    destruct (strip_ci p s') as [[h' rest']|] eqn:Hs; [|discriminate].
    injection H as <- <-. destruct (IH _ _ _ Hp Hs) as [-> Hl].
    apply (lit_strip_inv _ _ _ _ Ha) in Hm as [-> Hcase].
    split; [symmetry; apply append_assoc|].
    cbn [lower_str]. rewrite <- Hl.
    destruct Hcase as [(c & -> & Hc & <-)|Hin].
    + cbn [String.append]. apply fold_ci_plain. exact Hc.
    + apply fold_ci_other. exact Hin.
Qed.

Lemma strip_ci_app p : forall h rest,
  all_chars is_ascii p = true ->
  fold_ci h = lower_str p -> strip_ci p (h +:+ rest) = Some (h, rest).
Proof.
  induction p as [|a p IH]; intros h rest Hp H.
  - cbn [lower_str] in H. apply fold_ci_empty in H as ->. reflexivity.
  - cbn [all_chars] in Hp. apply andb_true_iff in Hp as [Ha Hp].
    cbn [lower_str] in H. cbn [strip_ci].
    assert (Hla : is_ascii (lower a) = true) by (rewrite lower_ascii; exact Ha).
    destruct (fold_ci_inv _ _ _ Hla H)
      as [(c & t & -> & Hc & Hlc & Ht)|(x & t & -> & Hx & Ht)].
    + cbn [String.append]. rewrite lit_strip_plain by exact Hlc.
      rewrite (IH _ _ Hp Ht). reflexivity.
    + assert (Hx' : In x (other_cases a)).
      { unfold other_cases in *. rewrite lower_lower in Hx. exact Hx. }
      rewrite append_assoc, (lit_strip_other _ _ _ Hx'), (IH _ _ Hp Ht).
      reflexivity.
Qed.

(** A text in ASCII with case ignored is the text in lower case. *)
Lemma fold_ci_lower : forall h p,
  all_chars is_ascii p = true -> lower_str h = p -> fold_ci h = p.
Proof.
  induction h as [|c h IH]; intros p Hp H; cbn [lower_str] in H; subst p;
    [reflexivity|].
  cbn [all_chars] in Hp. apply andb_true_iff in Hp as [Hc Hp].
  rewrite lower_ascii in Hc. rewrite fold_ci_plain by exact Hc.
  rewrite (IH _ Hp eq_refl). reflexivity.
Qed.

(** The two character classes of the pattern. *)
Lemma cls_not_slash c :
  cls_match true true [("/", "/")]%char c = not_slash c.
Proof. destruct c as [[] [] [] [] [] [] [] []]; reflexivity. Qed.

Lemma cls_not_slash_query c :
  cls_match true true [("/", "/"); ("?", "?")]%char c = not_slash_query c.
Proof. destruct c as [[] [] [] [] [] [] [] []]; reflexivity. Qed.

Lemma lit_slash c s :
  lit_strip true "/" (String c s)
  = if not_slash c then None else Some (String c "", s).
Proof. destruct c as [[] [] [] [] [] [] [] []]; reflexivity. Qed.

Lemma lit_g c s :
  lit_strip true "g" (String c s)
  = if not_g c then None else Some (String c "", s).
Proof. destruct c as [[] [] [] [] [] [] [] []]; reflexivity. Qed.

Lemma span_ext p q : (forall c, p c = q c) -> forall s, span p s = span q s.
Proof.
  intros H. induction s as [|c s IH]; [reflexivity|].
  cbn [span]. rewrite H, IH. reflexivity.
Qed.

(** The pattern at a given position. *)
Lemma url_match s :
  match_ true url_pattern s
  = match strip_ci "github.com/" s with
    | None => None
    | Some (h, s1) =>
        match span not_slash s1 with
        | (EmptyString, _) => None
        | (_, EmptyString) => None
        | (o, String c s3) =>
            if not_slash c then None
            else
              match span not_slash_query s3 with
              | (EmptyString, _) => None
              | (pr, s4) =>
                  Some {| matched := h +:+ o +:+ String c "" +:+ pr;
                          remaining := s4;
                          captured := [("2", pr); ("1", o)] |}
              end
        end
    end.
Proof.
  unfold match_, url_pattern. cbn [rmatch]. rewrite rmatch_lits.
  destruct (strip_ci "github.com/" s) as [[h s1]|]; [|reflexivity].
  rewrite plus_cls_committed.
  - rewrite (span_ext _ _ cls_not_slash).
    destruct (span not_slash s1) as [o s2]. destruct o as [|co o]; [reflexivity|].
    destruct s2 as [|c s3]; [reflexivity|].
    rewrite lit_slash. destruct (not_slash c); [reflexivity|].
    rewrite plus_cls_longest by discriminate.
    rewrite (span_ext _ _ cls_not_slash_query).
    destruct (span not_slash_query s3) as [pr s4].
    destruct pr as [|cp pr]; reflexivity.
  - intros m c r Hc. rewrite cls_not_slash in Hc.
    rewrite lit_slash, Hc. reflexivity.
Qed.

Lemma parse_url_first url :
  _parse_url url
  = match first_match url_pattern url with
    | Some m => Ok (group_or_empty "1" (captured m),
                    group_or_empty "2" (captured m))
    | None => Raise (AnalyzerError "Incorrect repository URL")
    end.
Proof.
  unfold _parse_url. rewrite <- findall_first.
  destruct (findall true url_pattern url); reflexivity.
Qed.

(** A match of the pattern, read as a URL of the expected shape. *)
Lemma url_match_shape s m :
  match_ true url_pattern s = Some m ->
  exists host owner project,
    repo_url s "" host owner project (remaining m)
    /\ captured m = [("2", project); ("1", owner)].
Proof.
  rewrite url_match.
  destruct (strip_ci "github.com/" s) as [[h s1]|] eqn:Hh; [|discriminate].
  destruct (span not_slash s1) as [o s2] eqn:Ho.
  destruct o as [|co o]; [discriminate|].
  destruct s2 as [|c s3]; [discriminate|].
  destruct (not_slash c) eqn:Hc; [discriminate|].
  destruct (span not_slash_query s3) as [pr s4] eqn:Hp.
  destruct pr as [|cp pr]; [discriminate|].
  intros H. injection H as <-. cbn [remaining captured].
  apply (strip_ci_spec "github.com/" _ _ _ eq_refl) in Hh as [-> Hl].
  apply span_spec in Ho as (-> & Ho & _).
  apply span_spec in Hp as (-> & Hp & Hrest).
  assert (c = "/"%char) as ->.
  { unfold not_slash in Hc. apply negb_false_iff, Ascii.eqb_eq in Hc. exact Hc. }
  exists h, (String co o), (String cp pr).
  split; [|reflexivity].
  unfold repo_url. split; [reflexivity|]. split; [exact Hl|].
  split; [discriminate|]. split; [exact Ho|].
  split; [discriminate|]. split; [exact Hp|]. exact Hrest.
Qed.

(** A URL of the expected shape, matched where its host starts. *)
Lemma url_shape_match host owner project rest :
  fold_ci host = "github.com/" ->
  owner <> "" -> all_chars not_slash owner = true ->
  project <> "" -> all_chars not_slash_query project = true ->
  ends_project rest ->
  exists m,
    match_ true url_pattern (host +:+ owner +:+ "/" +:+ project +:+ rest)
    = Some m
    /\ captured m = [("2", project); ("1", owner)].
Proof.
  intros Hh Ho1 Ho2 Hp1 Hp2 Hrest. rewrite url_match.
  rewrite (strip_ci_app "github.com/" _ _ eq_refl Hh).
  rewrite (span_app not_slash owner) by
    (try assumption; right; do 2 eexists; split; reflexivity).
  destruct owner as [|co o]; [congruence|].
  change ("/" +:+ project +:+ rest) with (String "/" (project +:+ rest)).
  cbv iota beta. change (not_slash "/") with false. cbv iota.
  rewrite (span_app not_slash_query project) by assumption.
  destruct project as [|cp pr]; [congruence|].
  eexists. split; reflexivity.
Qed.

Lemma first_match_some r s m : forall pre,
  match_ true r s = Some m -> exists m', first_match r (pre +:+ s) = Some m'.
Proof.
  induction pre as [|c pre IH]; intros H.
  - exists m. destruct s; cbn [String.append first_match]; rewrite H; reflexivity.
  - cbn [String.append first_match].
    destruct (match_ true r (String c (pre +:+ s))); eauto.
Qed.

Lemma url_match_needs_g c t :
  match_ true url_pattern (String c t) = None \/ not_g c = false.
Proof.
  destruct (not_g c) eqn:Hg; [left|right; reflexivity].
  rewrite url_match. cbn [strip_ci]. rewrite lit_g, Hg. reflexivity.
Qed.

(** C6.  [_parse_url] returns the owner and the project of a URL of the
    shape [<pre>github.com/<owner>/<project><rest>] (the host with case
    ignored as IGNORECASE does: every letter in either case, and the "i"
    also as U+0130 or U+0131; no "g" before it, the owner without "/", the
    project without "/" and "?", then the end of the text, a "/" or a
    "?"); a URL gives a result only if it has that shape, with the owner
    and project returned, and a URL without that shape fails with
    "Incorrect repository URL". *)
Theorem parse_url_spec :
  (forall pre host owner project rest,
    all_chars not_g pre = true ->
    fold_ci host = "github.com/" ->
    owner <> "" -> all_chars not_slash owner = true ->
    project <> "" -> all_chars not_slash_query project = true ->
    ends_project rest ->
    _parse_url (pre +:+ host +:+ owner +:+ "/" +:+ project +:+ rest)
    = Ok (owner, project))
  /\ (forall url owner project,
        _parse_url url = Ok (owner, project) ->
        exists pre host rest, repo_url url pre host owner project rest)
  /\ (forall url,
        (exists pre host owner project rest,
           repo_url url pre host owner project rest) ->
        exists owner project, _parse_url url = Ok (owner, project))
  /\ (forall url,
        (~ exists pre host owner project rest,
             repo_url url pre host owner project rest) ->
        _parse_url url = Raise (AnalyzerError "Incorrect repository URL"))
  /\ _parse_url "https://github.com/octocat/Hello-World"
     = Ok ("octocat", "Hello-World")
  /\ _parse_url "https://example.com/not/github"
     = Raise (AnalyzerError "Incorrect repository URL")
  /\ _parse_url ("https://g" +:+ String "196" (String "177" "")
                 +:+ "thub.com/octocat/Hello-World")
     = Ok ("octocat", "Hello-World")
  /\ _parse_url ("https://G" +:+ String "196" (String "176" "")
                 +:+ "THUB.COM/octocat/Hello-World")
     = Ok ("octocat", "Hello-World").
Proof.
  assert (Hshape : forall url owner project,
             _parse_url url = Ok (owner, project) ->
             exists pre host rest, repo_url url pre host owner project rest).
  { intros url owner project. rewrite parse_url_first.
    destruct (first_match url_pattern url) as [m|] eqn:Hm; [|discriminate].
    apply first_match_suffix in Hm as (pre & s & -> & Hs).
    apply url_match_shape in Hs as (host & o & p & Hurl & Hcap).
    rewrite Hcap. cbn. intros H. injection H as <- <-.
    destruct Hurl as (-> & Hrest). exists pre, host, (remaining m).
    split; [reflexivity|exact Hrest]. }
  split; [|split; [exact Hshape|split; [|split; [|repeat split; reflexivity]]]].
  - intros pre host owner project rest Hpre Hh Ho1 Ho2 Hp1 Hp2 Hrest.
    rewrite parse_url_first.
    rewrite (first_match_skip _ _ _ url_match_needs_g Hpre).
    destruct (url_shape_match _ _ _ _ Hh Ho1 Ho2 Hp1 Hp2 Hrest) as (m & Hm & Hcap).
    assert (Hf : first_match url_pattern
                   (host +:+ owner +:+ "/" +:+ project +:+ rest) = Some m).
    { destruct (host +:+ owner +:+ "/" +:+ project +:+ rest);
        cbn [first_match]; rewrite Hm; reflexivity. }
    rewrite Hf, Hcap. reflexivity.
  - intros url (pre & host & owner & project & rest & -> & Hh & Ho1 & Ho2
                & Hp1 & Hp2 & Hrest).
    destruct (url_shape_match _ _ _ _ Hh Ho1 Ho2 Hp1 Hp2 Hrest) as (m & Hm & _).
    destruct (first_match_some _ _ _ pre Hm) as [m' Hm'].
    rewrite parse_url_first, Hm'. eauto.
  - intros url Hno. rewrite parse_url_first.
    destruct (first_match url_pattern url) as [m|] eqn:Hm; [|reflexivity].
    exfalso. apply Hno.
    destruct (Hshape url (group_or_empty "1" (captured m))
                (group_or_empty "2" (captured m))) as (pre & host & rest & H).
    + rewrite parse_url_first, Hm. reflexivity.
    + eauto 6.
Qed.

Lemma parse_url_spec_witness :
  _parse_url ("https://www." +:+ "GitHub.COM/" +:+ "rocq-prover" +:+ "/"
              +:+ "rocq" +:+ "?tab=readme")
  = Ok ("rocq-prover", "rocq").
Proof.
  apply (proj1 parse_url_spec "https://www." "GitHub.COM/" "rocq-prover" "rocq"
           "?tab=readme").
  - reflexivity.
  - reflexivity.
  - discriminate.
  - reflexivity.
  - discriminate.
  - reflexivity.
  - right. exists "?"%char, "tab=readme". split; reflexivity.
Defined.

End UrlFacts.

(** * Properties of the analyzer: the dates *)
Module DateFacts.

Import Re Datetime Analyzer Spec.

#[local] Arguments String.append _ _ : simpl nomatch.

(** ** Digits *)

Lemma digit_cases (x : Z) :
  In (x mod 10) [0; 1; 2; 3; 4; 5; 6; 7; 8; 9].
Proof.
  pose proof (Z.mod_pos_bound x 10 ltac:(lia)) as H. cbn [In]. lia.
Qed.

Ltac by_digit x :=
  unfold digit_char; generalize (digit_cases x); generalize (x mod 10);
  intros r Hr; cbn [In] in Hr;
  repeat (destruct Hr as [<-|Hr]; [reflexivity|]); destruct Hr.

Lemma digit_char_digit x : is_digit (digit_char x) = true.
Proof. by_digit x. Qed.

Lemma digit_char_cls x : cls_match true false [("0", "9")]%char (digit_char x) = true.
Proof. by_digit x. Qed.

Lemma digit_char_space x : is_space (digit_char x) = false.
Proof. by_digit x. Qed.

Lemma digit_char_val x : digit_val (digit_char x) = x mod 10.
Proof. by_digit x. Qed.

Lemma int_pad4 y : 0 <= y <= 9999 -> Py.int (pad4 y) = Some y.
Proof.
  intros Hy. unfold Py.int, pad4, pad2. cbn [lstrip].
  rewrite digit_char_space. cbn [digits_val].
  rewrite !digit_char_digit, !digit_char_val. f_equal.
  Z.div_mod_to_equations. lia.
Qed.

Lemma int_pad2 n : 0 <= n <= 99 -> Py.int (pad2 n) = Some n.
Proof.
  intros Hn. unfold Py.int, pad2. cbn [lstrip].
  rewrite digit_char_space. cbn [digits_val].
  rewrite !digit_char_digit, !digit_char_val. f_equal.
  Z.div_mod_to_equations. lia.
Qed.

(** ** The directives on padded fields *)

Lemma range_cases n lo hi :
  lo <= n <= hi ->
  In n (map (fun i => lo + Z.of_nat i) (seq 0 (Z.to_nat (hi - lo + 1)))).
Proof.
  intros H. apply in_map_iff. exists (Z.to_nat (n - lo)).
  split; [lia|]. apply in_seq. lia.
Qed.

Ltac by_field Hn Hk :=
  apply range_cases in Hn; vm_compute in Hn;
  repeat (destruct Hn as [<-|Hn];
          [vm_compute in Hk |- *; rewrite Hk; reflexivity|]);
  destruct Hn.

Section Fields.

Context {T : Type}.
Variables (rest : string) (g : groups).
Variable k : string -> string -> groups -> option T.
Variable t : T.

Lemma rmatch_year a b c d r :
  directive "Y" = Some r ->
  rmatch true (Group "Y" r)
    (String (digit_char a) (String (digit_char b)
      (String (digit_char c) (String (digit_char d) rest)))) g k
  = let m := String (digit_char a) (String (digit_char b)
               (String (digit_char c) (String (digit_char d) ""))) in
    k m rest (("Y", m) :: g).
Proof.
  intros Hr. injection Hr as <-. unfold digit. cbn [rmatch].
  rewrite !digit_char_cls. reflexivity.
Qed.

Lemma rmatch_month n r :
  directive "m" = Some r -> 1 <= n <= 12 ->
  k (pad2 n) rest (("m", pad2 n) :: g) = Some t ->
  rmatch true (Group "m" r)
    (String (digit_char (n / 10)) (String (digit_char n) rest)) g k = Some t.
Proof. intros Hr Hn Hk. injection Hr as <-. by_field Hn Hk. Qed.

Lemma rmatch_day n r :
  directive "d" = Some r -> 1 <= n <= 31 ->
  k (pad2 n) rest (("d", pad2 n) :: g) = Some t ->
  rmatch true (Group "d" r)
    (String (digit_char (n / 10)) (String (digit_char n) rest)) g k = Some t.
Proof. intros Hr Hn Hk. injection Hr as <-. by_field Hn Hk. Qed.

Lemma rmatch_hour n r :
  directive "H" = Some r -> 0 <= n <= 23 ->
  k (pad2 n) rest (("H", pad2 n) :: g) = Some t ->
  rmatch true (Group "H" r)
    (String (digit_char (n / 10)) (String (digit_char n) rest)) g k = Some t.
Proof. intros Hr Hn Hk. injection Hr as <-. by_field Hn Hk. Qed.

Lemma rmatch_minute n r :
  directive "M" = Some r -> 0 <= n <= 59 ->
  k (pad2 n) rest (("M", pad2 n) :: g) = Some t ->
  rmatch true (Group "M" r)
    (String (digit_char (n / 10)) (String (digit_char n) rest)) g k = Some t.
Proof. intros Hr Hn Hk. injection Hr as <-. by_field Hn Hk. Qed.

Lemma rmatch_second n r :
  directive "S" = Some r -> 0 <= n <= 59 ->
  k (pad2 n) rest (("S", pad2 n) :: g) = Some t ->
  rmatch true (Group "S" r)
    (String (digit_char (n / 10)) (String (digit_char n) rest)) g k = Some t.
Proof. intros Hr Hn Hk. injection Hr as <-. by_field Hn Hk. Qed.

End Fields.

Lemma make_valid y m d hh mm ss :
  valid_date y m d -> valid_time hh mm ss ->
  make y m d hh mm ss = Some (mkDatetime y m d hh mm ss 0).
Proof.
  intros (Hy & Hm & Hd) (Hhh & Hmm & Hss). unfold make.
  rewrite !(proj2 (Z.leb_le _ _)) by lia. reflexivity.
Qed.

Lemma days_in_month_bound y m : 1 <= m <= 12 -> _days_in_month y m <= 31.
Proof.
  intros Hm. unfold _days_in_month.
  destruct ((m =? 2) && _is_leap y); [lia|].
  apply (range_cases m 1 12) in Hm. vm_compute in Hm.
  repeat (destruct Hm as [<-|Hm]; [vm_compute; discriminate|]). destruct Hm.
Qed.

Lemma rmatch_cat {T} icase r1 r2 s g (k : string -> string -> groups -> option T) :
  rmatch icase (Cat r1 r2) s g k
  = rmatch icase r1 s g (fun m1 s1 g1 =>
      rmatch icase r2 s1 g1 (fun m2 s2 g2 => k (m1 +:+ m2) s2 g2)).
Proof. reflexivity. Qed.

Lemma rmatch_lit {T} c s g (k : string -> string -> groups -> option T) :
  rmatch true (Lit c) (String c s) g k = k (String c "") s g.
Proof.
  cbn [rmatch]. unfold lit_strip, lit_match. rewrite Ascii.eqb_refl.
  reflexivity.
Qed.

Lemma rmatch_eps {T} s g (k : string -> string -> groups -> option T) :
  rmatch true Eps s g k = k "" s g.
Proof. reflexivity. Qed.

Lemma pattern_ymd :
  exists ry rm rd,
    directive "Y" = Some ry /\ directive "m" = Some rm
    /\ directive "d" = Some rd
    /\ pattern "%Y-%m-%d"
       = Some (Cat (Group "Y" ry) (Cat (Lit "-")
              (Cat (Group "m" rm) (Cat (Lit "-")
              (Cat (Group "d" rd) Eps))))).
Proof. do 3 eexists. repeat split; reflexivity. Qed.

Lemma pattern_api :
  exists ry rm rd rH rM rS,
    directive "Y" = Some ry /\ directive "m" = Some rm
    /\ directive "d" = Some rd /\ directive "H" = Some rH
    /\ directive "M" = Some rM /\ directive "S" = Some rS
    /\ pattern "%Y-%m-%dT%H:%M:%SZ"
       = Some (Cat (Group "Y" ry) (Cat (Lit "-")
              (Cat (Group "m" rm) (Cat (Lit "-")
              (Cat (Group "d" rd) (Cat (Lit "T")
              (Cat (Group "H" rH) (Cat (Lit ":")
              (Cat (Group "M" rM) (Cat (Lit ":")
              (Cat (Group "S" rS) (Cat (Lit "Z") Eps)))))))))))).
Proof. do 6 eexists. repeat split; reflexivity. Qed.

Ltac literal := rewrite rmatch_cat, rmatch_lit; cbv beta.
Ltac padded lem H :=
  rewrite rmatch_cat; eapply lem; [eassumption|exact H|]; cbv beta.

(** The match of the pattern of ["%Y-%m-%d"] on a padded date. *)
Lemma match_ymd y m d r :
  pattern "%Y-%m-%d" = Some r ->
  1 <= m <= 12 -> 1 <= d <= 31 ->
  exists found,
    match_ true r (ymd_text y m d) = Some found
    /\ remaining found = ""
    /\ captured found = [("d", pad2 d); ("m", pad2 m); ("Y", pad4 y)].
Proof.
  intros Hr Hm Hd.
  destruct pattern_ymd as (ry & rm & rd & HrY & Hrm & Hrd & Hp).
  rewrite Hp in Hr. injection Hr as <-.
  unfold match_, ymd_text, pad4. unfold pad2 at 1 3 4.
  cbn [String.append].
  eexists. split; [|split].
  - rewrite rmatch_cat, (rmatch_year _ _ _ _ _ _ _ _ HrY). cbv zeta beta.
    literal. padded @rmatch_month Hm.
    literal. padded @rmatch_day Hd.
    rewrite rmatch_eps. reflexivity.
  - reflexivity.
  - reflexivity.
Qed.

Lemma strptime_ymd y m d :
  valid_date y m d ->
  strptime (ymd_text y m d) "%Y-%m-%d" = Some (mkDatetime y m d 0 0 0 0).
Proof.
  intros Hv. pose proof Hv as (Hy & Hm & Hd).
  pose proof (days_in_month_bound y m Hm) as Hb.
  unfold strptime.
  destruct (pattern "%Y-%m-%d") as [r|] eqn:Hr; [|discriminate].
  destruct (match_ymd y m d r Hr Hm ltac:(lia)) as (found & -> & -> & ->).
  unfold field. cbn [group String.eqb Ascii.eqb Bool.eqb].
  rewrite int_pad4, !int_pad2 by lia.
  apply make_valid; [assumption|unfold valid_time; lia].
Qed.

(** The match of the pattern of ["%Y-%m-%dT%H:%M:%SZ"] on a padded date
    and time. *)
Lemma match_api y m d hh mm ss r :
  pattern "%Y-%m-%dT%H:%M:%SZ" = Some r ->
  1 <= m <= 12 -> 1 <= d <= 31 ->
  valid_time hh mm ss ->
  exists found,
    match_ true r (api_text y m d hh mm ss) = Some found
    /\ remaining found = ""
    /\ captured found
       = [("S", pad2 ss); ("M", pad2 mm); ("H", pad2 hh);
          ("d", pad2 d); ("m", pad2 m); ("Y", pad4 y)].
Proof.
  intros Hr Hm Hd (Hhh & Hmm & Hss).
  destruct pattern_api
    as (ry & rm & rd & rH & rM & rS & HrY & Hrm & Hrd & HrH & HrM & HrS & Hp).
  rewrite Hp in Hr. injection Hr as <-.
  unfold match_, api_text, ymd_text, pad4. unfold pad2 at 1 3 4 5 6 7.
  cbn [String.append].
  eexists. split; [|split].
  - rewrite rmatch_cat, (rmatch_year _ _ _ _ _ _ _ _ HrY). cbv zeta beta.
    literal. padded @rmatch_month Hm.
    literal. padded @rmatch_day Hd.
    literal. padded @rmatch_hour Hhh.
    literal. padded @rmatch_minute Hmm.
    literal. padded @rmatch_second Hss.
    literal. rewrite rmatch_eps. reflexivity.
  - reflexivity.
  - reflexivity.
Qed.

Lemma strptime_api y m d hh mm ss :
  valid_date y m d -> valid_time hh mm ss ->
  strptime (api_text y m d hh mm ss) "%Y-%m-%dT%H:%M:%SZ"
  = Some (mkDatetime y m d hh mm ss 0).
Proof.
  intros Hv Ht. pose proof Hv as (Hy & Hm & Hd).
  pose proof Ht as (Hhh & Hmm & Hss).
  pose proof (days_in_month_bound y m Hm) as Hb.
  unfold strptime.
  destruct (pattern "%Y-%m-%dT%H:%M:%SZ") as [r|] eqn:Hr; [|discriminate].
  destruct (match_api y m d hh mm ss r Hr Hm ltac:(lia) Ht)
    as (found & -> & -> & ->).
  unfold field. cbn [group String.eqb Ascii.eqb Bool.eqb].
  rewrite int_pad4, !int_pad2 by lia.
  apply make_valid; assumption.
Qed.

Lemma ymd_text_shape y m d : ymd_shape (ymd_text y m d) = true.
Proof.
  unfold ymd_shape, ymd_text, pad4, pad2. cbn [String.append has_shape].
  rewrite !digit_char_digit. reflexivity.
Qed.

Lemma api_text_shape y m d hh mm ss :
  api_shape (api_text y m d hh mm ss) = true.
Proof.
  unfold api_shape, api_text, ymd_text, pad4, pad2.
  cbn [String.append has_shape]. rewrite !digit_char_digit. reflexivity.
Qed.

Lemma parse_time_nonempty c s source :
  _parse_time (Some (String c s)) source
  = match strptime (String c s)
            (if String.eqb source "input" then "%Y-%m-%d"
             else "%Y-%m-%dT%H:%M:%SZ") with
    | Some t => Ok (Some t)
    | None => Raise (AnalyzerError "Incorrect date format")
    end.
Proof. reflexivity. Qed.

(** C7, as stated, fails: texts that are not of the shape YYYY-MM-DD, or
    YYYY-MM-DDTHH:MM:SSZ, are accepted. *)
Lemma parse_time_counterexample :
  (ymd_shape "2023-1-5" = false
   /\ _parse_time (Some "2023-1-5") "input"
      = Ok (Some (mkDatetime 2023 1 5 0 0 0 0)))
  /\ (api_shape "2023-1-5t7:8:9z" = false
      /\ _parse_time (Some "2023-1-5t7:8:9z") "api"
         = Ok (Some (mkDatetime 2023 1 5 7 8 9 0))).
Proof. repeat split; reflexivity. Qed.

(** C7, amended.  An absent or empty text gives an absent date.  A
    non-empty text gives the date that [strptime] reads, in the format
    %Y-%m-%d for the source "input" and %Y-%m-%dT%H:%M:%SZ otherwise, and
    the input error "Incorrect date format" when [strptime] rejects it.
    Every text YYYY-MM-DD of a valid date, and every text
    YYYY-MM-DDTHH:MM:SSZ of a valid date and time, is read as that date;
    [strptime] also reads fields without their leading zero. *)
Theorem parse_time_spec :
  (forall source,
    _parse_time None source = Ok None
    /\ _parse_time (Some "") source = Ok None)
  /\ (forall c s source,
        (exists t, strptime (String c s)
                     (if String.eqb source "input" then "%Y-%m-%d"
                      else "%Y-%m-%dT%H:%M:%SZ") = Some t
                   /\ _parse_time (Some (String c s)) source = Ok (Some t))
        \/ (strptime (String c s)
              (if String.eqb source "input" then "%Y-%m-%d"
               else "%Y-%m-%dT%H:%M:%SZ") = None
            /\ _parse_time (Some (String c s)) source
               = Raise (AnalyzerError "Incorrect date format")))
  /\ (forall y m d,
        valid_date y m d ->
        ymd_shape (ymd_text y m d) = true
        /\ _parse_time (Some (ymd_text y m d)) "input"
           = Ok (Some (mkDatetime y m d 0 0 0 0)))
  /\ (forall y m d hh mm ss,
        valid_date y m d -> valid_time hh mm ss ->
        api_shape (api_text y m d hh mm ss) = true
        /\ _parse_time (Some (api_text y m d hh mm ss)) "api"
           = Ok (Some (mkDatetime y m d hh mm ss 0)))
  /\ _parse_time (Some "2023-01-15") "input"
     = Ok (Some (mkDatetime 2023 1 15 0 0 0 0))
  /\ _parse_time (Some "2023-01-15T10:00:00Z") "api"
     = Ok (Some (mkDatetime 2023 1 15 10 0 0 0))
  /\ _parse_time (Some "not-a-date") "input"
     = Raise (AnalyzerError "Incorrect date format")
  /\ _parse_time (Some "not-a-date") "api"
     = Raise (AnalyzerError "Incorrect date format")
  /\ _parse_time (Some "2023-01-15") "api"
     = Raise (AnalyzerError "Incorrect date format")
  /\ _parse_time (Some "2023-01-15T10:00:00Z") "input"
     = Raise (AnalyzerError "Incorrect date format")
  /\ _parse_time (Some "2023-02-29") "input"
     = Raise (AnalyzerError "Incorrect date format")
  /\ _parse_time (Some "2023-1-5") "input"
     = Ok (Some (mkDatetime 2023 1 5 0 0 0 0)).
Proof.
  split; [intros source; split; reflexivity|].
  split.
  { intros c s source. rewrite parse_time_nonempty.
    destruct (strptime _ _) as [t|]; [left; eauto|right; auto]. }
  split.
  { intros y m d Hv. split; [apply ymd_text_shape|].
    pose proof (strptime_ymd y m d Hv) as H.
    unfold ymd_text, pad4 in *. cbn [String.append] in *.
    rewrite parse_time_nonempty.
    change (if ("input" =? "input")%string then _ else _) with "%Y-%m-%d".
    rewrite H. reflexivity. }
  split.
  { intros y m d hh mm ss Hv Ht. split; [apply api_text_shape|].
    pose proof (strptime_api y m d hh mm ss Hv Ht) as H.
    unfold api_text, ymd_text, pad4 in *. cbn [String.append] in *.
    rewrite parse_time_nonempty.
    change (if ("api" =? "input")%string then _ else _)
      with "%Y-%m-%dT%H:%M:%SZ".
    rewrite H. reflexivity. }
  repeat split; reflexivity.
Qed.

Lemma parse_time_spec_witness :
  valid_date 2024 2 29
  /\ _parse_time (Some (ymd_text 2024 2 29)) "input"
     = Ok (Some (mkDatetime 2024 2 29 0 0 0 0)).
Proof.
  assert (Hv : valid_date 2024 2 29) by (unfold valid_date; vm_compute; intuition discriminate).
  split; [exact Hv|].
  exact (proj2 (proj1 (proj2 (proj2 parse_time_spec)) 2024 2 29 Hv)).
Defined.

End DateFacts.

(** * Further properties of the repository client *)
Module ClientFacts.

Import Repository RepositoryFacts.

Section Bounds.

Context {St : Type}.
Variable http_get : St -> request -> response * St.
Variables (self : Repository) (endpoint : string).

Lemma len_app {A} (l1 l2 : list A) : len (l1 ++ l2) = len l1 + len l2.
Proof. unfold len. rewrite length_app. lia. Qed.

Lemma len_ge0 {A} (l : list A) : 0 <= len l.
Proof. unfold len. lia. Qed.

(** Under a cap every page that does not end the loop brings the records
    accumulated closer to the cap by a page size at least, so the loop ends
    within the requests that the distance to the cap allows. *)
Lemma pages_loop_capped page_size max_results :
  0 < page_size -> max_results <> 0 ->
  forall fuel params page data st,
    (1 <= fuel)%nat ->
    max_results - len data <= page_size * Z.of_nat fuel ->
    exists x,
      pages_loop http_get fuel self endpoint page_size max_results
        params page data st = Some x.
Proof.
  intros Hps Hmax. induction fuel as [|fuel IH];
    intros params page data st Hfuel Hdist; [lia|].
  destruct (http_get st (page_request self endpoint params page))
    as [r st1] eqn:Hget.
  destruct (Z.eq_dec (status_code r) 200) as [Hok|Hne].
  - destruct (Z_lt_dec (len (json r)) page_size) as [Hshort|Hfull].
    + erewrite loop_last; eauto.
    + destruct (Z_le_dec max_results (len (data ++ json r))) as [Hcap|Hmore].
      * erewrite loop_last; eauto.
      * erewrite loop_more; [|eassumption|assumption|lia|right; lia].
        rewrite len_app in Hmore. apply IH.
        -- destruct fuel; [lia|lia].
        -- rewrite len_app. lia.
  - erewrite loop_error; eauto.
Qed.

End Bounds.

Lemma page_size_for_pos max_results :
  0 <= max_results -> 0 < page_size_for max_results.
Proof.
  intros H. unfold page_size_for, __page_size.
  destruct (negb (max_results =? 0) && (max_results <? 100)) eqn:Hc; [|lia].
  apply andb_true_iff in Hc as [Hne _].
  apply negb_true_iff, Z.eqb_neq in Hne. lia.
Qed.

Lemma get_all_pages_some {St : Type} (http_get : St -> request -> response * St)
    fuel self endpoint params max_results st x :
  pages_loop http_get fuel self endpoint (page_size_for max_results)
    max_results (with_per_page params (page_size_for max_results)) 1 [] st
  = Some x ->
  exists res st', _get_all_pages http_get fuel self endpoint params
                    max_results st = Some (res, st').
Proof.
  intros H. rewrite get_all_pages_unfold, H.
  destruct x as [[data|e] st']; [|eauto].
  destruct (negb (max_results =? 0)); eauto.
Qed.

(** X1.  With a positive cap the fetch always ends, whatever the endpoint
    answers: [fuel] requests are enough as soon as [fuel] pages of the page
    size used cover the cap, and no more requests than that are made. *)
Theorem capped_fetch_terminates :
  forall (St : Type) (http_get : St -> request -> response * St)
      fuel self endpoint params max_results st,
    0 < max_results ->
    max_results <= page_size_for max_results * Z.of_nat fuel ->
    exists res st' log,
      _get_all_pages (logged http_get) fuel self endpoint params max_results
        (st, []) = Some (res, (st', log))
      /\ _get_all_pages http_get fuel self endpoint params max_results st
         = Some (res, st')
      /\ (length log <= fuel)%nat.
Proof.
  intros St http_get fuel self endpoint params max_results st Hpos Hfuel.
  assert (Hps : 0 < page_size_for max_results) by (apply page_size_for_pos; lia).
  assert (H1 : (1 <= fuel)%nat) by (destruct fuel; [lia|lia]).
  destruct (pages_loop_capped (logged http_get) self endpoint
              (page_size_for max_results) max_results Hps ltac:(lia) fuel
              (with_per_page params (page_size_for max_results)) 1 [] (st, [])
              H1) as [x Hx].
  { change (len (@nil RawRecord)) with 0. lia. }
  destruct (get_all_pages_some _ _ _ _ _ _ _ _ Hx) as (res & [st' log] & Hrun).
  exists res, st', log. split; [exact Hrun|]. split.
  - rewrite <- get_all_pages_forget, Hrun. reflexivity.
  - apply get_all_pages_run in Hrun as (Hlen & _). exact Hlen.
Qed.

Lemma capped_fetch_terminates_witness :
  (0 < 150 /\ 150 <= page_size_for 150 * Z.of_nat 2)
  /\ exists res st' log,
       _get_all_pages (logged full_pages) 2 example_repo "contributors" None
         150 (tt, []) = Some (res, (st', log))
       /\ _get_all_pages full_pages 2 example_repo "contributors" None 150 tt
          = Some (res, st')
       /\ (length log <= 2)%nat.
Proof.
  assert (H0 : 0 < 150) by lia.
  assert (H1 : 150 <= page_size_for 150 * Z.of_nat 2) by (vm_compute; discriminate).
  split; [split; assumption|].
  exact (capped_fetch_terminates unit full_pages 2 example_repo "contributors"
           None 150 tt H0 H1).
Defined.

(** X2.  With a nonzero cap of at most one page (100) a single request is
    made, whatever the endpoint answers: the result is the query error of
    that response, or its records cut by [data[:max_results]]. *)
Theorem small_cap_single_request :
  forall (St : Type) (http_get : St -> request -> response * St)
      fuel self endpoint params max_results st,
    max_results <> 0 -> max_results <= __page_size ->
    let rq := page_request self endpoint
                (with_per_page params max_results) 1 in
    let r := fst (http_get st rq) in
    _get_all_pages http_get (S fuel) self endpoint params max_results st
    = Some (if status_code r =? 200
            then Ok (slice_to (json r) max_results)
            else Raise (RepositoryError ("API request error: " +:+ text r)),
            snd (http_get st rq)).
Proof.
  intros St http_get fuel self endpoint params max_results st Hne Hle rq r.
  assert (Hps : page_size_for max_results = max_results).
  { rewrite page_size_min by assumption. lia. }
  rewrite get_all_pages_unfold, Hps. subst rq r.
  destruct (http_get st _) as [r st1] eqn:Hget. cbn [fst snd].
  destruct (Z.eq_dec (status_code r) 200) as [Hok|Hbad].
  - erewrite loop_last; [|exact Hget|exact Hok|].
    + apply Z.eqb_eq in Hok. rewrite Hok.
      apply Z.eqb_neq in Hne. rewrite Hne. reflexivity.
    + cbn [app]. destruct (Z_lt_dec (len (json r)) max_results);
        [left; assumption|right; split; [assumption|lia]].
  - erewrite loop_error; [|exact Hget|exact Hbad].
    apply Z.eqb_neq in Hbad. rewrite Hbad. reflexivity.
Qed.

Lemma small_cap_single_request_witness :
  (30 <> 0 /\ 30 <= __page_size)
  /\ _get_all_pages full_pages 1 example_repo "contributors"
       (Some {[ "anon" := PInt 0 ]}) 30 tt
     = Some (Ok (repeat dummy 30), tt).
Proof.
  assert (H0 : 30 <> 0) by lia.
  assert (H1 : 30 <= __page_size) by (vm_compute; discriminate).
  split; [split; assumption|].
  exact (small_cap_single_request unit full_pages 0 example_repo "contributors"
           (Some {[ "anon" := PInt 0 ]}) 30 tt H0 H1).
Defined.

(** X3.  When the first page comes back empty the fetch returns the empty
    list after that one request, with or without a cap. *)
Theorem empty_page_empty_result :
  forall (St : Type) (http_get : St -> request -> response * St)
      fuel self endpoint params max_results st,
    let rq := page_request self endpoint
                (with_per_page params (page_size_for max_results)) 1 in
    status_code (fst (http_get st rq)) = 200 ->
    json (fst (http_get st rq)) = [] ->
    _get_all_pages http_get (S fuel) self endpoint params max_results st
    = Some (Ok [], snd (http_get st rq)).
Proof.
  intros St http_get fuel self endpoint params max_results st rq Hok Hempty.
  subst rq. rewrite get_all_pages_unfold.
  destruct (http_get st _) as [r st1] eqn:Hget. cbn [fst snd] in *.
  erewrite loop_last; [|exact Hget|exact Hok|].
  - rewrite Hempty. cbn [app].
    destruct (negb (max_results =? 0)); [|reflexivity].
    unfold slice_to. destruct (0 <=? max_results); rewrite firstn_nil; reflexivity.
  - rewrite Hempty. cbn [app]. change (len (@nil RawRecord)) with 0.
    destruct (Z_lt_dec max_results 0) as [Hneg|Hpos].
    + right. lia.
    + left. apply page_size_for_pos. lia.
Qed.

Lemma empty_page_empty_result_witness :
  _get_all_pages scripted 1 example_repo "issues" None 0 [ok_page 0]
  = Some (Ok [], []).
Proof.
  exact (empty_page_empty_result (list response) scripted 0 example_repo
           "issues" None 0 [ok_page 0] eq_refl eq_refl).
Defined.

End ClientFacts.

(** * What the client sends *)
Module RequestFacts.

Import Repository RepositoryFacts.

Lemma request_at {St : Type} (http_get : St -> request -> response * St)
    fuel self endpoint params max_results st res st' log i rq r :
  _get_all_pages (logged http_get) fuel self endpoint params max_results
    (st, []) = Some (res, (st', log)) ->
  nth_error log i = Some (rq, r) ->
  rq = page_request self endpoint
         (with_per_page params (page_size_for max_results)) (1 + Z.of_nat i).
Proof.
  intros Hrun Hi. apply get_all_pages_run in Hrun as (_ & Hreq & _).
  assert (Hlt : (i < length log)%nat)
    by (apply nth_error_Some; rewrite Hi; discriminate).
  apply (map_nth_error fst) in Hi. rewrite Hreq in Hi. cbn [fst] in Hi.
  erewrite map_nth_error in Hi; [|apply nth_error_nth' with (d := 0%nat);
                                  rewrite length_seq; exact Hlt].
  rewrite seq_nth in Hi by exact Hlt. cbn [Nat.add] in Hi.
  injection Hi as <-. reflexivity.
Qed.

Ltac lookups :=
  unfold page_request, with_per_page; cbn [req_params];
  repeat (rewrite lookup_insert_ne by discriminate);
  first [apply lookup_insert_eq | apply lookup_singleton_eq
        | apply lookup_singleton_ne; discriminate].

Ltac domain :=
  unfold page_request, with_per_page; cbn [req_params];
  rewrite ?dom_insert_L, ?dom_singleton_L; set_solver.

(** X4.  Every request of the client goes to
    [https://api.github.com/repos/<username>/<project>/<endpoint>] with the
    Accept header and the credentials of the client, asks for page
    1, 2, 3, ... in turn, and carries the parameters of its operation and
    no others: the commits are asked with [since] and [until] and without
    any branch, the pull requests with [base] set to the branch, the issues
    without a branch, the contributors with [anon] as 0 or 1. *)
Theorem requests_sent :
  forall (St : Type) (http_get : St -> request -> response * St)
      fuel username project branch auth c st res st' log i rq r,
    let self := __init__ username project branch auth in
    fetch (logged http_get) fuel self c (st, []) = Some (res, (st', log)) ->
    nth_error log i = Some (rq, r) ->
    req_headers rq = {[ "Accept" := "application/vnd.github.v3+json" ]}
    /\ req_auth rq = auth
    /\ req_params rq !! "page" = Some (PInt (1 + Z.of_nat i))
    /\ match c with
       | Commits date_from date_to =>
           req_url rq = "https://api.github.com/repos/" +:+ username +:+ "/"
                        +:+ project +:+ "/commits"
           /\ dom (req_params rq)
              = ({[ "since"; "until"; "per_page"; "page" ]} : gset string)
           /\ req_params rq !! "since" = Some (opt_str date_from)
           /\ req_params rq !! "until" = Some (opt_str date_to)
           /\ req_params rq !! "per_page" = Some (PInt 100)
       | Contributors count anon =>
           req_url rq = "https://api.github.com/repos/" +:+ username +:+ "/"
                        +:+ project +:+ "/contributors"
           /\ dom (req_params rq)
              = ({[ "anon"; "per_page"; "page" ]} : gset string)
           /\ req_params rq !! "anon" = Some (PInt (if anon then 1 else 0))
           /\ req_params rq !! "per_page" = Some (PInt (page_size_for count))
       | PullRequests state sort_by =>
           req_url rq = "https://api.github.com/repos/" +:+ username +:+ "/"
                        +:+ project +:+ "/pulls"
           /\ dom (req_params rq)
              = ({[ "state"; "base"; "sort"; "per_page"; "page" ]} : gset string)
           /\ req_params rq !! "state" = Some (PStr state)
           /\ req_params rq !! "base" = Some (PStr branch)
           /\ req_params rq !! "sort" = Some (PStr sort_by)
           /\ req_params rq !! "per_page" = Some (PInt 100)
       | Issues state sort_by =>
           req_url rq = "https://api.github.com/repos/" +:+ username +:+ "/"
                        +:+ project +:+ "/issues"
           /\ dom (req_params rq)
              = ({[ "state"; "sort"; "per_page"; "page" ]} : gset string)
           /\ req_params rq !! "state" = Some (PStr state)
           /\ req_params rq !! "sort" = Some (PStr sort_by)
           /\ req_params rq !! "per_page" = Some (PInt 100)
       end.
Proof.
  intros St http_get fuel username project branch auth c st res st' log i rq r
    self Hrun Hi.
  assert (Happ : forall a b c0 : string, (a +:+ b) +:+ c0 = a +:+ b +:+ c0).
  { intros a b c0. induction a as [|x a IH]; [reflexivity|].
    change (String x ((a +:+ b) +:+ c0) = String x (a +:+ b +:+ c0)).
    f_equal. exact IH. }
  destruct c as [f t|n a|s o|s o]; cbn [fetch] in Hrun;
    unfold get_commits, get_contributors, get_pull_requests, get_issues in Hrun;
    pose proof (request_at _ _ _ _ _ _ _ _ _ _ _ _ _ Hrun Hi) as ->;
    (split; [reflexivity|]); (split; [reflexivity|]);
    (split; [apply page_lookup|]);
    (split; [unfold page_request, self, __init__; cbn [req_url _base_url];
             rewrite !Happ; reflexivity|]);
    (split; [domain|]); repeat split; lookups.
Qed.

Lemma requests_sent_witness :
  let rq := page_request (__init__ "octocat" "Hello-World" "main" None) "pulls"
              (with_per_page
                 (Some (<[ "sort" := PStr "created" ]>
                         (<[ "base" := PStr "main" ]>
                           {[ "state" := PStr "all" ]}))) 100) 1 in
  fetch (logged scripted) 1 (__init__ "octocat" "Hello-World" "main" None)
    (PullRequests "all" "created") ([ok_page 2], [])
  = Some (Ok [dummy; dummy], ([], [(rq, ok_page 2)]))
  /\ req_params rq !! "base" = Some (PStr "main").
Proof.
  assert (H : fetch (logged scripted) 1
                (__init__ "octocat" "Hello-World" "main" None)
                (PullRequests "all" "created") ([ok_page 2], [])
              = Some (Ok [dummy; dummy],
                      ([], [(page_request
                               (__init__ "octocat" "Hello-World" "main" None)
                               "pulls"
                               (with_per_page
                                  (Some (<[ "sort" := PStr "created" ]>
                                          (<[ "base" := PStr "main" ]>
                                            {[ "state" := PStr "all" ]}))) 100) 1,
                             ok_page 2)])))
    by (vm_compute; reflexivity).
  split; [exact H|].
  pose proof (requests_sent _ scripted 1 "octocat" "Hello-World" "main" None
                (PullRequests "all" "created") _ _ _ _ 0%nat _ _ H eq_refl)
    as (_ & _ & _ & _ & _ & _ & Hbase & _).
  exact Hbase.
Defined.

End RequestFacts.

(** * Further properties of the summary *)
Module WindowFacts.

Import Datetime Analyzer Spec SummaryFacts DateFacts.

#[local] Arguments String.append _ _ : simpl nomatch.

(** ** The order of the datetimes *)

Lemma cmp_fields_antisym : forall a b,
  cmp_fields b a = CompOpp (cmp_fields a b).
Proof.
  induction a as [|x a IH]; intros [|y b]; try reflexivity.
  cbn [cmp_fields]. rewrite (Z.compare_antisym x y).
  destruct (x ?= y); cbn [CompOpp]; [apply IH|reflexivity|reflexivity].
Qed.

Lemma cmp_fields_trans : forall a b c,
  length a = length b -> length b = length c ->
  cmp_fields a b <> Gt -> cmp_fields b c <> Gt -> cmp_fields a c <> Gt.
Proof.
  induction a as [|x a IH]; intros [|y b] [|z c] Hab Hbc H1 H2;
    cbn [length] in *; try lia; [exact H1|].
  cbn [cmp_fields] in *.
  destruct (Z.compare_spec x y), (Z.compare_spec y z), (Z.compare_spec x z);
    try lia; try congruence.
  apply (IH b c); congruence.
Qed.

Lemma fields_length t : length (fields t) = 7%nat.
Proof. reflexivity. Qed.

(** No time is between the bounds of a window whose start is after its
    end. *)
Lemma in_window_inverted f u ts :
  gt f u = true -> in_window (Some f) (Some u) ts = false.
Proof.
  intros Hfu. unfold in_window. destruct ts as [t|]; [|reflexivity].
  unfold ge, le, lt, gt, cmp in *.
  destruct (cmp_fields (fields t) (fields f)) eqn:Htf; try reflexivity;
    destruct (cmp_fields (fields t) (fields u)) eqn:Htu; try reflexivity;
    exfalso;
    (apply (cmp_fields_trans (fields f) (fields t) (fields u));
     [reflexivity|reflexivity
     |rewrite cmp_fields_antisym, Htf; discriminate
     |rewrite Htu; discriminate
     |destruct (cmp_fields (fields f) (fields u)); [discriminate|discriminate|reflexivity]]).
Qed.

Lemma filter_none {A} (p : A -> bool) (l : list A) :
  (forall x, p x = false) -> List.filter p l = [].
Proof.
  intros H. induction l as [|x l IH]; [reflexivity|].
  cbn [List.filter]. rewrite H. exact IH.
Qed.

(** X5.  The window is not checked for [from <= to]: when the start is
    after the end no record is in it, and the summary of well-dated records
    is (0, 0, 0), not an error. *)
Theorem inverted_window_counts_nothing :
  forall self now elements stale_days f u,
    __date_from self = Some f -> __date_to self = Some u ->
    gt f u = true ->
    (forall r, _summarize self now elements stale_days = Ok r -> r = (0, 0, 0))
    /\ (Forall well_dated elements ->
        (exists deadline, sub_days now stale_days = Ok deadline) ->
        _summarize self now elements stale_days = Ok (0, 0, 0)).
Proof.
  intros self now elements stale_days f u Hf Hu Hfu.
  assert (Hnone : forall e, counted self e = false).
  { intros e. unfold counted. rewrite Hf, Hu. apply in_window_inverted. exact Hfu. }
  assert (Hzero : forall r, _summarize self now elements stale_days = Ok r ->
                            r = (0, 0, 0)).
  { intros [[o c] s] H.
    destruct (summarize_counts _ _ _ _ _ _ _ H) as (deadline & _ & -> & -> & ->).
    rewrite !filter_none; [reflexivity| | |];
      intros e; unfold counted_stale, counted_open, counted_closed;
      rewrite Hnone; reflexivity. }
  split; [exact Hzero|].
  intros Hall [deadline Hd].
  destruct (summarize_loop_total self deadline elements 0 0 0 Hall) as [r Hr].
  assert (H : _summarize self now elements stale_days = Ok r).
  { unfold _summarize. rewrite Hd. exact Hr. }
  rewrite H. f_equal. apply Hzero. exact H.
Qed.

Lemma inverted_window_counts_nothing_witness :
  let self := example_analyzer (Some (mkDatetime 2023 2 1 0 0 0 0))
                (Some (mkDatetime 2023 1 1 0 0 0 0)) in
  _summarize self example_now
    [record (Some "2023-01-15T10:00:00Z") "open"] 30 = Ok (0, 0, 0).
Proof.
  apply (proj2 (inverted_window_counts_nothing
                  (example_analyzer (Some (mkDatetime 2023 2 1 0 0 0 0))
                     (Some (mkDatetime 2023 1 1 0 0 0 0)))
                  example_now [record (Some "2023-01-15T10:00:00Z") "open"] 30
                  _ _ eq_refl eq_refl eq_refl)).
  - repeat constructor. eexists. reflexivity.
  - eexists. reflexivity.
Defined.

(** ** The days of the bounds *)

Lemma parse_input_ymd y m d :
  valid_date y m d ->
  _parse_time (Some (ymd_text y m d)) "input"
  = Ok (Some (mkDatetime y m d 0 0 0 0)).
Proof.
  intros Hv. pose proof (strptime_ymd y m d Hv) as H.
  unfold ymd_text, pad4 in *. cbn [String.append] in *.
  rewrite parse_time_nonempty.
  change (if ("input" =? "input")%string then _ else _) with "%Y-%m-%d".
  rewrite H. reflexivity.
Qed.

Lemma parse_api_text y m d hh mm ss :
  valid_date y m d -> valid_time hh mm ss ->
  _parse_time (Some (api_text y m d hh mm ss)) "api"
  = Ok (Some (mkDatetime y m d hh mm ss 0)).
Proof.
  intros Hv Ht. pose proof (strptime_api y m d hh mm ss Hv Ht) as H.
  unfold api_text, ymd_text, pad4 in *. cbn [String.append] in *.
  rewrite parse_time_nonempty.
  change (if ("api" =? "input")%string then _ else _)
    with "%Y-%m-%dT%H:%M:%SZ".
  rewrite H. reflexivity.
Qed.

Lemma gt_same_day y m d hh mm ss :
  valid_time hh mm ss ->
  gt (mkDatetime y m d hh mm ss 0) (mkDatetime y m d 0 0 0 0)
  = negb (midnight hh mm ss).
Proof.
  intros (Hh & Hm & Hs). unfold gt, cmp, fields, midnight.
  cbn [year month day hour minute second microsecond cmp_fields].
  rewrite !Z.compare_refl.
  destruct (Z.compare_spec hh 0), (Z.compare_spec mm 0), (Z.compare_spec ss 0);
    subst; try lia; try reflexivity;
    repeat match goal with
           | |- context [?a =? 0] =>
               destruct (Z.eqb_spec a 0); try lia
           end; reflexivity.
Qed.

Lemma lt_same_day y m d hh mm ss :
  valid_time hh mm ss ->
  lt (mkDatetime y m d hh mm ss 0) (mkDatetime y m d 0 0 0 0) = false.
Proof.
  intros (Hh & Hm & Hs). unfold lt, cmp, fields.
  cbn [year month day hour minute second microsecond cmp_fields].
  rewrite !Z.compare_refl.
  destruct (Z.compare_spec hh 0), (Z.compare_spec mm 0), (Z.compare_spec ss 0);
    subst; try lia; reflexivity.
Qed.

Lemma summarize_one self now stale_days e opened closed stale :
  _summarize self now [e] stale_days = Ok (opened, closed, stale) ->
  opened + closed = if counted self e then 1 else 0.
Proof.
  intros H.
  destruct (summarize_counts _ _ _ _ _ _ _ H) as (deadline & _ & -> & -> & _).
  rewrite <- filter_partition. cbn [List.filter].
  destruct (counted self e); reflexivity.
Qed.

(** X6.  The bounds given as days are the midnights that start them: on
    the day of [date_to] only a record created at 00:00:00 is counted,
    while on the day of [date_from] every record is. *)
Theorem window_days :
  forall auth repo_url branch y m d hh mm ss st now stale_days,
    valid_date y m d -> valid_time hh mm ss ->
    (exists deadline, sub_days now stale_days = Ok deadline) ->
    let e := record (Some (api_text y m d hh mm ss)) st in
    (forall self,
      __init__ auth repo_url branch None (Some (ymd_text y m d)) = Ok self ->
      exists opened closed stale,
        _summarize self now [e] stale_days = Ok (opened, closed, stale)
        /\ opened + closed = if midnight hh mm ss then 1 else 0)
    /\ (forall self,
         __init__ auth repo_url branch (Some (ymd_text y m d)) None = Ok self ->
         exists opened closed stale,
           _summarize self now [e] stale_days = Ok (opened, closed, stale)
           /\ opened + closed = 1).
Proof.
  intros auth repo_url branch y m d hh mm ss st now stale_days Hv Ht [dl Hd] e.
  assert (Hts : timestamp e = Some (mkDatetime y m d hh mm ss 0)).
  { unfold timestamp, e. cbn [record created_at].
    rewrite parse_api_text by assumption. reflexivity. }
  assert (Hwd : Forall well_dated [e]).
  { repeat constructor. eexists. unfold e. cbn [record created_at].
    apply parse_api_text; assumption. }
  assert (Hret : forall self, exists opened closed stale,
             _summarize self now [e] stale_days = Ok (opened, closed, stale)).
  { intros self. destruct (summarize_loop_total self dl [e] 0 0 0 Hwd)
      as [[[o c] s] Hr].
    exists o, c, s. unfold _summarize. rewrite Hd. exact Hr. }
  split; intros self Hinit; destruct (Hret self) as (o & c & s & Hs);
    exists o, c, s; (split; [exact Hs|]);
    rewrite (summarize_one _ _ _ _ _ _ _ Hs); unfold counted, in_window;
    rewrite Hts; unfold __init__ in Hinit;
    rewrite parse_input_ymd in Hinit by assumption;
    cbn [_parse_time bind] in Hinit;
    destruct (_parse_url repo_url) as [[owner name]|]; cbn [bind] in Hinit;
    try discriminate; injection Hinit as <-;
    cbn [__date_from __date_to andb].
  - unfold le. rewrite gt_same_day by assumption.
    destruct (midnight hh mm ss); reflexivity.
  - unfold ge. rewrite lt_same_day by assumption. reflexivity.
Qed.

Lemma window_days_witness :
  exists opened closed stale,
    _summarize
      (example_analyzer None (Some (mkDatetime 2023 1 31 0 0 0 0)))
      example_now [record (Some (api_text 2023 1 31 10 0 0)) "open"] 30
    = Ok (opened, closed, stale)
    /\ opened + closed = 0.
Proof.
  assert (Hv : valid_date 2023 1 31)
    by (unfold valid_date; vm_compute; intuition discriminate).
  assert (Ht : valid_time 10 0 0) by (unfold valid_time; lia).
  assert (Hd : exists deadline, sub_days example_now 30 = Ok deadline)
    by (eexists; reflexivity).
  exact (proj1 (window_days None "https://github.com/octocat/Hello-World"
                  "master" 2023 1 31 10 0 0 "open" example_now 30 Hv Ht Hd)
           _ eq_refl).
Defined.

End WindowFacts.

(** * How summaries compose *)
Module ComposeFacts.

Import Datetime Analyzer Spec SummaryFacts.

Ltac triple :=
  apply (f_equal Ok); apply (f_equal2 pair); [apply (f_equal2 pair)|]; lia.

Section Loop.

Variables (self : Analyzer) (deadline : datetime).

(** The loop over a concatenation is the loop over the first list followed,
    from its counters, by the loop over the second. *)
Lemma summarize_loop_app : forall l1 l2 opened closed stale,
  summarize_loop self deadline (l1 ++ l2) opened closed stale
  = let* r := summarize_loop self deadline l1 opened closed stale in
    summarize_loop self deadline l2 (fst (fst r)) (snd (fst r)) (snd r).
Proof.
  induction l1 as [|e l1 IH]; intros l2 opened closed stale; [reflexivity|].
  cbn [app summarize_loop].
  destruct (_parse_time (created_at e) "api") as [created|]; cbn [bind];
    [|reflexivity].
  destruct (__filter_by_date self created) as [keep|]; cbn [bind];
    [|reflexivity].
  destruct keep; cbn [negb]; [|apply IH].
  destruct (String.eqb (state e) "open"); [|apply IH].
  destruct (py_lt created deadline) as [old|]; cbn [bind]; [|reflexivity].
  destruct old; apply IH.
Qed.

(** The counters at the start are added to what the loop counts. *)
Lemma summarize_loop_shift : forall l opened closed stale,
  summarize_loop self deadline l opened closed stale
  = let* r := summarize_loop self deadline l 0 0 0 in
    Ok (add_counts (opened, closed, stale) r).
Proof.
  induction l as [|e l IH]; intros opened closed stale.
  - cbn [summarize_loop bind add_counts]. triple.
  - cbn [summarize_loop].
    destruct (_parse_time (created_at e) "api") as [created|]; cbn [bind];
      [|reflexivity].
    destruct (__filter_by_date self created) as [keep|]; cbn [bind];
      [|reflexivity].
    destruct keep; cbn [negb]; [|apply IH].
    destruct (String.eqb (state e) "open").
    + destruct (py_lt created deadline) as [old|]; cbn [bind]; [|reflexivity].
      destruct old;
        rewrite (IH (opened + 1)), (IH (0 + 1));
        destruct (summarize_loop self deadline l 0 0 0) as [[[a b] c]|];
        cbn [bind add_counts]; try reflexivity; triple.
    + rewrite (IH opened (closed + 1)), (IH 0 (0 + 1));
        destruct (summarize_loop self deadline l 0 0 0) as [[[a b] c]|];
        cbn [bind add_counts]; try reflexivity; triple.
Qed.

Lemma summarize_loop_concat l1 l2 :
  summarize_loop self deadline (l1 ++ l2) 0 0 0
  = let* r1 := summarize_loop self deadline l1 0 0 0 in
    let* r2 := summarize_loop self deadline l2 0 0 0 in
    Ok (add_counts r1 r2).
Proof.
  rewrite summarize_loop_app.
  destruct (summarize_loop self deadline l1 0 0 0) as [[[o c] s]|];
    cbn [bind fst snd]; [|reflexivity].
  apply summarize_loop_shift.
Qed.

(** The loop ends normally exactly when it does on each record alone. *)
Lemma summarize_loop_each : forall l,
  (exists r, summarize_loop self deadline l 0 0 0 = Ok r)
  <-> Forall (fun e => exists r, summarize_loop self deadline [e] 0 0 0 = Ok r) l.
Proof.
  induction l as [|e l IH].
  - split; [constructor|]. intros _. eexists. reflexivity.
  - change (e :: l) with ([e] ++ l). rewrite summarize_loop_concat. split.
    + intros [r Hr].
      destruct (summarize_loop self deadline [e] 0 0 0) as [r1|] eqn:H1;
        cbn [bind] in Hr; [|discriminate].
      destruct (summarize_loop self deadline l 0 0 0) as [r2|] eqn:H2;
        cbn [bind] in Hr; [|discriminate].
      constructor; [eauto|]. apply IH. eauto.
    + intros H. apply Forall_cons_1 in H as [[r1 H1] H].
      apply IH in H as [r2 H2]. cbn [app] in H1. rewrite H1, H2.
      eexists. reflexivity.
Qed.

End Loop.

Lemma filter_perm_len {A} (p : A -> bool) (l l' : list A) :
  Permutation l l' -> len (List.filter p l) = len (List.filter p l').
Proof.
  induction 1 as [|x l l' Hp IH|x y l|l l' l'' H1 IH1 H2 IH2].
  - reflexivity.
  - cbn [List.filter]. destruct (p x); rewrite ?len_cons, IH; reflexivity.
  - cbn [List.filter]. destruct (p x), (p y); rewrite ?len_cons; reflexivity.
  - congruence.
Qed.

(** X7.  The summary of a list that is summarized does not depend on the
    order of its records. *)
Theorem summarize_any_order :
  forall self now elements elements' stale_days r,
    Permutation elements elements' ->
    _summarize self now elements stale_days = Ok r ->
    _summarize self now elements' stale_days = Ok r.
Proof.
  intros self now elements elements' stale_days [[o c] s] Hperm H.
  destruct (summarize_counts _ _ _ _ _ _ _ H) as (deadline & Hd & -> & -> & ->).
  unfold _summarize in *. rewrite Hd in *. cbn [bind] in *.
  assert (Hret : exists r, summarize_loop self deadline elements' 0 0 0 = Ok r).
  { apply summarize_loop_each. eapply Permutation_Forall; [exact Hperm|].
    apply summarize_loop_each. eauto. }
  destruct Hret as [r Hr]. rewrite Hr.
  apply summarize_loop_counts in Hr. subst r.
  rewrite !Z.add_0_l.
  rewrite (filter_perm_len (counted_open self) _ _ Hperm),
    (filter_perm_len (counted_closed self) _ _ Hperm),
    (filter_perm_len (counted_stale self deadline) _ _ Hperm).
  reflexivity.
Qed.

Lemma summarize_any_order_witness :
  _summarize (example_analyzer None None) example_now
    [record (Some "2022-02-20T08:30:00Z") "closed";
     record (Some "2023-01-15T10:00:00Z") "open"] 30
  = Ok (1, 1, 1).
Proof.
  apply (summarize_any_order (example_analyzer None None) example_now
           [record (Some "2023-01-15T10:00:00Z") "open";
            record (Some "2022-02-20T08:30:00Z") "closed"]).
  - apply perm_swap.
  - vm_compute. reflexivity.
Defined.

(** X8.  The summary of two lists put together is the sum of their
    summaries, and it exists exactly when both exist. *)
Theorem summarize_concat :
  forall self now l1 l2 stale_days,
    (forall r1 r2,
      _summarize self now l1 stale_days = Ok r1 ->
      _summarize self now l2 stale_days = Ok r2 ->
      _summarize self now (l1 ++ l2) stale_days = Ok (add_counts r1 r2))
    /\ (forall r,
         _summarize self now (l1 ++ l2) stale_days = Ok r ->
         exists r1 r2,
           _summarize self now l1 stale_days = Ok r1
           /\ _summarize self now l2 stale_days = Ok r2
           /\ r = add_counts r1 r2).
Proof.
  intros self now l1 l2 stale_days. unfold _summarize.
  destruct (sub_days now stale_days) as [deadline|]; cbn [bind].
  - rewrite summarize_loop_concat. split.
    + intros r1 r2 -> ->. reflexivity.
    + intros r Hr.
      destruct (summarize_loop self deadline l1 0 0 0) as [r1|];
        cbn [bind] in Hr; [|discriminate].
      destruct (summarize_loop self deadline l2 0 0 0) as [r2|];
        cbn [bind] in Hr; [|discriminate].
      injection Hr as <-. eauto.
  - split; [discriminate|discriminate].
Qed.

Lemma summarize_concat_witness :
  _summarize (example_analyzer None None) example_now
    ([record (Some "2023-01-15T10:00:00Z") "open"]
     ++ [record (Some "2022-02-20T08:30:00Z") "closed";
         record (Some "2023-02-27T08:30:00Z") "open"]) 30
  = Ok (add_counts (1, 0, 1) (1, 1, 0)).
Proof.
  apply (proj1 (summarize_concat (example_analyzer None None) example_now
                  [record (Some "2023-01-15T10:00:00Z") "open"]
                  [record (Some "2022-02-20T08:30:00Z") "closed";
                   record (Some "2023-02-27T08:30:00Z") "open"] 30)).
  - vm_compute. reflexivity.
  - vm_compute. reflexivity.
Defined.

End ComposeFacts.

(** * Further properties of the ranking *)
Module TopFacts.

Import Analyzer Spec SummaryFacts RankingFacts.

Lemma slice_to_firstn {A} (l : list A) (n : Z) :
  exists m, slice_to l n = firstn m l.
Proof. unfold slice_to. destruct (0 <=? n); eauto. Qed.

Lemma rank_prefix commits limit :
  exists m, rank commits limit = firstn m (rank commits 0).
Proof.
  destruct (Z.eq_dec limit 0) as [->|Hne].
  - exists (length (rank commits 0)). rewrite firstn_all. reflexivity.
  - rewrite rank_limit by assumption. apply slice_to_firstn.
Qed.

Lemma sorted_app_cross (l1 l2 : list (string * Z)) :
  StronglySorted desc (l1 ++ l2) ->
  forall p q, In p l1 -> In q l2 -> snd q <= snd p.
Proof.
  induction l1 as [|x l1 IH]; intros Hs p q Hp Hq; [destruct Hp|].
  cbn [app] in Hs. apply StronglySorted_inv in Hs as [Hs Hx].
  destruct Hp as [<-|Hp]; [|eapply IH; eauto].
  rewrite List.Forall_forall in Hx. apply Hx. apply in_or_app. right. exact Hq.
Qed.

Lemma rank_length commits :
  length (rank commits 0) = length (distinct (logins commits)).
Proof.
  rewrite rank_all, (Permutation_length (sort_desc_perm _)).
  unfold by_first_commit. apply length_map.
Qed.

Lemma logins_no_author commits :
  Forall (fun c => author c = None) commits -> logins commits = [].
Proof.
  induction 1 as [|c l Hc Hl IH]; [reflexivity|].
  rewrite logins_cons, Hc, IH. reflexivity.
Qed.

Lemma slice_to_negative {A} (l : list A) (n : Z) :
  n < 0 -> len (slice_to l n) = Z.max 0 (len l + n).
Proof.
  intros Hn. unfold slice_to, len.
  destruct (0 <=? n) eqn:H0; [apply Z.leb_le in H0; lia|].
  rewrite length_firstn. lia.
Qed.

Lemma no_login_no_author commits :
  distinct (logins commits) = [] -> Forall (fun c => author c = None) commits.
Proof.
  intros Hnil. apply List.Forall_forall. intros c Hc.
  destruct (author c) as [[l]|] eqn:Ha; [|reflexivity].
  exfalso.
  assert (Hin : In l (distinct (logins commits))).
  { apply (proj2 (distinct_In _ _)), (proj2 (logins_In _ _)).
    exists c. split; assumption. }
  rewrite Hnil in Hin. destruct Hin.
Qed.

(** X9.  The ranking has one entry per author.  Cut by a positive [limit]
    it has [min limit authors] entries, and by a negative one
    [max 0 (authors + limit)], as [rating[:limit]] leaves.  For a [limit]
    that is not negative it is empty exactly when no commit has an author;
    without any author it is empty for every [limit]. *)
Theorem ranking_size :
  forall commits limit,
    len (rank commits 0) = len (distinct (logins commits))
    /\ (0 < limit ->
        len (rank commits limit)
        = Z.min limit (len (distinct (logins commits))))
    /\ (limit < 0 ->
        len (rank commits limit)
        = Z.max 0 (len (distinct (logins commits)) + limit))
    /\ (0 <= limit ->
        (rank commits limit = []
         <-> Forall (fun c => author c = None) commits))
    /\ (Forall (fun c => author c = None) commits -> rank commits limit = []).
Proof.
  intros commits limit.
  assert (Hlen : len (rank commits 0) = len (distinct (logins commits))).
  { unfold len. rewrite rank_length. reflexivity. }
  assert (Hpos : 0 < limit ->
                 len (rank commits limit)
                 = Z.min limit (len (distinct (logins commits)))).
  { intros Hl. rewrite rank_limit by lia.
    rewrite (RepositoryFacts.slice_to_length _ _ Hl), Hlen. reflexivity. }
  assert (Hempty : Forall (fun c => author c = None) commits ->
                   rank commits limit = []).
  { intros Hall.
    pose proof (logins_no_author commits Hall) as Hl.
    destruct (rank_prefix commits limit) as [m ->].
    rewrite rank_all. unfold by_first_commit. rewrite Hl.
    cbn [distinct map sort_desc]. apply firstn_nil. }
  split; [exact Hlen|]. split; [exact Hpos|]. split; [|split; [|exact Hempty]].
  - intros Hneg. rewrite rank_limit by lia.
    rewrite (slice_to_negative _ _ Hneg), Hlen. reflexivity.
  - intros Hl. split; [|exact Hempty].
    intros Hnil. apply no_login_no_author.
    assert (H0 : len (distinct (logins commits)) = 0).
    { destruct (Z.eq_dec limit 0) as [->|Hne].
      - rewrite <- Hlen, Hnil. reflexivity.
      - assert (Hl' : 0 < limit) by lia. specialize (Hpos Hl').
        rewrite Hnil in Hpos. unfold len in Hpos. cbn [length] in Hpos.
        unfold len. lia. }
    destruct (distinct (logins commits)); [reflexivity|].
    unfold len in H0. cbn [length] in H0. lia.
Qed.

Lemma ranking_size_witness :
  (0 < 2
   /\ len (rank [commit_by "A"; commit_by "B"; commit_without_author;
                commit_by "C"; commit_by "A"] 2)
      = Z.min 2 (len (distinct (logins
                   [commit_by "A"; commit_by "B"; commit_without_author;
                    commit_by "C"; commit_by "A"]))))
  /\ (-1 < 0
      /\ len (rank [commit_by "A"] (-1))
         = Z.max 0 (len (distinct (logins [commit_by "A"])) + -1)).
Proof.
  assert (H : 0 < 2) by lia.
  assert (H' : -1 < 0) by lia.
  split; (split; [assumption|]).
  - exact (proj1 (proj2 (ranking_size _ 2)) H).
  - exact (proj1 (proj2 (proj2 (ranking_size _ (-1)))) H').
Defined.

(** X10.  Cutting the ranking keeps the authors with the most commits: what
    is returned is the beginning of the full ranking, no author left out has
    more commits than one kept, and no author at all has more commits than
    the first of the ranking. *)
Theorem ranking_keeps_the_top :
  forall commits limit,
    (exists dropped,
      rank commits 0 = rank commits limit ++ dropped
      /\ forall p q, In p (rank commits limit) -> In q dropped ->
           snd q <= snd p)
    /\ (forall top l,
         hd_error (rank commits limit) = Some top ->
         count_login l commits <= snd top).
Proof.
  intros commits limit.
  destruct (rank_prefix commits limit) as [m Hm].
  assert (Hsorted : StronglySorted desc (rank commits 0))
    by (rewrite rank_all; apply sort_desc_sorted).
  assert (Hsplit : rank commits 0
                   = rank commits limit ++ skipn m (rank commits 0))
    by (rewrite Hm; symmetry; apply firstn_skipn).
  split.
  - exists (skipn m (rank commits 0)). split; [exact Hsplit|].
    apply sorted_app_cross. rewrite <- Hsplit. exact Hsorted.
  - intros top l Htop.
    assert (Hhead : hd_error (rank commits 0) = Some top).
    { rewrite Hsplit. destruct (rank commits limit); [discriminate|exact Htop]. }
    destruct (rank commits 0) as [|x full] eqn:Hfull; [discriminate|].
    injection Hhead as ->.
    assert (Hperm : Permutation (by_first_commit commits) (top :: full)).
    { rewrite <- Hfull, rank_all. symmetry. apply sort_desc_perm. }
    assert (Htop1 : 1 <= snd top).
    { assert (Hin : In top (by_first_commit commits)).
      { eapply Permutation_in; [symmetry; exact Hperm|left; reflexivity]. }
      apply in_map_iff in Hin as (l' & <- & Hl'). cbn [snd].
      apply count_In, (proj1 (distinct_In _ _)). exact Hl'. }
    destruct (in_dec string_dec l (logins commits)) as [Hin|Hout].
    + assert (Hl : In (l, count_login l commits) (top :: full)).
      { eapply Permutation_in; [exact Hperm|].
        apply in_map_iff. exists l. split; [reflexivity|].
        apply (proj2 (distinct_In _ _)). exact Hin. }
      destruct Hl as [->|Hl]; [reflexivity|].
      apply StronglySorted_inv in Hsorted as [_ Hx].
      rewrite List.Forall_forall in Hx. apply (Hx _ Hl).
    + unfold count_login. rewrite count_not_In by exact Hout. lia.
Qed.

Lemma ranking_keeps_the_top_witness :
  hd_error (rank [commit_by "A"; commit_by "B"; commit_without_author;
                  commit_by "B"; commit_by "C"] 2) = Some ("B", 2)
  /\ count_login "C" [commit_by "A"; commit_by "B"; commit_without_author;
                      commit_by "B"; commit_by "C"] <= snd ("B", 2).
Proof.
  assert (H : hd_error (rank [commit_by "A"; commit_by "B";
                              commit_without_author; commit_by "B";
                              commit_by "C"] 2) = Some ("B", 2))
    by (vm_compute; reflexivity).
  split; [exact H|].
  exact (proj2 (ranking_keeps_the_top _ 2) ("B", 2) "C" H).
Defined.

End TopFacts.

(** * A fetch in the middle of a run *)
Module FetchFacts.

Import Repository RepositoryFacts.

Section From.

Context {St : Type}.
Variable http_get : St -> request -> response * St.

(** The exchanges that a fetch without a cap adds to the log, and what it
    returns: the pages appended when every response was 200, and otherwise
    the query error of the response that was not, which is the last. *)
Lemma fetch_from fuel self endpoint params st log0 res st' log :
  _get_all_pages (logged http_get) fuel self endpoint params 0 (st, log0)
  = Some (res, (st', log)) ->
  exists entries,
    log = log0 ++ entries
    /\ entries <> []
    /\ Forall (fun e => req_url (fst e) = _base_url self +:+ "/" +:+ endpoint)
         entries
    /\ ((Forall (fun e => status_code (snd e) = 200) entries
         /\ res = Ok (concat (map (fun e => json (snd e)) entries)))
        \/ (exists pre e,
              entries = pre ++ [e]
              /\ Forall (fun e => status_code (snd e) = 200) pre
              /\ status_code (snd e) <> 200
              /\ res = Raise (RepositoryError
                                ("API request error: " +:+ text (snd e))))).
Proof.
  rewrite get_all_pages_unfold.
  destruct (pages_loop _ _ _ _ _ _ _ _ _ _) as [[res0 [st0 log1]]|] eqn:Hloop;
    [|discriminate].
  apply pages_loop_run in Hloop as (entries & -> & _ & Hreq & Hrun).
  intros H.
  assert (res = res0 /\ st' = st0 /\ log = log0 ++ entries) as (-> & -> & ->).
  { destruct res0; cbn in H; simplify_eq; auto. }
  exists entries. split; [reflexivity|].
  split; [intros ->; apply run_nonempty in Hrun; apply Hrun; reflexivity|].
  split.
  { apply List.Forall_forall. intros e He.
    assert (Hin : In (fst e) (map fst entries)) by (apply List.in_map; exact He).
    rewrite Hreq in Hin. apply in_map_iff in Hin as (i & <- & _). reflexivity. }
  destruct res0 as [data|err].
  - left. destruct (run_ok _ _ _ _ _ _ Hrun eq_refl) as [Hall ->].
    split; [apply Forall_map in Hall; exact Hall|].
    cbn [app]. rewrite map_map. reflexivity.
  - right. destruct (run_raise _ _ _ _ _ _ Hrun eq_refl)
      as (pre & r & Hpre & Hne & ->).
    destruct (exists_last (l := entries)) as (pre' & e & ->).
    { intros ->. apply run_nonempty in Hrun. apply Hrun. reflexivity. }
    rewrite map_app in Hpre. cbn [map] in Hpre.
    apply app_inj_tail in Hpre as [Hpre' <-].
    exists pre', e. split; [reflexivity|]. split; [|split; [exact Hne|reflexivity]].
    apply List.Forall_forall. intros x Hx.
    apply in_split in Hx as (l1 & l2 & ->).
    rewrite !map_app in Hrun. cbn [map] in Hrun.
    rewrite <- app_assoc in Hrun. cbn [app] in Hrun.
    edestruct (run_continue _ _ _ _ _ Hrun) as (H200 & _);
      [reflexivity| |exact H200].
    destruct (map snd l2); discriminate.
Qed.

End From.

End FetchFacts.

(** * From the pages to the statistics *)
Module PipelineFacts.

Import Datetime Repository RepositoryFacts FetchFacts Analyzer Spec.

Lemma failed_entry (log : list (request * response)) pre e x :
  log = pre ++ [e] -> all_ok pre -> In x log -> status_code (snd x) <> 200 ->
  x = e.
Proof.
  intros -> Hpre Hx Hne. apply in_app_or in Hx as [Hx|[<-|[]]]; [|reflexivity].
  unfold all_ok in Hpre. rewrite List.Forall_forall in Hpre.
  exfalso. apply Hne, Hpre, Hx.
Qed.

(** The outcome of a fetch without a cap, by its log. *)
Lemma fetch_outcome {St : Type} (http_get : St -> request -> response * St)
    fuel self endpoint params st log0 res st' log :
  _get_all_pages (logged http_get) fuel self endpoint params 0 (st, log0)
  = Some (res, (st', log)) ->
  exists entries,
    log = log0 ++ entries
    /\ sent_to self endpoint entries
    /\ (all_ok entries -> res = Ok (records entries))
    /\ (forall e, In e entries -> status_code (snd e) <> 200 ->
          res = Raise (query_error e) /\ exists pre, entries = pre ++ [e])
    /\ (forall data, res = Ok data -> all_ok entries /\ data = records entries).
Proof.
  intros H. apply fetch_from in H as (entries & -> & _ & Hurl & Hres).
  exists entries. split; [reflexivity|]. split; [exact Hurl|].
  destruct Hres as [[Hall ->]|(pre & e & -> & Hpre & Hne & ->)].
  - split; [reflexivity|]. split.
    + intros e He Hne. exfalso. unfold all_ok in Hall.
      rewrite List.Forall_forall in Hall. apply Hne, Hall, He.
    + intros data Hd. injection Hd as <-. split; [exact Hall|reflexivity].
  - split; [|split].
    + intros Hall. exfalso. apply Forall_app in Hall as [_ Hall].
      apply Forall_cons_1 in Hall as [Hall _]. contradiction.
    + intros x Hx Hxne.
      rewrite (failed_entry _ pre e x eq_refl Hpre Hx Hxne).
      split; [reflexivity|eauto].
    + discriminate.
Qed.

(** X11.  Each operation of the analyzer works on the records of all the
    pages it fetched, appended in order: the ranking is the ranking of the
    commits, the two statistics are the summaries of the pull requests with
    30 days and of the issues with 14 days.  When a response is not 200 the
    operation raises the query error of that response instead, and that
    request was its last. *)
Theorem analyzer_operations :
  forall (St : Type) (http_get : St -> request -> response * St)
      fuel self st st' log,
    (forall count res,
      Analyzer.get_contributors (logged http_get) fuel self count (st, [])
      = Some (res, (st', log)) ->
      sent_to (__repo self) "commits" log
      /\ (all_ok log -> res = Ok (rank (records log) count))
      /\ (forall e, In e log -> status_code (snd e) <> 200 ->
            res = Raise (query_error e) /\ exists pre, log = pre ++ [e]))
    /\ (forall now res,
         get_pull_requests_stat (logged http_get) fuel self now (st, [])
         = Some (res, (st', log)) ->
         sent_to (__repo self) "pulls" log
         /\ (all_ok log -> res = _summarize self now (records log) 30)
         /\ (forall e, In e log -> status_code (snd e) <> 200 ->
               res = Raise (query_error e) /\ exists pre, log = pre ++ [e]))
    /\ (forall now res,
         get_issues_stat (logged http_get) fuel self now (st, [])
         = Some (res, (st', log)) ->
         sent_to (__repo self) "issues" log
         /\ (all_ok log -> res = _summarize self now (records log) 14)
         /\ (forall e, In e log -> status_code (snd e) <> 200 ->
               res = Raise (query_error e) /\ exists pre, log = pre ++ [e])).
Proof.
  intros St http_get fuel self st st' log. split; [|split].
  - intros count res. unfold Analyzer.get_contributors, get_commits.
    destruct (_get_all_pages _ _ _ _ _ _ _) as [[r [st1 log1]]|] eqn:Hf;
      [|discriminate].
    apply fetch_outcome in Hf as (entries & -> & Hurl & Hok & Herr & Hdata).
    cbn [app] in *. intros H.
    assert (log = entries /\ res = match r with
                                   | Ok commits => Ok (rank commits count)
                                   | Raise e => Raise e
                                   end) as [-> ->]
      by (destruct r; simplify_eq; auto).
    split; [exact Hurl|]. split.
    + intros Hall. rewrite (Hok Hall). reflexivity.
    + intros e He Hne. destruct (Herr e He Hne) as [-> Hlast]. auto.
  - intros now res. unfold get_pull_requests_stat, get_pull_requests.
    destruct (_get_all_pages _ _ _ _ _ _ _) as [[r [st1 log1]]|] eqn:Hf;
      [|discriminate].
    apply fetch_outcome in Hf as (entries & -> & Hurl & Hok & Herr & Hdata).
    cbn [app] in *. intros H.
    assert (log = entries
            /\ res = match r with
                     | Ok elements => _summarize self now elements 30
                     | Raise e => Raise e
                     end) as [-> ->]
      by (destruct r; simplify_eq; auto).
    split; [exact Hurl|]. split.
    + intros Hall. rewrite (Hok Hall). reflexivity.
    + intros e He Hne. destruct (Herr e He Hne) as [-> Hlast]. auto.
  - intros now res. unfold get_issues_stat, get_issues.
    destruct (_get_all_pages _ _ _ _ _ _ _) as [[r [st1 log1]]|] eqn:Hf;
      [|discriminate].
    apply fetch_outcome in Hf as (entries & -> & Hurl & Hok & Herr & Hdata).
    cbn [app] in *. intros H.
    assert (log = entries
            /\ res = match r with
                     | Ok elements => _summarize self now elements 14
                     | Raise e => Raise e
                     end) as [-> ->]
      by (destruct r; simplify_eq; auto).
    split; [exact Hurl|]. split.
    + intros Hall. rewrite (Hok Hall). reflexivity.
    + intros e He Hne. destruct (Herr e He Hne) as [-> Hlast]. auto.
Qed.

Lemma analyzer_operations_witness :
  exists res st' log,
    get_pull_requests_stat (logged scripted) 1 (example_analyzer None None)
      example_now ([ok_page 2], [])
    = Some (res, (st', log))
    /\ all_ok log
    /\ res = _summarize (example_analyzer None None) example_now (records log) 30.
Proof.
  destruct (get_pull_requests_stat (logged scripted) 1
              (example_analyzer None None) example_now ([ok_page 2], []))
    as [[res [st' log]]|] eqn:H; [|vm_compute in H; discriminate].
  assert (Hall : all_ok log).
  { pose proof H as H'. vm_compute in H'. injection H' as _ _ <-.
    repeat constructor. }
  exists res, st', log. split; [reflexivity|]. split; [exact Hall|].
  exact (proj1 (proj2 (proj1 (proj2
           (analyzer_operations _ scripted 1 _ _ _ _)) example_now res H))
           Hall).
Defined.

End PipelineFacts.

(** * Construction of the analyzer and the dates it sends *)
Module ConstructionFacts.

Import Re Datetime Repository RepositoryFacts RequestFacts Analyzer Spec.
Import UrlFacts DateFacts WindowFacts.

#[local] Arguments String.append _ _ : simpl nomatch.

Lemma parse_url_of_shape pre host owner project rest :
  all_chars not_g pre = true ->
  lower_str host = "github.com/" ->
  owner <> "" -> all_chars not_slash owner = true ->
  project <> "" -> all_chars not_slash_query project = true ->
  ends_project rest ->
  _parse_url (pre +:+ host +:+ owner +:+ "/" +:+ project +:+ rest)
  = Ok (owner, project).
Proof.
  intros Hpre Hh Ho1 Ho2 Hp1 Hp2 Hrest.
  apply (fold_ci_lower host "github.com/" eq_refl) in Hh.
  rewrite parse_url_first.
  rewrite (first_match_skip _ _ _ url_match_needs_g Hpre).
  destruct (url_shape_match _ _ _ _ Hh Ho1 Ho2 Hp1 Hp2 Hrest) as (m & Hm & Hcap).
  assert (Hf : first_match url_pattern
                 (host +:+ owner +:+ "/" +:+ project +:+ rest) = Some m).
  { destruct (host +:+ owner +:+ "/" +:+ project +:+ rest);
      cbn [first_match]; rewrite Hm; reflexivity. }
  rewrite Hf, Hcap. reflexivity.
Qed.

(** X12.  The analyzer is built from a repository URL and two days: its
    window is made of their midnights and its client addresses
    [https://api.github.com/repos/<owner>/<project>] with the owner and the
    project of the URL.  The dates are read before the URL: a URL error is
    raised only when both dates were accepted. *)
Theorem analyzer_construction :
  (forall auth branch pre host owner project rest y1 m1 d1 y2 m2 d2,
    all_chars not_g pre = true ->
    lower_str host = "github.com/" ->
    owner <> "" -> all_chars not_slash owner = true ->
    project <> "" -> all_chars not_slash_query project = true ->
    ends_project rest ->
    valid_date y1 m1 d1 -> valid_date y2 m2 d2 ->
    let repo_url := pre +:+ host +:+ owner +:+ "/" +:+ project +:+ rest in
    Analyzer.__init__ auth repo_url branch
      (Some (ymd_text y1 m1 d1)) (Some (ymd_text y2 m2 d2))
    = Ok {| __repo_url := repo_url;
            __date_from := Some (mkDatetime y1 m1 d1 0 0 0 0);
            __date_to := Some (mkDatetime y2 m2 d2 0 0 0 0);
            __repo_owner := owner; _repo_name := project;
            __branch := branch;
            __repo :=
              {| _username := owner; _project := project; _branch := branch;
                 _auth := auth;
                 _base_url := "https://api.github.com/repos/" +:+ owner
                              +:+ "/" +:+ project |} |})
  /\ (forall auth repo_url branch date_from date_to,
       Analyzer.__init__ auth repo_url branch date_from date_to
       = Raise (AnalyzerError "Incorrect repository URL") ->
       (exists f, _parse_time date_from "input" = Ok f)
       /\ (exists t, _parse_time date_to "input" = Ok t)
       /\ _parse_url repo_url = Raise (AnalyzerError "Incorrect repository URL"))
  /\ (forall auth repo_url branch date_from date_to self,
       Analyzer.__init__ auth repo_url branch date_from date_to = Ok self ->
       _parse_time date_from "input" = Ok (__date_from self)
       /\ _parse_time date_to "input" = Ok (__date_to self)
       /\ _parse_url repo_url = Ok (__repo_owner self, _repo_name self)
       /\ __repo self
          = Repository.__init__ (__repo_owner self) (_repo_name self) branch auth).
Proof.
  split; [|split].
  - intros auth branch pre host owner project rest y1 m1 d1 y2 m2 d2
      Hpre Hh Ho1 Ho2 Hp1 Hp2 Hrest Hv1 Hv2 repo_url.
    unfold Analyzer.__init__.
    rewrite !parse_input_ymd by assumption. cbn [bind].
    unfold repo_url. rewrite parse_url_of_shape by assumption. reflexivity.
  - intros auth repo_url branch date_from date_to. unfold Analyzer.__init__.
    destruct (_parse_time date_from "input") as [f|e1] eqn:H1; cbn [bind].
    + destruct (_parse_time date_to "input") as [t|e2] eqn:H2; cbn [bind].
      * destruct (_parse_url repo_url) as [[o p]|e3] eqn:H3; cbn [bind];
          [discriminate|].
        intros H. injection H as ->. eauto.
      * intros H. injection H as ->. exfalso.
        unfold _parse_time in H2. destruct date_to as [[|c s]|];
          try discriminate.
        destruct (strptime _ _); discriminate.
    + intros H. injection H as ->. exfalso.
      unfold _parse_time in H1. destruct date_from as [[|c s]|];
        try discriminate.
      destruct (strptime _ _); discriminate.
  - intros auth repo_url branch date_from date_to self. unfold Analyzer.__init__.
    destruct (_parse_time date_from "input") as [f|e1]; cbn [bind];
      [|discriminate].
    destruct (_parse_time date_to "input") as [t|e2]; cbn [bind];
      [|discriminate].
    destruct (_parse_url repo_url) as [[o p]|e3]; cbn [bind]; [|discriminate].
    intros H. injection H as <-. cbn. auto.
Qed.

Lemma analyzer_construction_witness :
  __repo_owner
    (match Analyzer.__init__ None
             ("https://" +:+ "github.com/" +:+ "octocat" +:+ "/"
              +:+ "Hello-World" +:+ "")
             "master" (Some (ymd_text 2023 1 1)) (Some (ymd_text 2023 1 31)) with
     | Ok self => self
     | Raise _ => example_analyzer None None
     end) = "octocat".
Proof.
  assert (Hv1 : valid_date 2023 1 1)
    by (unfold valid_date; vm_compute; intuition discriminate).
  assert (Hv2 : valid_date 2023 1 31)
    by (unfold valid_date; vm_compute; intuition discriminate).
  rewrite (proj1 analyzer_construction None "master" "https://" "github.com/"
             "octocat" "Hello-World" "" 2023 1 1 2023 1 31
             eq_refl eq_refl ltac:(discriminate) eq_refl ltac:(discriminate)
             eq_refl (or_introl eq_refl) Hv1 Hv2).
  reflexivity.
Defined.

(** ** The dates sent to the API *)

Lemma isoformat_api y m d hh mm ss :
  isoformat (mkDatetime y m d hh mm ss 0) +:+ "Z" = api_text y m d hh mm ss.
Proof.
  unfold isoformat, api_text, ymd_text, pad4, pad2.
  cbn [year month day hour minute second microsecond String.append Z.eqb].
  reflexivity.
Qed.

(** ** A text with microseconds *)

Lemma all_chars_app P a b :
  all_chars P (a +:+ b) = all_chars P a && all_chars P b.
Proof.
  induction a as [|c a IH]; [reflexivity|].
  cbn [String.append all_chars]. rewrite IH. apply andb_assoc.
Qed.

Lemma append_empty_r (s : string) : s +:+ "" = s.
Proof.
  induction s as [|c s IH]; [reflexivity|].
  cbn [String.append]. rewrite IH. reflexivity.
Qed.

Lemma lit_strip_split icase p s m s' :
  lit_strip icase p s = Some (m, s') -> s = m +:+ s'.
Proof.
  destruct s as [|c s]; [discriminate|]. unfold lit_strip.
  destruct (lit_match icase p c).
  - intros H. injection H as <- <-. reflexivity.
  - destruct icase; [|discriminate]. intros H.
    apply strip_any_spec in H as [H _]. exact H.
Qed.

Lemma plus_cls_some {T} p : forall s (k : string -> string -> option T) t,
  plus_cls p s k = Some t ->
  exists m rest, s = m +:+ rest /\ all_chars p m = true /\ k m rest = Some t.
Proof.
  induction s as [|c s IH]; intros k t H; cbn [plus_cls] in H; [discriminate|].
  destruct (p c) eqn:Hc; [|discriminate].
  destruct (plus_cls p s (fun m rest => k (String c m) rest)) as [t'|] eqn:Hs.
  - injection H as ->. apply IH in Hs as (m & rest & -> & Hm & Hk).
    exists (String c m), rest. cbn [String.append all_chars].
    rewrite Hc, Hm. auto.
  - exists (String c ""), s. cbn [String.append all_chars]. rewrite Hc. auto.
Qed.

(** What a pattern took from a text is a prefix of it whose characters the
    pattern can take. *)
Lemma rmatch_within {T} icase P r :
  forall s g (k : string -> string -> groups -> option T) t,
    within icase P r ->
    rmatch icase r s g k = Some t ->
    exists m rest g',
      s = m +:+ rest /\ all_chars P m = true /\ k m rest g' = Some t.
Proof.
  induction r as [|p|neg ranges|r1 IH1 r2 IH2|r1 IH1 r2 IH2|neg ranges|name r1 IH1];
    intros s g k t Hw H; cbn [rmatch within] in *.
  - exists "", s, g. auto.
  - destruct (lit_strip icase p s) as [[m s']|] eqn:Hm; [|discriminate].
    exists m, s', g. split; [exact (lit_strip_split _ _ _ _ _ Hm)|].
    split; [exact (Hw _ _ _ Hm)|exact H].
  - destruct s as [|c s]; [discriminate|].
    destruct (cls_match icase neg ranges c) eqn:Hc; [|discriminate].
    exists (String c ""), s, g. cbn [String.append all_chars].
    rewrite (Hw _ Hc). auto.
  - destruct Hw as [Hw1 Hw2].
    apply (IH1 _ _ _ _ Hw1) in H as (m1 & s1 & g1 & -> & Hm1 & H).
    apply (IH2 _ _ _ _ Hw2) in H as (m2 & s2 & g2 & -> & Hm2 & H).
    exists (m1 +:+ m2), s2, g2. rewrite append_assoc, all_chars_app, Hm1, Hm2.
    auto.
  - destruct Hw as [Hw1 Hw2].
    destruct (rmatch icase r1 s g k) as [t'|] eqn:H1.
    + injection H as ->. exact (IH1 _ _ _ _ Hw1 H1).
    + exact (IH2 _ _ _ _ Hw2 H).
  - apply plus_cls_some in H as (m & rest & -> & Hm & H).
    exists m, rest, g. split; [reflexivity|]. split; [|exact H].
    clear H. induction m as [|c m IH]; [reflexivity|].
    cbn [all_chars] in *. apply andb_true_iff in Hm as [Hc Hm].
    rewrite (Hw _ Hc), (IH Hm). reflexivity.
  - apply (IH1 _ _ _ _ Hw) in H as (m & rest & g' & -> & Hm & H).
    exists m, rest, ((name, m) :: g'). auto.
Qed.

Ltac each_char c := destruct c as [[] [] [] [] [] [] [] []].

Ltac cls_leaf :=
  let c := fresh "c" in
  let Hc := fresh "Hc" in
  intros c; each_char c; intros Hc;
  solve [reflexivity | vm_compute in Hc; discriminate Hc].

Ltac lit_leaf :=
  let s := fresh "s" in
  let m := fresh "m" in
  let s' := fresh "s'" in
  let c := fresh "c" in
  let Hm := fresh "Hm" in
  intros s m s' Hm; destruct s as [|c s]; [discriminate Hm|];
  each_char c; cbn in Hm; try discriminate Hm;
  injection Hm as <- _; reflexivity.

Lemma api_pattern_no_dot r :
  pattern "%Y-%m-%dT%H:%M:%SZ" = Some r -> within true not_dot r.
Proof.
  intros H. vm_compute in H. injection H as <-.
  cbn [within].
  repeat match goal with
         | |- _ /\ _ => split
         | |- True => exact I
         end;
    first [cls_leaf | lit_leaf].
Qed.

Lemma no_dot_before a b : all_chars not_dot (a +:+ String "." b) = false.
Proof.
  rewrite all_chars_app. cbn [all_chars]. change (not_dot ".") with false.
  cbn [andb]. apply andb_false_r.
Qed.

Lemma strptime_dot a b :
  strptime (a +:+ String "." b) "%Y-%m-%dT%H:%M:%SZ" = None.
Proof.
  unfold strptime.
  destruct (pattern "%Y-%m-%dT%H:%M:%SZ") as [r|] eqn:Hr; [|reflexivity].
  destruct (match_ true r (a +:+ String "." b)) as [found|] eqn:Hm;
    [|reflexivity].
  destruct (remaining found) as [|c rest] eqn:Hrest; [|reflexivity].
  exfalso. unfold match_ in Hm.
  apply (rmatch_within true not_dot r _ _ _ _ (api_pattern_no_dot r Hr)) in Hm
    as (m & rest & g & Hs & Hall & Hfound).
  injection Hfound as <-. cbn [remaining] in Hrest. subst rest.
  rewrite append_empty_r in Hs. rewrite <- Hs, no_dot_before in Hall.
  discriminate.
Qed.

(** What [__init__] makes of one bound of the window. *)
Lemma init_bounds auth repo_url branch date_from date_to self :
  Analyzer.__init__ auth repo_url branch date_from date_to = Ok self ->
  _parse_time date_from "input" = Ok (__date_from self)
  /\ _parse_time date_to "input" = Ok (__date_to self).
Proof.
  unfold Analyzer.__init__.
  destruct (_parse_time date_from "input") as [f|e1]; cbn [bind];
    [|discriminate].
  destruct (_parse_time date_to "input") as [t|e2]; cbn [bind];
    [|discriminate].
  destruct (_parse_url repo_url) as [[o p]|e3]; cbn [bind]; [|discriminate].
  intros H. injection H as <-. cbn. auto.
Qed.

(** The two dates of a request for the commits of the ranking. *)
Lemma contributors_dates {St : Type}
    (http_get : St -> request -> response * St)
    self fuel count st res st' log i rq r :
  Analyzer.get_contributors (logged http_get) fuel self count (st, [])
  = Some (res, (st', log)) ->
  nth_error log i = Some (rq, r) ->
  req_params rq !! "since"
  = Some (opt_str (option_map (fun t => isoformat t +:+ "Z")
                     (__date_from self)))
  /\ req_params rq !! "until"
     = Some (opt_str (option_map (fun t => isoformat t +:+ "Z")
                        (__date_to self))).
Proof.
  intros Hrun Hi. unfold Analyzer.get_contributors, get_commits in Hrun.
  destruct (_get_all_pages _ _ _ _ _ _ _) as [[r0 [st0 log0]]|] eqn:Hf;
    [|discriminate].
  assert (log0 = log) as -> by (destruct r0; simplify_eq; reflexivity).
  rewrite (request_at _ _ _ _ _ _ _ _ _ _ _ _ _ Hf Hi).
  split; lookups.
Qed.

Lemma parse_microseconds t :
  microsecond t <> 0 ->
  _parse_time (Some (isoformat t +:+ "Z")) "api"
  = Raise (AnalyzerError "Incorrect date format").
Proof.
  intros Hus.
  pose proof (strptime_dot
                (pad4 (year t) +:+ "-" +:+ pad2 (month t) +:+ "-"
                 +:+ pad2 (day t) +:+ "T" +:+ pad2 (hour t) +:+ ":"
                 +:+ pad2 (minute t) +:+ ":" +:+ pad2 (second t))
                (pad6 (microsecond t) +:+ "Z")) as H.
  unfold isoformat.
  destruct (microsecond t =? 0) eqn:E; [apply Z.eqb_eq in E; contradiction|].
  unfold pad4, pad2, pad6 in *. cbn [String.append] in *.
  rewrite parse_time_nonempty.
  change (if ("api" =? "input")%string then _ else _)
    with "%Y-%m-%dT%H:%M:%SZ".
  rewrite H. reflexivity.
Qed.

(** X13.  A date and time without microseconds, written by [isoformat]
    with a final "Z" as the analyzer sends it, is read back by the API
    format as the same value; one with microseconds is written with a
    fraction and is refused with "Incorrect date format".  The commits of
    the ranking are asked
    [since] the midnight that starts the day given as [date_from] and
    [until] the midnight that starts the day given as [date_to], each
    bound on its own, whatever the other is; a bound that is absent or
    empty is sent as [None]. *)
Theorem dates_sent :
  (forall y m d hh mm ss,
    valid_date y m d -> valid_time hh mm ss ->
    let t := mkDatetime y m d hh mm ss 0 in
    isoformat t +:+ "Z" = api_text y m d hh mm ss
    /\ _parse_time (Some (isoformat t +:+ "Z")) "api" = Ok (Some t))
  /\ (forall t,
        microsecond t <> 0 ->
        _parse_time (Some (isoformat t +:+ "Z")) "api"
        = Raise (AnalyzerError "Incorrect date format"))
  /\ (forall (St : Type) (http_get : St -> request -> response * St)
        auth repo_url branch date_from date_to self fuel count st res st'
        log i rq r,
      Analyzer.__init__ auth repo_url branch date_from date_to = Ok self ->
      Analyzer.get_contributors (logged http_get) fuel self count (st, [])
      = Some (res, (st', log)) ->
      nth_error log i = Some (rq, r) ->
      (forall y m d,
         valid_date y m d -> date_from = Some (ymd_text y m d) ->
         req_params rq !! "since" = Some (PStr (api_text y m d 0 0 0)))
      /\ (date_from = None \/ date_from = Some "" ->
          req_params rq !! "since" = Some PNone)
      /\ (forall y m d,
            valid_date y m d -> date_to = Some (ymd_text y m d) ->
            req_params rq !! "until" = Some (PStr (api_text y m d 0 0 0)))
      /\ (date_to = None \/ date_to = Some "" ->
          req_params rq !! "until" = Some PNone)).
Proof.
  split; [|split; [exact parse_microseconds|]].
  - intros y m d hh mm ss Hv Ht t. split; [apply isoformat_api|].
    unfold t. rewrite isoformat_api. apply parse_api_text; assumption.
  - intros St http_get auth repo_url branch date_from date_to self fuel count
      st res st' log i rq r Hinit Hrun Hi.
    destruct (init_bounds _ _ _ _ _ _ Hinit) as [Hf Ht].
    destruct (contributors_dates _ _ _ _ _ _ _ _ _ _ _ Hrun Hi)
      as [Hsince Huntil].
    split; [|split; [|split]].
    + intros y m d Hv ->. rewrite parse_input_ymd in Hf by exact Hv.
      injection Hf as Hf. rewrite Hsince, <- Hf. cbn [option_map opt_str].
      rewrite isoformat_api. reflexivity.
    + intros [->| ->]; cbn [_parse_time] in Hf; injection Hf as Hf;
        rewrite Hsince, <- Hf; reflexivity.
    + intros y m d Hv ->. rewrite parse_input_ymd in Ht by exact Hv.
      injection Ht as Ht. rewrite Huntil, <- Ht. cbn [option_map opt_str].
      rewrite isoformat_api. reflexivity.
    + intros [->| ->]; cbn [_parse_time] in Ht; injection Ht as Ht;
        rewrite Huntil, <- Ht; reflexivity.
Qed.

Lemma dates_sent_witness :
  ((valid_date 2024 2 29 /\ valid_time 23 59 59)
   /\ _parse_time (Some (isoformat (mkDatetime 2024 2 29 23 59 59 0) +:+ "Z"))
        "api"
      = Ok (Some (mkDatetime 2024 2 29 23 59 59 0)))
  /\ exists self res st' log rq r,
       (Analyzer.__init__ None "https://github.com/octocat/Hello-World"
          "master" (Some (ymd_text 2023 1 1)) None = Ok self
        /\ Analyzer.get_contributors (logged scripted) 1 self 0
             ([ok_page 1], [])
           = Some (res, (st', log))
        /\ nth_error log 0 = Some (rq, r)
        /\ valid_date 2023 1 1)
       /\ req_params rq !! "since" = Some (PStr (api_text 2023 1 1 0 0 0))
       /\ req_params rq !! "until" = Some PNone.
Proof.
  assert (Hv : valid_date 2024 2 29)
    by (unfold valid_date; vm_compute; intuition discriminate).
  assert (Ht : valid_time 23 59 59) by (unfold valid_time; lia).
  assert (Hv' : valid_date 2023 1 1)
    by (unfold valid_date; vm_compute; intuition discriminate).
  split.
  { split; [split; assumption|].
    exact (proj2 (proj1 dates_sent 2024 2 29 23 59 59 Hv Ht)). }
  destruct (Analyzer.__init__ None "https://github.com/octocat/Hello-World"
              "master" (Some (ymd_text 2023 1 1)) None)
    as [self|e] eqn:Hinit; [|vm_compute in Hinit; discriminate].
  assert (Hself : self = {| __repo_url := "https://github.com/octocat/Hello-World";
                            __date_from := Some (mkDatetime 2023 1 1 0 0 0 0);
                            __date_to := None;
                            __repo_owner := "octocat";
                            _repo_name := "Hello-World";
                            __branch := "master";
                            __repo := example_repo |}).
  { pose proof Hinit as H'. vm_compute in H'. injection H' as <-.
    reflexivity. }
  destruct (Analyzer.get_contributors (logged scripted) 1 self 0
              ([ok_page 1], [])) as [[res [st' log]]|] eqn:Hrun;
    [|rewrite Hself in Hrun; vm_compute in Hrun; discriminate].
  assert (Hlog : exists rq, log = [(rq, ok_page 1)]).
  { pose proof Hrun as H'. rewrite Hself in H'. vm_compute in H'.
    injection H' as _ _ <-. eexists. reflexivity. }
  destruct Hlog as [rq Hlog].
  assert (Hnth : nth_error log 0 = Some (rq, ok_page 1))
    by (rewrite Hlog; reflexivity).
  exists self, res, st', log, rq, (ok_page 1).
  split; [split; [reflexivity|split; [exact Hrun|split;
            [exact Hnth|exact Hv']]]|].
  destruct (proj2 (proj2 dates_sent) _ scripted _ _ _ _ _ _ _ _ _ _ _ _ _ _ _
              Hinit Hrun Hnth) as (Hsince & _ & _ & Huntil).
  split; [exact (Hsince 2023 1 1 Hv' eq_refl)|].
  apply Huntil. left. reflexivity.
Defined.

End ConstructionFacts.

(** * The program: credentials, run and report *)
Module ProgramFacts.

Import Datetime Repository RepositoryFacts FetchFacts PipelineFacts.
Import Analyzer Spec RankingFacts Program.

#[local] Arguments String.append _ _ : simpl nomatch.

(** ** The column of the labels *)










(** ** The run *)

Section Run.

Context {St : Type}.
Variable http_get : St -> request -> response * St.

(** What one operation of the analyzer adds to the log. *)
Lemma contributors_stage fuel self count st log0 res st' log :
  Analyzer.get_contributors (logged http_get) fuel self count (st, log0)
  = Some (res, (st', log)) ->
  exists entries,
    log = log0 ++ entries /\ entries <> []
    /\ sent_to (__repo self) "commits" entries
    /\ ((all_ok entries /\ res = Ok (rank (records entries) count))
        \/ (exists pre e, entries = pre ++ [e] /\ all_ok pre
              /\ status_code (snd e) <> 200 /\ res = Raise (query_error e))).
Proof.
  unfold Analyzer.get_contributors, get_commits.
  destruct (_get_all_pages _ _ _ _ _ _ _) as [[r [st1 log1]]|] eqn:Hf;
    [|discriminate].
  apply fetch_from in Hf as (entries & -> & Hne & Hurl & Hres).
  intros H. exists entries.
  assert (log = log0 ++ entries
          /\ res = match r with
                   | Ok commits => Ok (rank commits count)
                   | Raise e => Raise e
                   end) as [-> ->]
    by (destruct r; simplify_eq; auto).
  split; [reflexivity|]. split; [exact Hne|]. split; [exact Hurl|].
  destruct Hres as [[Hall ->]|(pre & e & -> & Hpre & Hcode & ->)].
  - left. split; [exact Hall|reflexivity].
  - right. exists pre, e. auto.
Qed.

Lemma pulls_stage fuel self now st log0 res st' log :
  get_pull_requests_stat (logged http_get) fuel self now (st, log0)
  = Some (res, (st', log)) ->
  exists entries,
    log = log0 ++ entries /\ entries <> []
    /\ sent_to (__repo self) "pulls" entries
    /\ ((all_ok entries /\ res = _summarize self now (records entries) 30)
        \/ (exists pre e, entries = pre ++ [e] /\ all_ok pre
              /\ status_code (snd e) <> 200 /\ res = Raise (query_error e))).
Proof.
  unfold get_pull_requests_stat, get_pull_requests.
  destruct (_get_all_pages _ _ _ _ _ _ _) as [[r [st1 log1]]|] eqn:Hf;
    [|discriminate].
  apply fetch_from in Hf as (entries & -> & Hne & Hurl & Hres).
  intros H. exists entries.
  assert (log = log0 ++ entries
          /\ res = match r with
                   | Ok elements => _summarize self now elements 30
                   | Raise e => Raise e
                   end) as [-> ->]
    by (destruct r; simplify_eq; auto).
  split; [reflexivity|]. split; [exact Hne|]. split; [exact Hurl|].
  destruct Hres as [[Hall ->]|(pre & e & -> & Hpre & Hcode & ->)].
  - left. split; [exact Hall|reflexivity].
  - right. exists pre, e. auto.
Qed.

Lemma issues_stage fuel self now st log0 res st' log :
  get_issues_stat (logged http_get) fuel self now (st, log0)
  = Some (res, (st', log)) ->
  exists entries,
    log = log0 ++ entries /\ entries <> []
    /\ sent_to (__repo self) "issues" entries
    /\ ((all_ok entries /\ res = _summarize self now (records entries) 14)
        \/ (exists pre e, entries = pre ++ [e] /\ all_ok pre
              /\ status_code (snd e) <> 200 /\ res = Raise (query_error e))).
Proof.
  unfold get_issues_stat, get_issues.
  destruct (_get_all_pages _ _ _ _ _ _ _) as [[r [st1 log1]]|] eqn:Hf;
    [|discriminate].
  apply fetch_from in Hf as (entries & -> & Hne & Hurl & Hres).
  intros H. exists entries.
  assert (log = log0 ++ entries
          /\ res = match r with
                   | Ok elements => _summarize self now elements 14
                   | Raise e => Raise e
                   end) as [-> ->]
    by (destruct r; simplify_eq; auto).
  split; [reflexivity|]. split; [exact Hne|]. split; [exact Hurl|].
  destruct Hres as [[Hall ->]|(pre & e & -> & Hpre & Hcode & ->)].
  - left. split; [exact Hall|reflexivity].
  - right. exists pre, e. auto.
Qed.

Lemma all_ok_app (l1 l2 : list (request * response)) :
  all_ok l1 -> all_ok l2 -> all_ok (l1 ++ l2).
Proof. intros H1 H2. apply Forall_app. split; assumption. Qed.


Lemma all_ok_no_failure (log : list (request * response)) e :
  all_ok log -> In e log -> status_code (snd e) <> 200 -> False.
Proof.
  unfold all_ok. rewrite List.Forall_forall. intros Hall He Hne.
  apply Hne, Hall, He.
Qed.

Lemma app_nonempty {A} (l1 l2 : list A) : l1 <> [] -> l1 ++ l2 <> [].
Proof. destruct l1; [contradiction|discriminate]. Qed.

(** The log of a run of [main] whose analyzer was built: requests were
    sent, every response but the last was 200, and a last response that is
    not 200 is raised as a query error. *)
Lemma main_log fuel auth args now_pulls now_issues st out res st' log self :
  Analyzer.__init__ auth (url args) (branch args) (date_from args)
    (date_to args) = Ok self ->
  main (logged http_get) fuel auth args now_pulls now_issues (st, [])
  = Some (out, res, (st', log)) ->
  log <> []
  /\ exists pre,
       all_ok pre
       /\ (log = pre
           \/ exists e, log = pre ++ [e] /\ status_code (snd e) <> 200
                        /\ res = Raise (query_error e)).
Proof.
  intros Hi H. unfold main in H. rewrite Hi in H.
  destruct (Analyzer.get_contributors _ _ _ _ _) as [[rc [st1 log1]]|] eqn:Hc;
    [|discriminate].
  apply contributors_stage in Hc as (lc & -> & Hnc & _ & Hc). cbn [app] in *.
  destruct Hc as [[Hokc ->]|(pre & e0 & -> & Hpre & Hcode & ->)].
  2:{ injection H as <- <- <- <-. split; [exact Hnc|].
      exists pre. split; [exact Hpre|]. right. exists e0. auto. }
  cbv beta iota zeta in H.
  destruct (get_pull_requests_stat _ _ _ _ _) as [[rp [st2 log2]]|] eqn:Hp;
    [|discriminate].
  apply pulls_stage in Hp as (lp & -> & Hnp & _ & Hp).
  destruct Hp as [[Hokp ->]|(pre & e0 & -> & Hpre & Hcode & ->)].
  2:{ injection H as <- <- <- <-. split; [apply app_nonempty, Hnc|].
      exists (lc ++ pre). split; [apply all_ok_app; assumption|].
      right. exists e0. rewrite app_assoc. auto. }
  destruct (_summarize self now_pulls (records lp) 30) as [[[po pc] ps]|ep].
  2:{ injection H as <- <- <- <-. split; [apply app_nonempty, Hnc|].
      exists (lc ++ lp). split; [apply all_ok_app; assumption|]. left.
      reflexivity. }
  destruct (get_issues_stat _ _ _ _ _) as [[ri [st3 log3]]|] eqn:Hs;
    [|discriminate].
  apply issues_stage in Hs as (li & -> & Hni & _ & Hs).
  assert (Hne : (lc ++ lp) ++ li <> [])
    by (apply app_nonempty, app_nonempty, Hnc).
  destruct Hs as [[Hoki ->]|(pre & e0 & -> & Hpre & Hcode & ->)].
  2:{ injection H as <- <- <- <-. split; [exact Hne|].
      exists ((lc ++ lp) ++ pre).
      split; [repeat apply all_ok_app; assumption|].
      right. exists e0. rewrite (app_assoc (lc ++ lp)). auto. }
  assert (Hall : all_ok ((lc ++ lp) ++ li))
    by (repeat apply all_ok_app; assumption).
  destruct (_summarize self now_issues (records li) 14) as [[[io ic] is_]|ei];
    injection H as <- <- <- <-; (split; [exact Hne|]);
    exists ((lc ++ lp) ++ li); (split; [exact Hall|]); left; reflexivity.
Qed.

Lemma rank_30 commits : (length (rank commits 30) <= 30)%nat.
Proof.
  pose proof (slice_to_length (rank commits 0) 30 ltac:(lia)) as H.
  rewrite <- rank_limit in H by lia. unfold len in H. lia.
Qed.

End Run.

Lemma credentials login token :
  (forall auth, GITHUB_AUTH login token = Ok auth ->
     exists l t, login = Some l /\ token = Some t /\ l <> "" /\ t <> ""
                 /\ auth = Some (l, t))
  /\ (forall e, GITHUB_AUTH login token = Raise e ->
        e = AnalyzerError "Bad credentials"
        /\ (login = None \/ login = Some "" \/ token = None \/ token = Some "")).
Proof.
  unfold GITHUB_AUTH. split.
  - intros auth H. destruct login as [[|a l]|]; try discriminate.
    destruct token as [[|b t]|]; try discriminate.
    injection H as <-. exists (String a l), (String b t).
    repeat split; discriminate.
  - intros e H.
    destruct login as [[|a l]|]; [| |injection H as <-; auto].
    + injection H as <-. auto.
    + destruct token as [[|b t]|]; [|discriminate|]; injection H as <-; auto.
Qed.

(** X15.  A run of the program that ends well had both credentials, built
    its analyzer from the arguments, and sent its requests in three
    groups: for the commits, then the pull requests, then the issues, at
    least one each and all answered 200.  It printed the banner, the 30
    first of the ranking of the commits received (or that there are none),
    and the two summaries of the pull requests and of the issues received:
    between 10 and 40 texts. *)
Theorem program_report :
  forall (St : Type) (http_get : St -> request -> response * St)
      fuel login token args now_pulls now_issues st out st' log,
    program (logged http_get) fuel login token args now_pulls now_issues
      (st, [])
    = Some (out, Ok tt, (st', log)) ->
    exists l t self commits pulls issues top po pc ps io ic is_,
      (login = Some l /\ token = Some t /\ l <> "" /\ t <> "")
      /\ Analyzer.__init__ (Some (l, t)) (url args) (branch args)
           (date_from args) (date_to args) = Ok self
      /\ log = commits ++ pulls ++ issues
      /\ (commits <> [] /\ pulls <> [] /\ issues <> [])
      /\ (sent_to (__repo self) "commits" commits
          /\ sent_to (__repo self) "pulls" pulls
          /\ sent_to (__repo self) "issues" issues)
      /\ all_ok log
      /\ top = rank (records commits) 30
      /\ _summarize self now_pulls (records pulls) 30 = Ok (po, pc, ps)
      /\ _summarize self now_issues (records issues) 14 = Ok (io, ic, is_)
      /\ out
         = [banner]
           ++ match top with
              | [] => ["No contributors"]
              | _ => ("Top " +:+ str (len top) +:+ " contributors")
                     :: pprint_contributors top
              end
           ++ [""; stat_line "Number of open pull requests:" po;
               stat_line "Number of closed pull requests:" pc;
               stat_line "Number of stale pull requests:" ps]
           ++ [""; stat_line "Number of open issues:" io;
               stat_line "Number of closed issues:" ic;
               stat_line "Number of stale issues:" is_]
      /\ (length top <= 30)%nat
      /\ (10 <= length out <= 40)%nat.
Proof.
  intros St http_get fuel login token args now_pulls now_issues st out st' log H.
  unfold program in H.
  destruct (GITHUB_AUTH login token) as [auth|e] eqn:Ha; [|discriminate].
  apply (proj1 (credentials login token)) in Ha
    as (l & t & Hl & Ht & Hl0 & Ht0 & ->).
  unfold main in H.
  destruct (Analyzer.__init__ _ _ _ _ _) as [self|e] eqn:Hi; [|discriminate].
  destruct (Analyzer.get_contributors _ _ _ _ _) as [[rc [st1 log1]]|] eqn:Hc;
    [|discriminate].
  apply contributors_stage in Hc as (lc & -> & Hnc & Huc & Hc). cbn [app] in *.
  destruct Hc as [[Hokc ->]|(pre & e0 & -> & Hpre & Hcode & ->)];
    [|discriminate].
  cbv beta iota zeta in H.
  destruct (get_pull_requests_stat _ _ _ _ _) as [[rp [st2 log2]]|] eqn:Hp;
    [|discriminate].
  apply pulls_stage in Hp as (lp & -> & Hnp & Hup & Hp).
  destruct Hp as [[Hokp ->]|(pre & e0 & -> & Hpre & Hcode & ->)];
    [|discriminate].
  destruct (_summarize self now_pulls (records lp) 30) as [[[po pc] ps]|ep]
    eqn:Hsp; [|discriminate].
  destruct (get_issues_stat _ _ _ _ _) as [[ri [st3 log3]]|] eqn:Hs;
    [|discriminate].
  apply issues_stage in Hs as (li & -> & Hni & Hui & Hs).
  destruct Hs as [[Hoki ->]|(pre & e0 & -> & Hpre & Hcode & ->)];
    [|discriminate].
  destruct (_summarize self now_issues (records li) 14) as [[[io ic] is_]|ei]
    eqn:Hsi; [|discriminate].
  injection H as <- <- <-.
  exists l, t, self, lc, lp, li, (rank (records lc) 30), po, pc, ps, io, ic, is_.
  pose proof (rank_30 (records lc)) as H30.
  split; [auto|]. split; [exact Hi|].
  split; [symmetry; apply app_assoc|]. split; [auto|]. split; [auto|].
  split; [rewrite <- app_assoc; repeat apply all_ok_app; assumption|].
  split; [reflexivity|]. split; [exact Hsp|]. split; [exact Hsi|].
  split; [rewrite <- !app_assoc; reflexivity|]. split; [exact H30|].
  cbn [length]. rewrite !length_app. cbn [length].
  destruct (rank (records lc) 30) as [|c top]; cbn [length]; [lia|].
  unfold pprint_contributors. rewrite length_map. cbn [length] in *. lia.
Qed.

Lemma program_report_witness :
  exists out st' log,
    program (logged scripted) 1 (Some "me") (Some "secret")
      {| Program.url := "https://github.com/octocat/Hello-World";
         Program.date_from := None; Program.date_to := None;
         Program.branch := "master" |}
      example_now example_now ([ok_page 2; ok_page 1; ok_page 0], [])
    = Some (out, Ok tt, (st', log))
    /\ (10 <= length out <= 40)%nat.
Proof.
  destruct (program (logged scripted) 1 (Some "me") (Some "secret")
              {| Program.url := "https://github.com/octocat/Hello-World";
                 Program.date_from := None; Program.date_to := None;
                 Program.branch := "master" |}
              example_now example_now ([ok_page 2; ok_page 1; ok_page 0], []))
    as [[[out res] [st' log]]|] eqn:H; [|vm_compute in H; discriminate].
  assert (Hres : res = Ok tt).
  { pose proof H as H'. vm_compute in H'. injection H' as _ <- _ _.
    reflexivity. }
  subst res. exists out, st', log. split; [reflexivity|].
  destruct (program_report _ scripted _ _ _ _ _ _ _ _ _ _ H)
    as (l & t & self & lc & lp & li & top & po & pc & ps & io & ic & is_
        & _ & _ & _ & _ & _ & _ & _ & _ & _ & _ & _ & Hlen).
  exact Hlen.
Defined.

(** X16.  How a run of the program fails.  Without both credentials
    nothing is printed and nothing is sent, whatever the arguments parsed;
    with arguments that the analyzer rejects only the banner is printed and
    nothing is sent; in every other run a request is sent.  Every response
    before the last was 200, and a response that is not 200 ends the run
    with its query error. *)
Theorem program_failures :
  forall (St : Type) (http_get : St -> request -> response * St)
      fuel login token args now_pulls now_issues st out res st' log,
    program (logged http_get) fuel login token args now_pulls now_issues
      (st, [])
    = Some (out, res, (st', log)) ->
    ((login = None \/ login = Some "" \/ token = None \/ token = Some "") ->
       out = [] /\ res = Raise (AnalyzerError "Bad credentials")
       /\ log = [] /\ st' = st)
    /\ (forall l t e,
          login = Some l -> token = Some t -> l <> "" -> t <> "" ->
          Analyzer.__init__ (Some (l, t)) (url args) (branch args)
            (date_from args) (date_to args) = Raise e ->
          out = [banner] /\ res = Raise e /\ log = [] /\ st' = st)
    /\ (log = [] ->
          (login = None \/ login = Some "" \/ token = None \/ token = Some "")
          \/ exists l t e,
               login = Some l /\ token = Some t
               /\ Analyzer.__init__ (Some (l, t)) (url args) (branch args)
                    (date_from args) (date_to args) = Raise e)
    /\ (forall e, In e log -> status_code (snd e) <> 200 ->
          res = Raise (query_error e)
          /\ exists pre, log = pre ++ [e] /\ all_ok pre).
Proof.
  intros St http_get fuel login token args now_pulls now_issues st out res st'
    log H.
  unfold program in H.
  destruct (GITHUB_AUTH login token) as [auth|e0] eqn:Ha.
  - apply (proj1 (credentials login token)) in Ha
      as (l & t & -> & -> & Hl0 & Ht0 & ->).
    destruct (Analyzer.__init__ (Some (l, t)) (url args) (branch args)
                (date_from args) (date_to args)) as [self|e1] eqn:Hi.
    + destruct (main_log _ _ _ _ _ _ _ _ _ _ _ _ Hi H)
        as (Hne & pre & Hpre & Hlog).
      split; [intros [Hb|[Hb|[Hb|Hb]]]; congruence|].
      split; [intros l' t' e Hl Ht _ _ He; congruence|].
      split; [intros Hnil; contradiction|].
      intros e He Hcode. destruct Hlog as [->|(e' & -> & Hcode' & ->)].
      * exfalso. exact (all_ok_no_failure _ _ Hpre He Hcode).
      * rewrite (failed_entry _ pre e' e eq_refl Hpre He Hcode).
        split; [reflexivity|]. exists pre. auto.
    + unfold main in H. rewrite Hi in H. injection H as <- <- <- <-.
      split; [intros [Hb|[Hb|[Hb|Hb]]]; congruence|].
      split; [intros l' t' e Hl Ht _ _ He; split; [reflexivity|];
              split; [congruence|auto]|].
      split; [intros _; right; exists l, t, e1; auto|].
      intros e [].
  - apply (proj2 (credentials login token)) in Ha as [-> Hbad].
    injection H as <- <- <- <-.
    split; [auto|].
    split; [intros l t e -> -> Hl Ht _;
            destruct Hbad as [Hb|[Hb|[Hb|Hb]]]; congruence|].
    split; [auto|]. intros e [].
Qed.

Lemma program_failures_witness :
  exists out res st' log e,
    program (logged scripted) 1 (Some "me") (Some "secret")
      {| Program.url := "https://github.com/octocat/Hello-World";
         Program.date_from := None; Program.date_to := None;
         Program.branch := "master" |}
      example_now example_now
      ([ok_page 2; error_page 403 "rate limit exceeded"; ok_page 0], [])
    = Some (out, res, (st', log))
    /\ (In e log /\ status_code (snd e) <> 200)
    /\ res = Raise (RepositoryError "API request error: rate limit exceeded").
Proof.
  destruct (program (logged scripted) 1 (Some "me") (Some "secret")
              {| Program.url := "https://github.com/octocat/Hello-World";
                 Program.date_from := None; Program.date_to := None;
                 Program.branch := "master" |}
              example_now example_now
              ([ok_page 2; error_page 403 "rate limit exceeded"; ok_page 0],
               []))
    as [[[out res] [st' log]]|] eqn:H; [|vm_compute in H; discriminate].
  assert (Hlog : exists rq1 rq2,
             log = [(rq1, ok_page 2);
                    (rq2, error_page 403 "rate limit exceeded")]).
  { pose proof H as H'. vm_compute in H'. injection H' as _ _ _ <-.
    eexists _, _. reflexivity. }
  destruct Hlog as (rq1 & rq2 & Hlog).
  assert (He : In (rq2, error_page 403 "rate limit exceeded") log)
    by (rewrite Hlog; right; left; reflexivity).
  assert (Hcode : status_code (snd (rq2, error_page 403 "rate limit exceeded"))
                  <> 200) by (cbn; lia).
  exists out, res, st', log, (rq2, error_page 403 "rate limit exceeded").
  split; [reflexivity|]. split; [split; assumption|].
  exact (proj1 (proj2 (proj2 (proj2
           (program_failures _ scripted _ _ _ _ _ _ _ _ _ _ _ H)))
           _ He Hcode)).
Defined.

End ProgramFacts.
